(** * Cluster topology and fragment placement (package [db], topology.go)

    A shallow embedding of the topology directory: the Go object graph
    (Cluster, Database, Frame, Slice, FrameSliceIntersect, Fragment,
    Process) lives in a typed heap, every method is a computation in a
    small state-and-panic monad over that heap, and Go's [(value, error)]
    results are pairs of a pointer and an optional error.

    Not modelled: the mutexes (one call runs at a time here) and the
    output of [log.Println] (the diagnostic sink is no part of the state). *)

From stdpp Require Import base option list strings gmap pretty sorting list_numbers.
From Stdlib Require Import ZArith Lia Ascii.

Local Open Scope Z_scope.

(** ** Pointers and errors *)

(** A Go pointer: [None] is [nil], [Some a] the object at address [a] of the
    store of its type. *)
Abbreviation ptr := (option nat) (only parsing).

(** The package's error values; [DatabaseDoesNotExist] is the anonymous
    [errors.New] of [getDatabase], [EmptyDatabase] the one of [NumSlices],
    [ErrEmptyCircle] the ring's. *)
Inductive error : Type :=
  | FrameDoesNotExistError
  | InvalidFrameError
  | SliceDoesNotExistError
  | FragmentDoesNotExistError
  | FrameSliceIntersectDoesNotExistError
  | DatabaseDoesNotExist
  | EmptyDatabase
  | ErrEmptyCircle.

#[global] Instance error_eq_dec : EqDecision error.
Proof. solve_decision. Defined.

(** ** External collaborators

    topology.go imports [pilosa/config], [pilosa/util] and the ring's hash,
    and uses the package constant [SLICE_WIDTH]; none of them is defined in
    the file.  They are the fields of one interface. *)
Class Externals : Type := {
  (** [util.SUUID], compared with [==] *)
  SUUID : Type;
  SUUID_eq_dec :: EqDecision SUUID;
  (** [util.GUID] *)
  GUID : Type;
  SUUID_to_Hex : SUUID → string;
  Hex_to_SUUID : string → SUUID;
  (** the string-array settings held by the configuration provider *)
  config_arrays : gmap string (list string);
  (** the ring's hash of a key, a 32-bit value *)
  hashKey : string → Z;
  SLICE_WIDTH : Z;
}.

(** Modelled from the spec: [config.GetStringArrayDefault(key, default)] of
    package [pilosa/config] (not in topology.go): the configured sequence of
    strings for [key], the default when the key is not configured. *)
Definition GetStringArrayDefault `{Externals} (key : string) (def : list string)
  : list string :=
  default def (config_arrays !! key).

(** ** The consistent-hash ring *)

(** Modelled from the spec: the ring type [consistent.Consistent] imported by
    topology.go ([New], [Add], [Get], field [NumberOfReplicas]); its code is
    not in topology.go.  Every member occupies [NumberOfReplicas] virtual
    positions on a circle of hash values; a key hashes to a position and
    resolves to the nearest member clockwise, wrapping around at the end;
    a lookup in an empty ring is an error. *)
Module consistent.
Section ring.
Context `{Externals}.

(** Modelled from the spec: the ring's state, the circle of positions with
    the member at each, the member set and the replication factor. *)
Record Consistent : Type := {
  circle : gmap Z string;
  members : gset string;
  sortedHashes : list Z;
  NumberOfReplicas : Z;
  count : Z;
}.

(** Modelled from the spec: [consistent.New()], an empty ring; topology.go
    overwrites its replication factor at once. *)
Definition New : Consistent :=
  {| circle := ∅; members := ∅; sortedHashes := [];
     NumberOfReplicas := 20; count := 0 |}.

Definition set_NumberOfReplicas (n : Z) (c : Consistent) : Consistent :=
  {| circle := circle c; members := members c;
     sortedHashes := sortedHashes c; NumberOfReplicas := n;
     count := count c |}.

(** the key of the [idx]-th virtual position of [elt] *)
Definition eltKey (elt : string) (idx : Z) : string := pretty idx +:+ elt.

(** the positions [0 .. NumberOfReplicas - 1] of [elt] put on the circle *)
Definition add_positions (elt : string) (n : Z) (m : gmap Z string)
  : gmap Z string :=
  foldl (λ acc i, <[hashKey (eltKey elt i) := elt]> acc) m (seqZ 0 n).

Definition updateSortedHashes (m : gmap Z string) : list Z :=
  merge_sort Z.le (map fst (map_to_list m)).

(** Modelled from the spec: [Add(member)] puts the member on its
    [NumberOfReplicas] positions and into the member set. *)
Definition Add (elt : string) (c : Consistent) : Consistent :=
  let circle' := add_positions elt (NumberOfReplicas c) (circle c) in
  {| circle := circle';
     members := {[elt]} ∪ members c;
     sortedHashes := updateSortedHashes circle';
     NumberOfReplicas := NumberOfReplicas c;
     count := count c + 1 |}.

(** index of the first position strictly after [key], [0] past the end *)
Fixpoint first_after (key : Z) (hs : list Z) : nat :=
  match hs with
  | [] => 0%nat
  | h :: rest => if decide (key < h) then 0%nat else S (first_after key rest)
  end.

Definition search (c : Consistent) (key : Z) : nat :=
  let i := first_after key (sortedHashes c) in
  if decide (length (sortedHashes c) ≤ i)%nat then 0%nat else i.

(** Modelled from the spec: [Get(key)] resolves the key's position to the
    nearest member clockwise; an empty ring is an error. *)
Definition Get (name : string) (c : Consistent) : string * option error :=
  if decide (size (circle c) = 0%nat) then (EmptyString, Some ErrEmptyCircle)
  else
    let i := search c (hashKey name) in
    (default EmptyString (circle c !! (default 0 (sortedHashes c !! i))), None).
End ring.
End consistent.

Import consistent.

(** ** Objects *)

Section objects.
Context `{Externals}.

Record Process : Type := {
  process_id : option GUID;
  process_host : string;
  process_port_tcp : Z;
  process_port_http : Z;
}.

Record Location : Type := {
  ProcessId : option GUID;
  FragmentId : SUUID;
}.

Record Frame : Type := { frame_name : string }.

Record Slice : Type := { slice_id : Z }.

Record Fragment : Type := {
  fragment_id : SUUID;
  fragment_process : ptr;
}.

Record FrameSliceIntersect : Type := {
  fsi_frame : ptr;
  fsi_slice : ptr;
  fsi_fragments : list ptr;
  (** the ring is owned by its FSI: [nil] or the ring itself *)
  fsi_hashring : option Consistent;
}.

Record Database : Type := {
  Name : string;
  frames : list ptr;
  slices : list ptr;
  frame_slice_intersects : list ptr;
}.

(** [databases] is a Go map: [None] is the nil map *)
Record Cluster : Type := {
  databases : option (gmap string ptr);
}.

Record Bitmap : Type := {
  Id : Z;
  FrameType : string;
  Filter : Z;
}.

(** ** The heap: one store per object type, an address is an index *)
Record World : Type := {
  frame_store : list Frame;
  slice_store : list Slice;
  fsi_store : list FrameSliceIntersect;
  fragment_store : list Fragment;
  process_store : list Process;
  database_store : list Database;
  cluster_store : list Cluster;
}.

Definition empty_world : World :=
  {| frame_store := []; slice_store := []; fsi_store := [];
     fragment_store := []; process_store := []; database_store := [];
     cluster_store := [] |}.

Definition set_frame_store (v : list Frame) (w : World) : World :=
  {| frame_store := v; slice_store := slice_store w;
     fsi_store := fsi_store w; fragment_store := fragment_store w;
     process_store := process_store w; database_store := database_store w;
     cluster_store := cluster_store w |}.

Definition set_slice_store (v : list Slice) (w : World) : World :=
  {| frame_store := frame_store w; slice_store := v;
     fsi_store := fsi_store w; fragment_store := fragment_store w;
     process_store := process_store w; database_store := database_store w;
     cluster_store := cluster_store w |}.

Definition set_fsi_store (v : list FrameSliceIntersect) (w : World) : World :=
  {| frame_store := frame_store w; slice_store := slice_store w;
     fsi_store := v; fragment_store := fragment_store w;
     process_store := process_store w; database_store := database_store w;
     cluster_store := cluster_store w |}.

Definition set_fragment_store (v : list Fragment) (w : World) : World :=
  {| frame_store := frame_store w; slice_store := slice_store w;
     fsi_store := fsi_store w; fragment_store := v;
     process_store := process_store w; database_store := database_store w;
     cluster_store := cluster_store w |}.

Definition set_process_store (v : list Process) (w : World) : World :=
  {| frame_store := frame_store w; slice_store := slice_store w;
     fsi_store := fsi_store w; fragment_store := fragment_store w;
     process_store := v; database_store := database_store w;
     cluster_store := cluster_store w |}.

Definition set_database_store (v : list Database) (w : World) : World :=
  {| frame_store := frame_store w; slice_store := slice_store w;
     fsi_store := fsi_store w; fragment_store := fragment_store w;
     process_store := process_store w; database_store := v;
     cluster_store := cluster_store w |}.

Definition set_cluster_store (v : list Cluster) (w : World) : World :=
  {| frame_store := frame_store w; slice_store := slice_store w;
     fsi_store := fsi_store w; fragment_store := fragment_store w;
     process_store := process_store w; database_store := database_store w;
     cluster_store := v |}.

(** ** The monad: a call returns a value and a new heap, or panics *)
Inductive Res (A : Type) : Type :=
  | Ret (a : A) (w : World)
  | Panic.
#[global] Arguments Ret {A} a w.
#[global] Arguments Panic {A}.

Definition M (A : Type) : Type := World → Res A.

Definition ret {A} (a : A) : M A := λ w, Ret a w.

Definition bind {A B} (m : M A) (k : A → M B) : M B :=
  λ w, match m w with
       | Ret a w' => k a w'
       | Panic => Panic
       end.

(** dereference: a nil or dangling pointer panics *)
Definition load {A} (store : World → list A) (p : ptr) : M A :=
  λ w, match p with
       | Some a => match store w !! a with
                   | Some v => Ret v w
                   | None => Panic
                   end
       | None => Panic
       end.

(** write through a pointer *)
Definition store_at {A} (store : World → list A)
    (set : list A → World → World) (p : ptr) (v : A) : M unit :=
  λ w, match p with
       | Some a => match store w !! a with
                   | Some _ => Ret () (set (<[a := v]> (store w)) w)
                   | None => Panic
                   end
       | None => Panic
       end.

(** [&T{...}]: a fresh object *)
Definition alloc {A} (store : World → list A)
    (set : list A → World → World) (v : A) : M ptr :=
  λ w, Ret (Some (length (store w))) (set (store w ++ [v]) w).
End objects.

Notation "x <- m ;; k" := (bind m (λ x, k))
  (at level 100, m at next level, k at level 200, right associativity,
   only parsing).
Notation "m ;;; k" := (bind m (λ _, k))
  (at level 100, k at level 200, right associativity, only parsing).

(** ** The operations of topology.go *)

Section topology.
Context `{Externals}.

Definition panic {A} : M A := λ _, Panic.

(** [for _, x := range l { ... }] with a body that may return early: the
    body answers [Some r] to return [r], [None] to go on. *)
Fixpoint range_find {A R} (l : list A) (body : A → M (option R))
  : M (option R) :=
  match l with
  | [] => ret None
  | x :: rest =>
      r <- body x ;;
      match r with
      | Some v => ret (Some v)
      | None => range_find rest body
      end
  end.

(** [for _, x := range l { ... }] run to its end *)
Fixpoint range_do {A} (l : list A) (body : A → M unit) : M unit :=
  match l with
  | [] => ret ()
  | x :: rest => body x ;;; range_do rest body
  end.

Definition load_Frame : ptr → M Frame := load frame_store.
Definition load_Slice : ptr → M Slice := load slice_store.
Definition load_FSI : ptr → M FrameSliceIntersect := load fsi_store.
Definition load_Fragment : ptr → M Fragment := load fragment_store.
Definition load_Process : ptr → M Process := load process_store.
Definition load_Database : ptr → M Database := load database_store.
Definition load_Cluster : ptr → M Cluster := load cluster_store.

Definition store_FSI : ptr → FrameSliceIntersect → M unit :=
  store_at fsi_store set_fsi_store.
Definition store_Fragment : ptr → Fragment → M unit :=
  store_at fragment_store set_fragment_store.
Definition store_Database : ptr → Database → M unit :=
  store_at database_store set_database_store.
Definition store_Cluster : ptr → Cluster → M unit :=
  store_at cluster_store set_cluster_store.
Definition store_Process : ptr → Process → M unit :=
  store_at process_store set_process_store.

Definition set_frames (v : list ptr) (d : Database) : Database :=
  {| Name := Name d; frames := v; slices := slices d;
     frame_slice_intersects := frame_slice_intersects d |}.

Definition set_slices (v : list ptr) (d : Database) : Database :=
  {| Name := Name d; frames := frames d; slices := v;
     frame_slice_intersects := frame_slice_intersects d |}.

Definition set_frame_slice_intersects (v : list ptr) (d : Database)
  : Database :=
  {| Name := Name d; frames := frames d; slices := slices d;
     frame_slice_intersects := v |}.

Definition set_fsi_fragments (v : list ptr) (f : FrameSliceIntersect)
  : FrameSliceIntersect :=
  {| fsi_frame := fsi_frame f; fsi_slice := fsi_slice f;
     fsi_fragments := v; fsi_hashring := fsi_hashring f |}.

Definition set_fsi_hashring (v : option Consistent) (f : FrameSliceIntersect)
  : FrameSliceIntersect :=
  {| fsi_frame := fsi_frame f; fsi_slice := fsi_slice f;
     fsi_fragments := fsi_fragments f; fsi_hashring := v |}.

(** *** Processes *)

Definition NewProcess (id : option GUID) : M ptr :=
  alloc process_store set_process_store
    {| process_id := id; process_host := EmptyString;
       process_port_tcp := 0; process_port_http := 0 |}.

(** [*self.id]: the identifier behind the pointer *)
Definition Process_Id (self : ptr) : M GUID :=
  p <- load_Process self ;;
  match process_id p with
  | Some id => ret id
  | None => panic
  end.

Definition Host (self : ptr) : M string :=
  p <- load_Process self ;; ret (process_host p).

Definition SetHost (self : ptr) (host : string) : M unit :=
  p <- load_Process self ;;
  store_Process self
    {| process_id := process_id p; process_host := host;
       process_port_tcp := process_port_tcp p;
       process_port_http := process_port_http p |}.

Definition PortTcp (self : ptr) : M Z :=
  p <- load_Process self ;; ret (process_port_tcp p).

Definition SetPortTcp (self : ptr) (port : Z) : M unit :=
  p <- load_Process self ;;
  store_Process self
    {| process_id := process_id p; process_host := process_host p;
       process_port_tcp := port;
       process_port_http := process_port_http p |}.

Definition PortHttp (self : ptr) : M Z :=
  p <- load_Process self ;; ret (process_port_http p).

Definition SetPortHttp (self : ptr) (port : Z) : M unit :=
  p <- load_Process self ;;
  store_Process self
    {| process_id := process_id p; process_host := process_host p;
       process_port_tcp := process_port_tcp p;
       process_port_http := port |}.

(** *** Clusters *)

Definition NewCluster : M ptr :=
  alloc cluster_store set_cluster_store {| databases := Some ∅ |}.

Definition GetDatabases (self : ptr) : M (option (gmap string ptr)) :=
  c <- load_Cluster self ;; ret (databases c).

Definition addDatabase (c : ptr) (name : string) : M ptr :=
  database <- alloc database_store set_database_store
                {| Name := name; frames := []; slices := [];
                   frame_slice_intersects := [] |} ;;
  cl <- load_Cluster c ;;
  (if databases cl is None
   then store_Cluster c {| databases := Some ∅ |}
   else ret ()) ;;;
  cl <- load_Cluster c ;;
  match databases cl with
  | Some m => store_Cluster c {| databases := Some (<[name := database]> m) |}
  | None => panic
  end ;;;
  ret database.

(** reading a nil map finds nothing *)
Definition getDatabase (c : ptr) (name : string) : M (ptr * option error) :=
  cl <- load_Cluster c ;;
  match default ∅ (databases cl) !! name with
  | None => ret (None, Some DatabaseDoesNotExist)
  | Some value => ret (value, None)
  end.

Definition GetOrCreateDatabase (c : ptr) (name : string) : M ptr :=
  r <- getDatabase c name ;;
  match r.2 with
  | None => ret r.1
  | Some _ => addDatabase c name
  end.

(** *** Databases *)

Definition GetFrameSliceIntersects (self : ptr) : M (list ptr) :=
  d <- load_Database self ;; ret (frame_slice_intersects d).

Fixpoint stringInSlice (a : string) (list : list string) : bool :=
  match list with
  | [] => false
  | b :: rest => if decide (b = a) then true else stringInSlice a rest
  end.

(** the receiver is not read *)
Definition IsValidFrame (d : ptr) (name : string) : bool :=
  let supported_frames :=
    GetStringArrayDefault "supported_frames" ["default"%string] in
  stringInSlice name supported_frames.

Definition NumSlices (d : ptr) : M (Z * option error) :=
  db <- load_Database d ;;
  if decide (length (slices db) < 1)%nat
  then ret (0, Some EmptyDatabase)
  else ret (Z.of_nat (length (slices db)), None).

(** *** Frames *)

Definition getFrame (d : ptr) (name : string) : M (ptr * option error) :=
  if negb (IsValidFrame d name) then ret (None, Some InvalidFrameError)
  else
    db <- load_Database d ;;
    r <- range_find (frames db) (λ frame,
           f <- load_Frame frame ;;
           if decide (frame_name f = name)
           then ret (Some (frame, @None error))
           else ret None) ;;
    match r with
    | Some found => ret found
    | None => ret (None, Some FrameDoesNotExistError)
    end.

(** *** Frame-slice intersects *)

Definition AddFrameSliceIntersect (d frame slice : ptr) : M ptr :=
  frameslice <- alloc fsi_store set_fsi_store
                  {| fsi_frame := frame; fsi_slice := slice;
                     fsi_fragments := []; fsi_hashring := None |} ;;
  db <- load_Database d ;;
  store_Database d
    (set_frame_slice_intersects (frame_slice_intersects db ++ [frameslice]) db) ;;;
  fs <- load_FSI frameslice ;;
  store_FSI frameslice (set_fsi_hashring (Some New) fs) ;;;
  fs <- load_FSI frameslice ;;
  match fsi_hashring fs with
  | Some c =>
      store_FSI frameslice (set_fsi_hashring (Some (set_NumberOfReplicas 16 c)) fs)
  | None => panic
  end ;;;
  ret frameslice.

Definition GetFrameSliceIntersect (d frame slice : ptr)
  : M (ptr * option error) :=
  db <- load_Database d ;;
  r <- range_find (frame_slice_intersects db) (λ frameslice,
         fs <- load_FSI frameslice ;;
         if decide (fsi_frame fs = frame ∧ fsi_slice fs = slice)
         then ret (Some (frameslice, @None error))
         else ret None) ;;
  match r with
  | Some found => ret found
  | None => ret (None, Some FrameSliceIntersectDoesNotExistError)
  end.

Definition GetFragments (self : ptr) : M (list ptr) :=
  fs <- load_FSI self ;; ret (fsi_fragments fs).

Definition GetFragment (self : ptr) (fragment_id' : SUUID)
  : M (ptr * option error) :=
  fs <- load_FSI self ;;
  r <- range_find (fsi_fragments fs) (λ fragment,
         fr <- load_Fragment fragment ;;
         if decide (fragment_id fr = fragment_id')
         then ret (Some (fragment, @None error))
         else ret None) ;;
  match r with
  | Some found => ret found
  | None => ret (None, Some FragmentDoesNotExistError)
  end.

Definition AddFragment (self fragment : ptr) : M unit :=
  fs <- load_FSI self ;;
  store_FSI self (set_fsi_fragments (fsi_fragments fs ++ [fragment]) fs) ;;;
  fs <- load_FSI self ;;
  fr <- load_Fragment fragment ;;
  match fsi_hashring fs with
  | Some c =>
      store_FSI self
        (set_fsi_hashring (Some (Add (SUUID_to_Hex (fragment_id fr)) c)) fs)
  | None => panic
  end.

(** *** Adding frames and slices *)

Definition addFrame (d : ptr) (name : string) : M ptr :=
  frame <- alloc frame_store set_frame_store {| frame_name := name |} ;;
  db <- load_Database d ;;
  store_Database d (set_frames (frames db ++ [frame]) db) ;;;
  db <- load_Database d ;;
  range_do (slices db) (λ slice,
    _ <- AddFrameSliceIntersect d frame slice ;; ret ()) ;;;
  ret frame.

Definition GetOrCreateFrame (d : ptr) (name : string) : M ptr :=
  r <- getFrame d name ;;
  match r.2 with
  | None => ret r.1
  | Some _ => addFrame d name
  end.

Definition Slice_Id (self : ptr) : M Z :=
  s <- load_Slice self ;; ret (slice_id s).

Definition getSlice (d : ptr) (slice_id' : Z) : M (ptr * option error) :=
  db <- load_Database d ;;
  r <- range_find (slices db) (λ slice,
         s <- load_Slice slice ;;
         if decide (slice_id s = slice_id')
         then ret (Some (slice, @None error))
         else ret None) ;;
  match r with
  | Some found => ret found
  | None => ret (None, Some SliceDoesNotExistError)
  end.

Definition addSlice (d : ptr) (slice_id' : Z) : M ptr :=
  slice <- alloc slice_store set_slice_store {| slice_id := slice_id' |} ;;
  db <- load_Database d ;;
  store_Database d (set_slices (slices db ++ [slice]) db) ;;;
  db <- load_Database d ;;
  range_do (frames db) (λ frame,
    _ <- AddFrameSliceIntersect d frame slice ;; ret ()) ;;;
  ret slice.

Definition GetOrCreateSlice (d : ptr) (slice_id' : Z) : M ptr :=
  r <- getSlice d slice_id' ;;
  match r.2 with
  | None => ret r.1
  | Some _ => addSlice d slice_id'
  end.

(** *** Fragments *)

Definition GetId (self : ptr) : M SUUID :=
  fr <- load_Fragment self ;; ret (fragment_id fr).

Definition GetProcess (self : ptr) : M ptr :=
  fr <- load_Fragment self ;; ret (fragment_process fr).

(** [self.process.id]: two dereferences *)
Definition GetProcessId (self : ptr) : M (option GUID) :=
  fr <- load_Fragment self ;;
  p <- load_Process (fragment_process fr) ;;
  ret (process_id p).

(** the fresh [Location] is returned as a value *)
Definition GetLocation (self : ptr) : M Location :=
  fr <- load_Fragment self ;;
  p <- load_Process (fragment_process fr) ;;
  ret {| ProcessId := process_id p; FragmentId := fragment_id fr |}.

Definition SetProcess (f process : ptr) : M unit :=
  fr <- load_Fragment f ;;
  store_Fragment f {| fragment_id := fragment_id fr;
                      fragment_process := process |}.

(** the bitmap is read only and is passed as a value *)
Definition GetFragmentForBitmap (d slice : ptr) (bitmap : Bitmap)
  : M (ptr * option error) :=
  r <- getFrame d (FrameType bitmap) ;;
  match r.2 with
  | Some err =>
      (* the log line of this branch reads d.Name *)
      _ <- load_Database d ;;
      ret (None, Some err)
  | None =>
      let frame := r.1 in
      r <- GetFrameSliceIntersect d frame slice ;;
      match r.2 with
      | Some err => ret (None, Some err)
      | None =>
          let fsi := r.1 in
          fs <- load_FSI fsi ;;
          match fsi_hashring fs with
          | None => panic
          | Some ring =>
              let r := Get (pretty (Id bitmap)) ring in
              match r.2 with
              | Some err => ret (None, Some err)
              | None =>
                  let frag_id := Hex_to_SUUID r.1 in
                  GetFragment fsi frag_id
              end
          end
      end
  end.

Definition GetFragmentForFrameSlice (d frame slice : ptr)
  : M (ptr * option error) :=
  r <- GetFrameSliceIntersect d frame slice ;;
  match r.2 with
  | Some err => ret (None, Some err)
  | None =>
      let fsi := r.1 in
      fs <- load_FSI fsi ;;
      match fsi_hashring fs with
      | None => panic
      | Some ring =>
          let r := Get "0" ring in
          match r.2 with
          | Some err => ret (None, Some err)
          | None => GetFragment fsi (Hex_to_SUUID r.1)
          end
      end
  end.

Definition getFragment (d frame slice : ptr) (fragment_id' : SUUID)
  : M (ptr * option error) :=
  r <- GetFrameSliceIntersect d frame slice ;;
  match r.2 with
  | Some err => ret (None, Some err)
  | None => GetFragment r.1 fragment_id'
  end.

Definition addFragment (d frame slice : ptr) (fragment_id' : SUUID) : M ptr :=
  r <- GetFrameSliceIntersect d frame slice ;;
  match r.2 with
  | Some _ => ret None
  | None =>
      fragment <- alloc fragment_store set_fragment_store
                    {| fragment_id := fragment_id'; fragment_process := None |} ;;
      AddFragment r.1 fragment ;;;
      ret fragment
  end.

Definition GetOrCreateFragment (d frame slice : ptr) (fragment_id' : SUUID)
  : M ptr :=
  r <- getFragment d frame slice fragment_id' ;;
  match r.2 with
  | None => ret r.1
  | Some _ => addFragment d frame slice fragment_id'
  end.

(** *** Slice derivation *)

(** Go's [int(x)] for a 64-bit [int]: the value wrapped to the signed
    64-bit range. *)
Definition int_of_uint64 (x : Z) : Z := (x + 2 ^ 63) `mod` 2 ^ 64 - 2 ^ 63.

(** [profile_id] is a [uint64]; its division truncates, which on unsigned
    values is the floor; [SLICE_WIDTH] is a constant other than zero *)
Definition GetSlice (profile_id : Z) : Z :=
  int_of_uint64 (profile_id `div` SLICE_WIDTH).

Definition GetSliceForProfile (d : ptr) (profile_id : Z)
  : M (ptr * option error) :=
  getSlice d (GetSlice profile_id).

End topology.

(** ** A sample instance of the collaborators

    Identifiers are numbers written in lower-case hexadecimal, the hash is a
    32-bit polynomial hash, nothing is configured and [SLICE_WIDTH] has the
    value the specification gives.  The closed examples run on it. *)

Definition hex_digits : list ascii :=
  String.list_ascii_of_string "0123456789abcdef".

Definition hex_char (d : N) : ascii :=
  default "0"%char (hex_digits !! N.to_nat d).

Fixpoint hex_go (fuel : nat) (n : N) (acc : string) : string :=
  match fuel with
  | O => acc
  | S fuel' =>
      if decide (n = 0)%N then acc
      else hex_go fuel' (n `div` 16)%N (String (hex_char (n `mod` 16)%N) acc)
  end.

Definition sample_to_hex (n : N) : string :=
  if decide (n = 0)%N then "0"%string else hex_go 16 n EmptyString.

Fixpoint hex_val_in (c : ascii) (ds : list ascii) : N :=
  match ds with
  | [] => 0%N
  | d :: rest => if decide (d = c) then 0%N else N.succ (hex_val_in c rest)
  end.

Definition sample_of_hex (s : string) : N :=
  foldl (λ acc c, acc * 16 + hex_val_in c hex_digits)%N 0%N
    (String.list_ascii_of_string s).

Definition sample_hash (s : string) : Z :=
  foldl (λ acc c, (acc * 31 + Z.of_N (N_of_ascii c)) `mod` 2 ^ 32) 0
    (String.list_ascii_of_string s).

Definition sample_externals : Externals :=
  {| SUUID := N; GUID := N;
     SUUID_to_Hex := sample_to_hex; Hex_to_SUUID := sample_of_hex;
     config_arrays := ∅; hashKey := sample_hash; SLICE_WIDTH := 1048576 |}.

(** ** Observations on a heap, used to state the properties *)

Section observations.
Context `{Externals}.

(** what a pointer refers to in a store, if anything *)
Definition deref {A} (store : list A) (p : ptr) : option A :=
  match p with
  | Some a => store !! a
  | None => None
  end.

(** the frame and the slice an FSI pointer joins *)
Definition pair_of (w : World) (q : ptr) : option (ptr * ptr) :=
  match deref (fsi_store w) q with
  | Some fs => Some (fsi_frame fs, fsi_slice fs)
  | None => None
  end.

(** how many FSIs of the database join [frame] and [slice] *)
Definition fsi_count (w : World) (db : Database) (frame slice : ptr) : nat :=
  length (List.filter
            (λ q, bool_decide (pair_of w q = Some (frame, slice)))
            (frame_slice_intersects db)).

(** the names of the frames a database holds *)
Definition frame_names (w : World) (db : Database) : list (option string) :=
  (λ p, frame_name <$> deref (frame_store w) p) <$> frames db.

(** the FSI record [AddFrameSliceIntersect] builds *)
Definition fresh_fsi (frame slice : ptr) : FrameSliceIntersect :=
  {| fsi_frame := frame; fsi_slice := slice; fsi_fragments := [];
     fsi_hashring := Some (set_NumberOfReplicas 16 New) |}.

(** the heap after FSIs for the pairs [prs] were added, in this order, to
    the database at [a], whose record was [db] *)
Definition with_fsis (a : nat) (db : Database) (prs : list (ptr * ptr))
    (w : World) : World :=
  set_database_store
    (<[a := set_frame_slice_intersects
              (frame_slice_intersects db
                 ++ (Some <$> seq (length (fsi_store w)) (length prs))) db]>
       (database_store w))
    (set_fsi_store (fsi_store w ++ ((λ pr, fresh_fsi pr.1 pr.2) <$> prs)) w).

(** the first answer of [g] along a list *)
Fixpoint first_some {A R} (g : A → option R) (l : list A) : option R :=
  match l with
  | [] => None
  | x :: rest => match g x with
                 | Some r => Some r
                 | None => first_some g rest
                 end
  end.

(** the answers of the four searches of topology.go at one element *)
Definition frame_hit (w : World) (name : string) (p : ptr)
  : option (ptr * option error) :=
  match deref (frame_store w) p with
  | Some f => if decide (frame_name f = name) then Some (p, None) else None
  | None => None
  end.

Definition slice_hit (w : World) (i : Z) (p : ptr)
  : option (ptr * option error) :=
  match deref (slice_store w) p with
  | Some s => if decide (slice_id s = i) then Some (p, None) else None
  | None => None
  end.

Definition fsi_hit (w : World) (frame slice : ptr) (q : ptr)
  : option (ptr * option error) :=
  match deref (fsi_store w) q with
  | Some fs =>
      if decide (fsi_frame fs = frame ∧ fsi_slice fs = slice)
      then Some (q, None) else None
  | None => None
  end.

Definition fragment_hit (w : World) (i : SUUID) (p : ptr)
  : option (ptr * option error) :=
  match deref (fragment_store w) p with
  | Some fr => if decide (fragment_id fr = i) then Some (p, None) else None
  | None => None
  end.

(** the heap after [addFrame] on the database at [a], whose record was [db] *)
Definition after_addFrame (a : nat) (db : Database) (name : string)
    (w : World) : World :=
  let frame := Some (length (frame_store w)) in
  let db1 := set_frames (frames db ++ [frame]) db in
  with_fsis a db1 ((λ slice, (frame, slice)) <$> slices db)
    (set_database_store (<[a := db1]> (database_store w))
       (set_frame_store (frame_store w ++ [{| frame_name := name |}]) w)).

(** the heap after [addSlice] on the database at [a], whose record was [db] *)
Definition after_addSlice (a : nat) (db : Database) (i : Z)
    (w : World) : World :=
  let slice := Some (length (slice_store w)) in
  let db1 := set_slices (slices db ++ [slice]) db in
  with_fsis a db1 ((λ frame, (frame, slice)) <$> frames db)
    (set_database_store (<[a := db1]> (database_store w))
       (set_slice_store (slice_store w ++ [{| slice_id := i |}]) w)).

(** a database as [addDatabase] creates it *)
Definition new_database (name : string) : Database :=
  {| Name := name; frames := []; slices := [];
     frame_slice_intersects := [] |}.

(** calls that register frames and slices *)
Inductive Call : Type :=
  | CallGetOrCreateFrame (name : string)
  | CallGetOrCreateSlice (slice_id' : Z).

Definition run_call (d : ptr) (c : Call) : M ptr :=
  match c with
  | CallGetOrCreateFrame name => GetOrCreateFrame d name
  | CallGetOrCreateSlice i => GetOrCreateSlice d i
  end.

Definition run_calls (d : ptr) (cs : list Call) : M unit :=
  range_do cs (λ c, _ <- run_call d c ;; ret ()).

(** the invariant of the database at address [a]: its frame and slice
    pointers are live and pairwise distinct, and the pairs joined by its
    FSIs are, without repetition, the pairs of one of its frames and one of
    its slices *)
Definition db_inv (a : nat) (w : World) : Prop :=
  ∃ db ps,
    database_store w !! a = Some db
    ∧ Forall (λ p, is_Some (deref (frame_store w) p)) (frames db)
    ∧ Forall (λ p, is_Some (deref (slice_store w) p)) (slices db)
    ∧ NoDup (frames db) ∧ NoDup (slices db)
    ∧ pair_of w <$> frame_slice_intersects db = Some <$> ps
    ∧ NoDup ps
    ∧ ∀ f s, (f, s) ∈ ps ↔ f ∈ frames db ∧ s ∈ slices db.

(** the FSI record after [AddFragment] of the fragment [fr] at [fragment] *)
Definition added_fragment (fs : FrameSliceIntersect) (c : Consistent)
    (fragment : ptr) (fr : Fragment) : FrameSliceIntersect :=
  {| fsi_frame := fsi_frame fs; fsi_slice := fsi_slice fs;
     fsi_fragments := fsi_fragments fs ++ [fragment];
     fsi_hashring := Some (Add (SUUID_to_Hex (fragment_id fr)) c) |}.

(** the heap after [addFragment] put a new fragment [i] into the FSI at
    [q], whose record was [fs] and whose ring was [c] *)
Definition after_addFragment (q : nat) (fs : FrameSliceIntersect)
    (c : Consistent) (i : SUUID) (w : World) : World :=
  let fr := {| fragment_id := i; fragment_process := None |} in
  set_fsi_store
    (<[q := added_fragment fs c (Some (length (fragment_store w))) fr]>
       (fsi_store w))
    (set_fragment_store (fragment_store w ++ [fr]) w).

(** a computation whose every returning run relates the heap before to the
    heap after by [R] *)
Definition respects {A} (R : World → World → Prop) (m : M A) : Prop :=
  ∀ w r w', m w = Ret r w' → R w w'.

(** every fragment of the first heap is, unchanged, in the second *)
Definition keeps_fragments (w w' : World) : Prop :=
  fragment_store w `prefix_of` fragment_store w'.

(** the hex-encoded identifiers of a list of fragments *)
Definition fragment_hexes (w : World) (l : list ptr) : list string :=
  omap (λ p, (λ fr, SUUID_to_Hex (fragment_id fr))
               <$> deref (fragment_store w) p) l.

(** an FSI pointer is live, its FSI has a ring and holds live fragments *)
Definition fsi_live (w : World) (q : ptr) : Prop :=
  ∃ fs,
    deref (fsi_store w) q = Some fs
    ∧ is_Some (fsi_hashring fs)
    ∧ Forall (λ p, is_Some (deref (fragment_store w) p)) (fsi_fragments fs).

(** what routing needs of the database at [a]: its frame and slice pointers
    and its FSIs are live *)
Definition routing_wf (a : nat) (w : World) : Prop :=
  ∃ db,
    database_store w !! a = Some db
    ∧ Forall (λ p, is_Some (deref (frame_store w) p)) (frames db)
    ∧ Forall (λ p, is_Some (deref (slice_store w) p)) (slices db)
    ∧ Forall (fsi_live w) (frame_slice_intersects db).

(** the calls that build up a database *)
Inductive Build : Type :=
  | BuildFrame (name : string)
  | BuildSlice (slice_id' : Z)
  | BuildFragment (frame slice : ptr) (fragment_id' : SUUID).

Definition run_build (d : ptr) (b : Build) : M ptr :=
  match b with
  | BuildFrame name => GetOrCreateFrame d name
  | BuildSlice i => GetOrCreateSlice d i
  | BuildFragment frame slice i => GetOrCreateFragment d frame slice i
  end.

Definition run_builds (d : ptr) (bs : list Build) : M unit :=
  range_do bs (λ b, _ <- run_build d b ;; ret ()).

(** the end-to-end scenario with one fragment *)
Definition single_fragment_scenario (d : ptr) (fragId1 : SUUID)
    (bitmap : Bitmap) : M (ptr * (ptr * option error)) :=
  frame <- GetOrCreateFrame d "default" ;;
  slice <- GetOrCreateSlice d 0 ;;
  fragment <- GetOrCreateFragment d frame slice fragId1 ;;
  r <- GetFragmentForBitmap d slice bitmap ;;
  ret (fragment, r).

(** the calls of the package other than [SetProcess] *)
Inductive Request : Type :=
  | ReqNewProcess (id : option GUID)
  | ReqProcessId (self : ptr)
  | ReqHost (self : ptr)
  | ReqSetHost (self : ptr) (host : string)
  | ReqPortTcp (self : ptr)
  | ReqSetPortTcp (self : ptr) (port : Z)
  | ReqPortHttp (self : ptr)
  | ReqSetPortHttp (self : ptr) (port : Z)
  | ReqNewCluster
  | ReqGetDatabases (c : ptr)
  | ReqGetOrCreateDatabase (c : ptr) (name : string)
  | ReqGetFrameSliceIntersects (d : ptr)
  | ReqNumSlices (d : ptr)
  | ReqGetOrCreateFrame (d : ptr) (name : string)
  | ReqSliceId (slice : ptr)
  | ReqGetOrCreateSlice (d : ptr) (slice_id' : Z)
  | ReqAddFrameSliceIntersect (d frame slice : ptr)
  | ReqGetFrameSliceIntersect (d frame slice : ptr)
  | ReqGetFragments (fsi : ptr)
  | ReqGetFragment (fsi : ptr) (fragment_id' : SUUID)
  | ReqAddFragment (fsi fragment : ptr)
  | ReqGetId (fragment : ptr)
  | ReqGetProcess (fragment : ptr)
  | ReqGetProcessId (fragment : ptr)
  | ReqGetLocation (fragment : ptr)
  | ReqGetFragmentForBitmap (d slice : ptr) (bitmap : Bitmap)
  | ReqGetFragmentForFrameSlice (d frame slice : ptr)
  | ReqGetOrCreateFragment (d frame slice : ptr) (fragment_id' : SUUID)
  | ReqGetSliceForProfile (d : ptr) (profile_id : Z).

Definition run_request (req : Request) : M unit :=
  match req with
  | ReqNewProcess id => _ <- NewProcess id ;; ret ()
  | ReqProcessId self => _ <- Process_Id self ;; ret ()
  | ReqHost self => _ <- Host self ;; ret ()
  | ReqSetHost self host => SetHost self host
  | ReqPortTcp self => _ <- PortTcp self ;; ret ()
  | ReqSetPortTcp self port => SetPortTcp self port
  | ReqPortHttp self => _ <- PortHttp self ;; ret ()
  | ReqSetPortHttp self port => SetPortHttp self port
  | ReqNewCluster => _ <- NewCluster ;; ret ()
  | ReqGetDatabases c => _ <- GetDatabases c ;; ret ()
  | ReqGetOrCreateDatabase c name => _ <- GetOrCreateDatabase c name ;; ret ()
  | ReqGetFrameSliceIntersects d => _ <- GetFrameSliceIntersects d ;; ret ()
  | ReqNumSlices d => _ <- NumSlices d ;; ret ()
  | ReqGetOrCreateFrame d name => _ <- GetOrCreateFrame d name ;; ret ()
  | ReqSliceId slice => _ <- Slice_Id slice ;; ret ()
  | ReqGetOrCreateSlice d i => _ <- GetOrCreateSlice d i ;; ret ()
  | ReqAddFrameSliceIntersect d frame slice =>
      _ <- AddFrameSliceIntersect d frame slice ;; ret ()
  | ReqGetFrameSliceIntersect d frame slice =>
      _ <- GetFrameSliceIntersect d frame slice ;; ret ()
  | ReqGetFragments fsi => _ <- GetFragments fsi ;; ret ()
  | ReqGetFragment fsi i => _ <- GetFragment fsi i ;; ret ()
  | ReqAddFragment fsi fragment => AddFragment fsi fragment
  | ReqGetId fragment => _ <- GetId fragment ;; ret ()
  | ReqGetProcess fragment => _ <- GetProcess fragment ;; ret ()
  | ReqGetProcessId fragment => _ <- GetProcessId fragment ;; ret ()
  | ReqGetLocation fragment => _ <- GetLocation fragment ;; ret ()
  | ReqGetFragmentForBitmap d slice bitmap =>
      _ <- GetFragmentForBitmap d slice bitmap ;; ret ()
  | ReqGetFragmentForFrameSlice d frame slice =>
      _ <- GetFragmentForFrameSlice d frame slice ;; ret ()
  | ReqGetOrCreateFragment d frame slice i =>
      _ <- GetOrCreateFragment d frame slice i ;; ret ()
  | ReqGetSliceForProfile d profile_id =>
      _ <- GetSliceForProfile d profile_id ;; ret ()
  end.

(** ** What the get-or-create calls register *)

(** the shape the searches of topology.go share: the pointer whose object
    has the key looked for *)
Definition key_hit {A K} `{EqDecision K} (store : list A) (key : A → K)
    (k : K) (p : ptr) : option (ptr * option error) :=
  match deref store p with
  | Some x => if decide (key x = k) then Some (p, None) else None
  | None => None
  end.

(** the ids of the slices a database holds *)
Definition slice_ids (w : World) (db : Database) : list (option Z) :=
  (λ p, slice_id <$> deref (slice_store w) p) <$> slices db.

(** the list of frame names after a request for [name]: a name of the
    allow-list that is there already is found, every other name is added *)
Definition register_frame (names : list string) (name : string)
  : list string :=
  if IsValidFrame None name && bool_decide (name ∈ names)
  then names else names ++ [name].

(** the list of slice ids after a request for [i] *)
Definition register_slice (ids : list Z) (i : Z) : list Z :=
  if bool_decide (i ∈ ids) then ids else ids ++ [i].

Definition build_frames (names : list string) (b : Build) : list string :=
  match b with
  | BuildFrame name => register_frame names name
  | _ => names
  end.

Definition build_slices (ids : list Z) (b : Build) : list Z :=
  match b with
  | BuildSlice i => register_slice ids i
  | _ => ids
  end.

(** the database at [a] holds frames of these names and slices of these
    ids, in this order *)
Definition registered (a : nat) (w : World) (names : list string)
    (ids : list Z) : Prop :=
  ∃ db,
    database_store w !! a = Some db
    ∧ frame_names w db = Some <$> names
    ∧ slice_ids w db = Some <$> ids.

(** the second heap has the database, frame and slice stores of the first *)
Definition same_registry (w w' : World) : Prop :=
  database_store w' = database_store w
  ∧ frame_store w' = frame_store w
  ∧ slice_store w' = slice_store w.


(** ** What routing relies on *)

(** the ids of the fragments an FSI holds *)
Definition fragment_ids (w : World) (fs : FrameSliceIntersect)
  : list (option SUUID) :=
  (λ p, fragment_id <$> deref (fragment_store w) p) <$> fsi_fragments fs.

(** the FSI at [q] holds live fragments of pairwise distinct ids, all of
    them in [P], and its ring has 16 positions per member, the hex-encoded
    ids as its members, sorted hashes that are those of its circle,
    positions that all belong to one of the fragments, and at least one
    position once there is a fragment *)
Definition fsi_routes (P : SUUID → Prop) (w : World) (q : ptr) : Prop :=
  ∃ fs c ids,
    deref (fsi_store w) q = Some fs
    ∧ fsi_hashring fs = Some c
    ∧ fragment_ids w fs = Some <$> ids
    ∧ NoDup ids
    ∧ Forall P ids
    ∧ NumberOfReplicas c = 16
    ∧ members c = list_to_set (SUUID_to_Hex <$> ids)
    ∧ sortedHashes c = updateSortedHashes (circle c)
    ∧ (∀ k v, circle c !! k = Some v → v ∈ SUUID_to_Hex <$> ids)
    ∧ (ids ≠ [] → circle c ≠ ∅).

Definition routes (P : SUUID → Prop) (a : nat) (w : World) : Prop :=
  ∃ db,
    database_store w !! a = Some db
    ∧ Forall (fsi_routes P w) (frame_slice_intersects db).

(** the fragment id of a call, if it has one, is in [P] *)
Definition build_in (P : SUUID → Prop) (b : Build) : Prop :=
  match b with
  | BuildFragment _ _ i => P i
  | _ => True
  end.

(** an id that survives the hex encoding and decoding *)
Definition round_trip (i : SUUID) : Prop :=
  Hex_to_SUUID (SUUID_to_Hex i) = i.


(** ** The registry of a cluster *)

(** the registry of the cluster at [c], empty for a nil map *)
Definition registry (w : World) (c : nat) : gmap string ptr :=
  match cluster_store w !! c with
  | Some cl => default ∅ (databases cl)
  | None => ∅
  end.

(** one GetOrCreateDatabase call per name *)
Definition run_databases (c : ptr) (names : list string) : M unit :=
  range_do names (λ name, _ <- GetOrCreateDatabase c name ;; ret ()).

(** the three setters of a process, one after the other *)
Definition configure_process (p : ptr) (host : string) (tcp http : Z)
  : M unit :=
  SetHost p host ;;; SetPortTcp p tcp ;;; SetPortHttp p http.


End observations.

(** ** Sample heaps for the closed examples *)

Section samples.
#[local] Existing Instance sample_externals.

(** a heap that holds one newly created database, at address 0 *)
Definition sample_world : World :=
  set_database_store [new_database "d"] empty_world.

(** a heap that holds one cluster with an empty registry, at address 0 *)
Definition sample_cluster_world : World :=
  set_cluster_store [{| databases := Some ∅ |}] empty_world.

(** a heap with a database of one frame, one slice and their FSI, two
    fragments not yet added to it, the first of them with a process *)
Definition sample_built_world : World :=
  {| frame_store := [{| frame_name := "default" |}];
     slice_store := [{| slice_id := 0 |}];
     fsi_store := [fresh_fsi (Some 0%nat) (Some 0%nat)];
     fragment_store :=
       [{| fragment_id := 2748%N; fragment_process := None |};
        {| fragment_id := 51966%N; fragment_process := None |}];
     process_store :=
       [{| process_id := Some 7%N; process_host := "localhost";
           process_port_tcp := 12000; process_port_http := 15000 |}];
     database_store :=
       [{| Name := "d"; frames := [Some 0%nat]; slices := [Some 0%nat];
           frame_slice_intersects := [Some 0%nat] |}];
     cluster_store := [] |}.

Definition sample_database : Database :=
  {| Name := "d"; frames := [Some 0%nat]; slices := [Some 0%nat];
     frame_slice_intersects := [Some 0%nat] |}.

Definition sample_calls : list Call :=
  [CallGetOrCreateFrame "default"; CallGetOrCreateSlice 0;
   CallGetOrCreateFrame "other"; CallGetOrCreateSlice 7;
   CallGetOrCreateFrame "default"].

Definition sample_builds : list Build :=
  [BuildFrame "default"; BuildSlice 0;
   BuildFragment (Some 0%nat) (Some 0%nat) 2748%N;
   BuildFragment (Some 0%nat) (Some 0%nat) 51966%N].

Definition sample_bitmap : Bitmap :=
  {| Id := 42; FrameType := "default"; Filter := 0 |}.

End samples.

(** * Proofs *)

Section proofs.
Context `{Externals}.

Lemma lookup_snoc_here {A} (l : list A) (x : A) :
  (l ++ [x]) !! length l = Some x.
Proof. by apply list_lookup_middle. Qed.

Lemma insert_snoc_here {A} (l : list A) (x y : A) :
  <[length l := y]> (l ++ [x]) = l ++ [y].
Proof.
  rewrite insert_app_r_alt by lia.
  by replace (length l - length l)%nat with 0%nat by lia.
Qed.

Lemma bind_Ret {A B} (m : M A) (k : A → M B) w a w' :
  m w = Ret a w' → bind m k w = k a w'.
Proof. unfold bind. by intros ->. Qed.

Lemma load_Some {A} (store : World → list A) a v w :
  store w !! a = Some v → load store (Some a) w = Ret v w.
Proof. unfold load. by intros ->. Qed.

(** a loop whose body only reads is the search it performs *)
Lemma range_find_reads {A R} (l : list A) (body : A → M (option R))
    (g : A → option R) w :
  (∀ x, x ∈ l → body x w = Ret (g x) w) →
  range_find l body w = Ret (first_some g l) w.
Proof.
  induction l as [|x l IH]; intros Hbody; simpl; [done|].
  rewrite (bind_Ret _ _ _ _ _ (Hbody x ltac:(left))).
  destruct (g x); [done|].
  apply IH. intros y Hy. apply Hbody. by right.
Qed.

Lemma world_eta (w : World) :
  set_database_store (database_store w) (set_fsi_store (fsi_store w) w) = w.
Proof. by destruct w. Qed.

Lemma with_fsis_nil a db w :
  database_store w !! a = Some db → with_fsis a db [] w = w.
Proof.
  intros Hdb. unfold with_fsis. simpl. rewrite !app_nil_r.
  replace (set_frame_slice_intersects (frame_slice_intersects db) db)
    with db by (by destruct db).
  rewrite list_insert_id by done. apply world_eta.
Qed.

Lemma with_fsis_cons a db pr prs w :
  with_fsis a
    (set_frame_slice_intersects
       (frame_slice_intersects db ++ [Some (length (fsi_store w))]) db)
    prs (with_fsis a db [pr] w)
  = with_fsis a db (pr :: prs) w.
Proof.
  unfold with_fsis, set_database_store, set_fsi_store,
    set_frame_slice_intersects. simpl.
  rewrite list_insert_insert_eq, length_app, <- !app_assoc. simpl.
  by replace (length (fsi_store w) + 1)%nat with (S (length (fsi_store w)))
    by lia.
Qed.

Lemma AddFrameSliceIntersect_run a db frame slice w :
  database_store w !! a = Some db →
  AddFrameSliceIntersect (Some a) frame slice w
  = Ret (Some (length (fsi_store w))) (with_fsis a db [(frame, slice)] w).
Proof.
  intros Hdb.
  unfold AddFrameSliceIntersect, bind, alloc, load_Database, load,
    store_Database, store_at, load_FSI, store_FSI, ret. simpl.
  repeat (first [rewrite Hdb | rewrite lookup_snoc_here
                 | rewrite insert_snoc_here]; simpl).
  done.
Qed.

Lemma add_fsis_loop {A} (mk : A → ptr * ptr) a (l : list A) : ∀ db w,
  database_store w !! a = Some db →
  range_do l (λ x, _ <- AddFrameSliceIntersect (Some a) (mk x).1 (mk x).2 ;;
                   ret ()) w
  = Ret () (with_fsis a db (mk <$> l) w).
Proof.
  induction l as [|x l IH]; intros db w Hdb; simpl.
  - by rewrite with_fsis_nil.
  - unfold bind at 1. unfold bind at 1.
    rewrite (AddFrameSliceIntersect_run _ _ _ _ _ Hdb). unfold ret at 1.
    erewrite IH.
    + by rewrite <- surjective_pairing, with_fsis_cons.
    + simpl. apply list_lookup_insert_eq. by eapply lookup_lt_Some.
Qed.

Lemma addFrame_run a db name w :
  database_store w !! a = Some db →
  addFrame (Some a) name w
  = Ret (Some (length (frame_store w))) (after_addFrame a db name w).
Proof.
  intros Hdb. pose proof (lookup_lt_Some _ _ _ Hdb) as Hlt.
  unfold addFrame, alloc, load_Database, store_Database, store_at.
  unfold bind at 1. unfold bind at 1. unfold load at 1. simpl. rewrite Hdb.
  unfold bind at 1. simpl. rewrite Hdb.
  unfold bind at 1. unfold load at 1. simpl.
  rewrite list_lookup_insert_eq by done.
  unfold bind at 1.
  erewrite (add_fsis_loop (λ slice, (Some (length (frame_store w)), slice)));
    [done|].
  simpl. by apply list_lookup_insert_eq.
Qed.

Lemma addSlice_run a db i w :
  database_store w !! a = Some db →
  addSlice (Some a) i w
  = Ret (Some (length (slice_store w))) (after_addSlice a db i w).
Proof.
  intros Hdb. pose proof (lookup_lt_Some _ _ _ Hdb) as Hlt.
  unfold addSlice, alloc, load_Database, store_Database, store_at.
  unfold bind at 1. unfold bind at 1. unfold load at 1. simpl. rewrite Hdb.
  unfold bind at 1. simpl. rewrite Hdb.
  unfold bind at 1. unfold load at 1. simpl.
  rewrite list_lookup_insert_eq by done.
  unfold bind at 1.
  erewrite (add_fsis_loop (λ frame, (frame, Some (length (slice_store w)))));
    [done|].
  simpl. by apply list_lookup_insert_eq.
Qed.

Lemma getFrame_run a db name w :
  database_store w !! a = Some db →
  Forall (λ p, is_Some (deref (frame_store w) p)) (frames db) →
  getFrame (Some a) name w
  = Ret (if negb (IsValidFrame (Some a) name)
         then (None, Some InvalidFrameError)
         else match first_some (frame_hit w name) (frames db) with
              | Some found => found
              | None => (None, Some FrameDoesNotExistError)
              end) w.
Proof.
  intros Hdb Hval. unfold getFrame.
  destruct (negb (IsValidFrame (Some a) name)); [done|].
  unfold load_Database.
  rewrite (bind_Ret _ _ _ _ _ (load_Some _ _ _ _ Hdb)).
  erewrite bind_Ret; last first.
  { apply (range_find_reads _ _ (frame_hit w name)).
    intros p Hp. rewrite Forall_forall in Hval.
    destruct (Hval p Hp) as [f Hf]. unfold frame_hit. rewrite Hf.
    destruct p as [i|]; [|done]. unfold load_Frame.
    rewrite (bind_Ret _ _ _ _ _ (load_Some frame_store _ _ _ Hf)).
    by destruct (decide (frame_name f = name)). }
  by destruct (first_some _ _).
Qed.

Lemma getSlice_run a db i w :
  database_store w !! a = Some db →
  Forall (λ p, is_Some (deref (slice_store w) p)) (slices db) →
  getSlice (Some a) i w
  = Ret (match first_some (slice_hit w i) (slices db) with
         | Some found => found
         | None => (None, Some SliceDoesNotExistError)
         end) w.
Proof.
  intros Hdb Hval. unfold getSlice, load_Database.
  rewrite (bind_Ret _ _ _ _ _ (load_Some _ _ _ _ Hdb)).
  erewrite bind_Ret; last first.
  { apply (range_find_reads _ _ (slice_hit w i)).
    intros p Hp. rewrite Forall_forall in Hval.
    destruct (Hval p Hp) as [s Hs]. unfold slice_hit. rewrite Hs.
    destruct p as [j|]; [|done]. unfold load_Slice.
    rewrite (bind_Ret _ _ _ _ _ (load_Some slice_store _ _ _ Hs)).
    by destruct (decide (slice_id s = i)). }
  by destruct (first_some _ _).
Qed.

Lemma GetFrameSliceIntersect_run a db frame slice w :
  database_store w !! a = Some db →
  Forall (λ q, is_Some (deref (fsi_store w) q)) (frame_slice_intersects db) →
  GetFrameSliceIntersect (Some a) frame slice w
  = Ret (match first_some (fsi_hit w frame slice) (frame_slice_intersects db)
         with
         | Some found => found
         | None => (None, Some FrameSliceIntersectDoesNotExistError)
         end) w.
Proof.
  intros Hdb Hval. unfold GetFrameSliceIntersect, load_Database.
  rewrite (bind_Ret _ _ _ _ _ (load_Some _ _ _ _ Hdb)).
  erewrite bind_Ret; last first.
  { apply (range_find_reads _ _ (fsi_hit w frame slice)).
    intros q Hq. rewrite Forall_forall in Hval.
    destruct (Hval q Hq) as [fs Hfs]. unfold fsi_hit. rewrite Hfs.
    destruct q as [j|]; [|done]. unfold load_FSI.
    rewrite (bind_Ret _ _ _ _ _ (load_Some fsi_store _ _ _ Hfs)).
    by destruct (decide (fsi_frame fs = frame ∧ fsi_slice fs = slice)). }
  by destruct (first_some _ _).
Qed.

(** *** Counting and searching in lists *)

Lemma count_eq_fmap {A B} `{EqDecision B} (g : A → B) (y : B) (l : list A) :
  length (List.filter (λ x, bool_decide (g x = y)) l)
  = length (List.filter (λ o, bool_decide (o = y)) (g <$> l)).
Proof.
  induction l as [|x l IH]; simpl; [done|].
  destruct (bool_decide (g x = y)); simpl; by rewrite IH.
Qed.

Lemma count_eq_absent {B} `{EqDecision B} (y : B) (l : list B) :
  y ∉ l → List.filter (λ o, bool_decide (o = y)) l = [].
Proof.
  induction l as [|x l IH]; intros Hy; simpl; [done|].
  rewrite not_elem_of_cons in Hy. destruct Hy as [Hne Hy].
  rewrite bool_decide_eq_false_2 by done. by apply IH.
Qed.

Lemma count_eq_NoDup {B} `{EqDecision B} (y : B) (l : list B) :
  NoDup l → y ∈ l → length (List.filter (λ o, bool_decide (o = y)) l) = 1%nat.
Proof.
  induction 1 as [|x l Hx Hl IH]; intros Hy; [by apply elem_of_nil in Hy|].
  simpl. destruct (decide (x = y)) as [->|Hne].
  - rewrite bool_decide_eq_true_2 by done. simpl.
    by rewrite count_eq_absent.
  - rewrite bool_decide_eq_false_2 by done. apply IH.
    apply elem_of_cons in Hy as [Hy|Hy]; [congruence|done].
Qed.

Lemma first_some_fsi_hit w frame slice (l : list ptr) q0 :
  q0 ∈ l → pair_of w q0 = Some (frame, slice) →
  ∃ q, first_some (fsi_hit w frame slice) l = Some (q, None)
       ∧ q ∈ l ∧ pair_of w q = Some (frame, slice).
Proof.
  induction l as [|q l IH]; intros Hin Hq0; [by apply elem_of_nil in Hin|].
  simpl. destruct (fsi_hit w frame slice q) as [r|] eqn:Hhit.
  - exists q. unfold fsi_hit in Hhit. unfold pair_of.
    destruct (deref (fsi_store w) q) as [fs|]; [|done].
    destruct (decide _) as [[<- <-]|]; [|done].
    inversion Hhit; subst. split; [done|]. split; [left|done].
  - apply elem_of_cons in Hin as [->|Hin].
    + unfold fsi_hit in Hhit. unfold pair_of in Hq0.
      destruct (deref (fsi_store w) q) as [fs|]; [|done].
      inversion Hq0; subst. by rewrite decide_True in Hhit.
    + destruct (IH Hin Hq0) as (q' & ? & ? & ?).
      exists q'. split; [done|]. split; [by right|done].
Qed.

(** *** The invariant and the stores *)

Lemma pair_of_valid w (l : list ptr) ps :
  pair_of w <$> l = Some <$> ps →
  Forall (λ q, is_Some (deref (fsi_store w) q)) l.
Proof.
  intros Heq. apply Forall_forall. intros q Hq.
  apply (list_elem_of_fmap_2 (pair_of w)) in Hq. rewrite Heq in Hq.
  apply list_elem_of_fmap in Hq as (pr & Hpr & _).
  unfold pair_of in Hpr. by destruct (deref (fsi_store w) q).
Qed.

Lemma deref_app {A} (l k : list A) p :
  is_Some (deref l p) → deref (l ++ k) p = deref l p.
Proof.
  destruct p as [i|]; simpl; [|by intros []].
  intros [v Hv]. rewrite Hv. by apply lookup_app_l_Some.
Qed.

Lemma deref_app_valid {A} (l k : list A) p :
  is_Some (deref l p) → is_Some (deref (l ++ k) p).
Proof. intros Hv. by rewrite deref_app. Qed.

Lemma deref_fresh {A} (l : list A) :
  deref l (Some (length l)) = None.
Proof. simpl. by apply lookup_ge_None. Qed.

Lemma pair_of_extend w w' (l : list ptr) ps prs :
  pair_of w <$> l = Some <$> ps →
  fsi_store w' = fsi_store w ++ ((λ pr, fresh_fsi pr.1 pr.2) <$> prs) →
  pair_of w' <$> (l ++ (Some <$> seq (length (fsi_store w)) (length prs)))
  = Some <$> (ps ++ prs).
Proof.
  intros Hold Hst. rewrite !fmap_app. f_equal.
  - rewrite <- Hold. apply list_fmap_ext. intros i q Hq.
    pose proof (pair_of_valid _ _ _ Hold) as Hval.
    rewrite Forall_forall in Hval.
    assert (q ∈ l) as Hin by (by eapply list_elem_of_lookup_2).
    unfold pair_of. rewrite Hst. by rewrite deref_app by auto.
  - apply list_eq. intros i. rewrite !list_lookup_fmap.
    destruct (prs !! i) as [pr|] eqn:Hi.
    + rewrite lookup_seq_lt by (by eapply lookup_lt_Some). simpl.
      unfold pair_of. simpl. rewrite Hst.
      rewrite lookup_app_r by lia.
      replace (length (fsi_store w) + i - length (fsi_store w))%nat
        with i by lia.
      rewrite list_lookup_fmap, Hi. simpl. by destruct pr.
    + rewrite lookup_seq_ge; [done|]. by apply lookup_ge_None.
Qed.

Lemma db_inv_addFrame a db name w :
  database_store w !! a = Some db →
  db_inv a w → db_inv a (after_addFrame a db name w).
Proof.
  intros Hdb (db0 & ps & Hdb0 & Hfr & Hsl & Hnf & Hns & Hpairs & Hnd & Hmem).
  assert (db0 = db) as -> by congruence.
  pose proof (lookup_lt_Some _ _ _ Hdb) as Hlt.
  set (frame := Some (length (frame_store w)) : ptr).
  assert (frame ∉ frames db) as Hfresh.
  { intros Hin. rewrite Forall_forall in Hfr.
    destruct (Hfr _ Hin) as [v Hv]. unfold frame in Hv.
    by rewrite deref_fresh in Hv. }
  eexists _, (ps ++ ((λ slice, (frame, slice)) <$> slices db)).
  split.
  { unfold after_addFrame, with_fsis. simpl.
    rewrite list_insert_insert_eq. by apply list_lookup_insert_eq. }
  simpl. split_and!.
  - apply Forall_app. split.
    + eapply Forall_impl; [exact Hfr|]. intros p. apply deref_app_valid.
    + apply Forall_singleton. simpl. rewrite lookup_snoc_here. by eexists.
  - done.
  - apply NoDup_app. split_and!; [done| |apply NoDup_singleton].
    intros p Hp Hp'. apply list_elem_of_singleton in Hp'. by subst.
  - done.
  - by apply (pair_of_extend w).
  - apply NoDup_app. split_and!; [done| |].
    + intros [f s] Hin Hin'. apply list_elem_of_fmap in Hin' as (s' & Heq & _).
      inversion Heq; subst. by apply Hmem in Hin as [? _].
    + apply NoDup_fmap_2; [|done]. by intros s1 s2 [=].
  - intros f s. rewrite !elem_of_app, list_elem_of_fmap, Hmem,
      list_elem_of_singleton. split.
    + intros [[? ?]|(s' & Heq & Hs')]; [by auto|].
      inversion Heq; subst. auto.
    + intros [[Hf| ->] Hs]; [by auto|]. right. by exists s.
Qed.

Lemma db_inv_addSlice a db i w :
  database_store w !! a = Some db →
  db_inv a w → db_inv a (after_addSlice a db i w).
Proof.
  intros Hdb (db0 & ps & Hdb0 & Hfr & Hsl & Hnf & Hns & Hpairs & Hnd & Hmem).
  assert (db0 = db) as -> by congruence.
  pose proof (lookup_lt_Some _ _ _ Hdb) as Hlt.
  set (slice := Some (length (slice_store w)) : ptr).
  assert (slice ∉ slices db) as Hfresh.
  { intros Hin. rewrite Forall_forall in Hsl.
    destruct (Hsl _ Hin) as [v Hv]. unfold slice in Hv.
    by rewrite deref_fresh in Hv. }
  eexists _, (ps ++ ((λ frame, (frame, slice)) <$> frames db)).
  split.
  { unfold after_addSlice, with_fsis. simpl.
    rewrite list_insert_insert_eq. by apply list_lookup_insert_eq. }
  simpl. split_and!.
  - done.
  - apply Forall_app. split.
    + eapply Forall_impl; [exact Hsl|]. intros p. apply deref_app_valid.
    + apply Forall_singleton. simpl. rewrite lookup_snoc_here. by eexists.
  - done.
  - apply NoDup_app. split_and!; [done| |apply NoDup_singleton].
    intros p Hp Hp'. apply list_elem_of_singleton in Hp'. by subst.
  - by apply (pair_of_extend w).
  - apply NoDup_app. split_and!; [done| |].
    + intros [f s] Hin Hin'. apply list_elem_of_fmap in Hin' as (f' & Heq & _).
      inversion Heq; subst. by apply Hmem in Hin as [_ ?].
    + apply NoDup_fmap_2; [|done]. by intros f1 f2 [=].
  - intros f s. rewrite !elem_of_app, list_elem_of_fmap, Hmem,
      list_elem_of_singleton. split.
    + intros [[? ?]|(f' & Heq & Hf')]; [by auto|].
      inversion Heq; subst. auto.
    + intros [Hf [Hs| ->]]; [by auto|]. right. by exists f.
Qed.

Lemma db_inv_new a name w :
  database_store w !! a = Some (new_database name) → db_inv a w.
Proof.
  intros Hdb. exists (new_database name), []. simpl.
  split_and!; try done; try apply NoDup_nil_2.
  intros f s. split; [by intros ?%elem_of_nil|by intros [?%elem_of_nil _]].
Qed.

Lemma GetOrCreateFrame_inv a name w :
  db_inv a w →
  ∃ p w', GetOrCreateFrame (Some a) name w = Ret p w' ∧ db_inv a w'.
Proof.
  intros Hinv.
  destruct Hinv as (db & ps & Hdb & Hfr & Hrest) eqn:Hdestr. clear Hdestr.
  unfold GetOrCreateFrame.
  rewrite (bind_Ret _ _ _ _ _ (getFrame_run _ _ name _ Hdb Hfr)).
  destruct (if negb _ then _ else _) as [p [e|]]; simpl.
  - rewrite (addFrame_run _ _ _ _ Hdb). eexists _, _. split; [done|].
    by apply db_inv_addFrame.
  - by eexists _, _.
Qed.

Lemma GetOrCreateSlice_inv a i w :
  db_inv a w →
  ∃ p w', GetOrCreateSlice (Some a) i w = Ret p w' ∧ db_inv a w'.
Proof.
  intros Hinv.
  destruct Hinv as (db & ps & Hdb & Hfr & Hsl & Hrest) eqn:Hdestr.
  clear Hdestr. unfold GetOrCreateSlice.
  rewrite (bind_Ret _ _ _ _ _ (getSlice_run _ _ i _ Hdb Hsl)).
  destruct (match first_some _ _ with Some _ => _ | None => _ end)
    as [p [e|]]; simpl.
  - rewrite (addSlice_run _ _ _ _ Hdb). eexists _, _. split; [done|].
    by apply db_inv_addSlice.
  - by eexists _, _.
Qed.

Lemma run_calls_inv a (cs : list Call) : ∀ w,
  db_inv a w → ∃ w', run_calls (Some a) cs w = Ret () w' ∧ db_inv a w'.
Proof.
  unfold run_calls.
  induction cs as [|c cs IH]; intros w Hinv; simpl; [by exists w|].
  assert (∃ p w1, run_call (Some a) c w = Ret p w1 ∧ db_inv a w1)
    as (p & w1 & Hrun & Hinv1).
  { destruct c; simpl;
      [by apply GetOrCreateFrame_inv | by apply GetOrCreateSlice_inv]. }
  unfold bind at 1. unfold bind at 1. rewrite Hrun. unfold ret at 1.
  by apply IH.
Qed.

Lemma db_inv_cross_product a w db frame slice :
  db_inv a w → database_store w !! a = Some db →
  frame ∈ frames db → slice ∈ slices db →
  (∃ q, GetFrameSliceIntersect (Some a) frame slice w = Ret (q, None) w
        ∧ q ∈ frame_slice_intersects db
        ∧ pair_of w q = Some (frame, slice))
  ∧ fsi_count w db frame slice = 1%nat.
Proof.
  intros (db0 & ps & Hdb0 & _ & _ & _ & _ & Hpairs & Hnd & Hmem) Hdb Hf Hs.
  assert (db0 = db) as -> by congruence.
  assert ((frame, slice) ∈ ps) as Hin by (by apply Hmem).
  split.
  - rewrite (GetFrameSliceIntersect_run _ _ _ _ _ Hdb
               (pair_of_valid _ _ _ Hpairs)).
    apply (list_elem_of_fmap_2 Some) in Hin. rewrite <- Hpairs in Hin.
    apply list_elem_of_fmap in Hin as (q0 & Hq0 & Hq0in).
    destruct (first_some_fsi_hit w frame slice _ q0 Hq0in (eq_sym Hq0))
      as (q & -> & Hqin & Hq).
    by exists q.
  - unfold fsi_count.
    rewrite (count_eq_fmap (pair_of w) (Some (frame, slice))), Hpairs.
    apply count_eq_NoDup.
    + apply NoDup_fmap_2; [|done]. by intros ?? [=].
    + by apply list_elem_of_fmap_2.
Qed.

(** C2. Cross-product invariant: from a newly created Database, any sequence of
    GetOrCreateFrame and GetOrCreateSlice calls runs to its end, and in the
    heap it leaves, for every frame and every slice of the Database,
    GetFrameSliceIntersect succeeds, returns an FSI of the Database joining
    that frame and that slice, and exactly one FSI of the Database joins
    them.  A prefix of a sequence is a sequence, so this holds after each
    call. *)
Theorem cross_product_invariant (w : World) (a : nat) (name : string)
    (cs : list Call) :
  database_store w !! a = Some (new_database name) →
  ∃ w' db',
    run_calls (Some a) cs w = Ret () w'
    ∧ database_store w' !! a = Some db'
    ∧ ∀ frame slice,
        frame ∈ frames db' → slice ∈ slices db' →
        (∃ q, GetFrameSliceIntersect (Some a) frame slice w'
              = Ret (q, None) w'
              ∧ q ∈ frame_slice_intersects db'
              ∧ pair_of w' q = Some (frame, slice))
        ∧ fsi_count w' db' frame slice = 1%nat.
Proof.
  intros Hnew.
  destruct (run_calls_inv a cs w (db_inv_new _ _ _ Hnew)) as (w' & Hrun & Hinv).
  destruct Hinv as (db' & ps & Hdb' & Hrest) eqn:Hinv'. clear Hinv'.
  exists w', db'. split; [done|]. split; [done|].
  intros frame slice Hf Hs. by apply (db_inv_cross_product a).
Qed.

(** *** Frames outside the allow-list *)

Lemma after_addFrame_database a db name w :
  database_store w !! a = Some db →
  database_store (after_addFrame a db name w) !! a
  = Some {| Name := Name db;
            frames := frames db ++ [Some (length (frame_store w))];
            slices := slices db;
            frame_slice_intersects :=
              frame_slice_intersects db
              ++ (Some <$> seq (length (fsi_store w)) (length (slices db))) |}.
Proof.
  intros Hdb. pose proof (lookup_lt_Some _ _ _ Hdb) as Hlt.
  unfold after_addFrame, with_fsis. simpl.
  rewrite list_insert_insert_eq, list_lookup_insert_eq by done.
  by rewrite length_fmap.
Qed.

Lemma after_addFrame_fsi_store a db name w :
  fsi_store (after_addFrame a db name w)
  = fsi_store w
    ++ (fresh_fsi (Some (length (frame_store w))) <$> slices db).
Proof.
  unfold after_addFrame, with_fsis. simpl.
  by rewrite <- list_fmap_compose.
Qed.

Lemma GetOrCreateFrame_invalid_run a db name w :
  database_store w !! a = Some db →
  IsValidFrame (Some a) name = false →
  GetOrCreateFrame (Some a) name w
  = Ret (Some (length (frame_store w))) (after_addFrame a db name w).
Proof.
  intros Hdb Hinvalid. unfold GetOrCreateFrame, getFrame.
  rewrite Hinvalid. simpl. unfold bind at 1. unfold ret at 1. simpl.
  by apply addFrame_run.
Qed.

(** C10. For a name outside the allow-list, GetOrCreateFrame rejects nothing:
    the lookup answers InvalidFrame before it reads the frame list, so the
    call appends a fresh Frame of that name and one fresh FSI per existing
    Slice; a second call with the same name does the same, the two calls
    return distinct Frames, and the Database then holds two Frames of one
    name. *)
Theorem invalid_frame_is_appended_twice (w : World) (a : nat) (db : Database)
    (name : string) :
  database_store w !! a = Some db →
  IsValidFrame (Some a) name = false →
  let f1 : ptr := Some (length (frame_store w)) in
  let f2 : ptr := Some (S (length (frame_store w))) in
  ∃ w1 db1 w2 db2,
    getFrame (Some a) name w = Ret (None, Some InvalidFrameError) w
    ∧ GetOrCreateFrame (Some a) name w = Ret f1 w1
    ∧ deref (frame_store w) f1 = None
    ∧ database_store w1 !! a = Some db1
    ∧ frames db1 = frames db ++ [f1]
    ∧ frame_slice_intersects db1
      = frame_slice_intersects db
        ++ (Some <$> seq (length (fsi_store w)) (length (slices db)))
    ∧ fsi_store w1 = fsi_store w ++ (fresh_fsi f1 <$> slices db)
    ∧ GetOrCreateFrame (Some a) name w1 = Ret f2 w2
    ∧ f1 ≠ f2
    ∧ database_store w2 !! a = Some db2
    ∧ frames db2 = frames db ++ [f1; f2]
    ∧ frame_name <$> deref (frame_store w2) f1 = Some name
    ∧ frame_name <$> deref (frame_store w2) f2 = Some name.
Proof.
  intros Hdb Hinvalid f1 f2.
  pose proof (after_addFrame_database a db name w Hdb) as Hdb1.
  set (w1 := after_addFrame a db name w) in *.
  pose proof (after_addFrame_database a _ name w1 Hdb1) as Hdb2.
  assert (frame_store w1 = frame_store w ++ [{| frame_name := name |}])
    as Hfs1 by done.
  eexists w1, _, (after_addFrame a _ name w1), _.
  split_and!.
  - unfold getFrame. by rewrite Hinvalid.
  - by apply GetOrCreateFrame_invalid_run.
  - apply deref_fresh.
  - exact Hdb1.
  - done.
  - done.
  - apply after_addFrame_fsi_store.
  - rewrite (GetOrCreateFrame_invalid_run _ _ _ _ Hdb1 Hinvalid).
    f_equal. unfold f2. rewrite ?Hfs1, ?length_app. simpl. f_equal. lia.
  - unfold f1, f2. intros [=]. lia.
  - exact Hdb2.
  - simpl. rewrite <- app_assoc. simpl. unfold f1, f2. do 3 f_equal.
    rewrite ?Hfs1, ?length_app. simpl. f_equal. lia.
  - unfold after_addFrame, with_fsis. simpl. rewrite ?Hfs1.
    rewrite lookup_app_l by (rewrite length_app; simpl; lia).
    by rewrite lookup_snoc_here.
  - unfold after_addFrame, with_fsis. simpl. rewrite ?Hfs1.
    replace (S (length (frame_store w)))
      with (length (frame_store w ++ [{| frame_name := name |}]))
      by (rewrite length_app; simpl; lia).
    by rewrite lookup_snoc_here.
Qed.

(** *** Missing frames *)

Lemma first_some_frame_hit_None w name (l : list ptr) :
  Some name ∉ (λ p, frame_name <$> deref (frame_store w) p) <$> l →
  first_some (frame_hit w name) l = None.
Proof.
  induction l as [|p l IH]; intros Hnot; simpl; [done|].
  rewrite fmap_cons, not_elem_of_cons in Hnot. destruct Hnot as [Hp Hl].
  unfold frame_hit at 1. destruct (deref (frame_store w) p) as [f|]; simpl in *.
  - destruct (decide (frame_name f = name)) as [<-|]; [done|by apply IH].
  - by apply IH.
Qed.

(** C3. Missing-frame propagation: in a Database whose frame pointers are live,
    GetFragmentForBitmap for a bitmap whose frame type is the name of none
    of the Database's frames returns, without a panic, no fragment and the
    error FrameDoesNotExist or InvalidFrame, and leaves the whole heap as it
    was. *)
Theorem missing_frame_propagation (w : World) (a : nat) (db : Database)
    (slice : ptr) (bitmap : Bitmap) :
  database_store w !! a = Some db →
  Forall (λ p, is_Some (deref (frame_store w) p)) (frames db) →
  Some (FrameType bitmap) ∉ frame_names w db →
  ∃ err,
    GetFragmentForBitmap (Some a) slice bitmap w = Ret (None, Some err) w
    ∧ (err = FrameDoesNotExistError ∨ err = InvalidFrameError).
Proof.
  intros Hdb Hval Hnot. unfold GetFragmentForBitmap.
  rewrite (bind_Ret _ _ _ _ _ (getFrame_run _ _ _ _ Hdb Hval)).
  rewrite (first_some_frame_hit_None _ _ _ Hnot).
  destruct (negb (IsValidFrame (Some a) (FrameType bitmap))); simpl;
    unfold load_Database;
    rewrite (bind_Ret _ _ _ _ _ (load_Some database_store _ _ _ Hdb)).
  - exists InvalidFrameError. auto.
  - exists FrameDoesNotExistError. auto.
Qed.

(** *** The cluster's registry *)

(** C7. Get-or-create of Cluster.GetOrCreateDatabase: when a Database is
    registered under the name, the call returns it and changes nothing;
    otherwise it allocates a new empty Database, registers it under the name
    and returns it, touching nothing else; so a second call with the same
    name returns the same Database and changes nothing, and the registry
    has gained at most one entry. *)
Theorem GetOrCreateDatabase_get_or_create (w : World) (c : nat) (cl : Cluster)
    (name : string) :
  cluster_store w !! c = Some cl →
  let m := default ∅ (databases cl) in
  let fresh : ptr := Some (length (database_store w)) in
  (∀ p, m !! name = Some p →
        GetOrCreateDatabase (Some c) name w = Ret p w)
  ∧ (m !! name = None →
     GetOrCreateDatabase (Some c) name w
     = Ret fresh
         (set_cluster_store
            (<[c := {| databases := Some (<[name := fresh]> m) |}]>
               (cluster_store w))
            (set_database_store
               (database_store w ++ [new_database name]) w)))
  ∧ ∃ p w1 cl1,
      GetOrCreateDatabase (Some c) name w = Ret p w1
      ∧ GetOrCreateDatabase (Some c) name w1 = Ret p w1
      ∧ cluster_store w1 !! c = Some cl1
      ∧ default ∅ (databases cl1) !! name = Some p
      ∧ (size (default ∅ (databases cl1)) ≤ S (size m))%nat.
Proof.
  intros Hcl m fresh. pose proof (lookup_lt_Some _ _ _ Hcl) as Hlt.
  assert (∀ p, m !! name = Some p →
               GetOrCreateDatabase (Some c) name w = Ret p w) as Hfound.
  { intros p Hp. unfold GetOrCreateDatabase, getDatabase, load_Cluster.
    unfold bind at 1. rewrite (bind_Ret _ _ _ _ _ (load_Some _ _ _ _ Hcl)).
    unfold m in Hp. by rewrite Hp. }
  assert (m !! name = None →
          GetOrCreateDatabase (Some c) name w
          = Ret fresh
              (set_cluster_store
                 (<[c := {| databases := Some (<[name := fresh]> m) |}]>
                    (cluster_store w))
                 (set_database_store
                    (database_store w ++ [new_database name]) w)))
    as Hnew.
  { intros Hnone. unfold GetOrCreateDatabase, getDatabase, load_Cluster.
    unfold bind at 1. rewrite (bind_Ret _ _ _ _ _ (load_Some _ _ _ _ Hcl)).
    unfold m in *. rewrite Hnone. unfold ret at 1. simpl.
    unfold addDatabase, alloc, store_Cluster, store_at, load_Cluster, load,
      bind, ret, panic. simpl. rewrite Hcl.
    destruct (databases cl) as [m0|] eqn:Hm; simpl;
      repeat (first [ rewrite Hcl | rewrite Hm
                    | rewrite list_lookup_insert_eq by done
                    | rewrite list_insert_insert_eq ]; simpl);
      done. }
  split; [done|]. split; [done|].
  destruct (m !! name) as [p|] eqn:Hlook.
  - exists p, w, cl. rewrite (Hfound p eq_refl).
    split_and!; try done. unfold m. lia.
  - eexists fresh, _, _. rewrite (Hnew eq_refl). split_and!; [done| | | |].
    + unfold GetOrCreateDatabase, getDatabase, load_Cluster.
      unfold bind at 1. erewrite bind_Ret; last first.
      { apply load_Some. simpl. by apply list_lookup_insert_eq. }
      simpl. by rewrite lookup_insert_eq.
    + simpl. by apply list_lookup_insert_eq.
    + simpl. by rewrite lookup_insert_eq.
    + simpl. by rewrite map_size_insert_None.
Qed.

(** *** Slice derivation *)

(** C8. Slice derivation: with SLICE_WIDTH = 1048576, GetSlice of a 64-bit
    unsigned item id is the id divided by SLICE_WIDTH, rounded down; it
    reads no state (it is a function of its argument alone); and the ids 0,
    1048575 and 1048576 fall into the slices 0, 0 and 1. *)
Theorem GetSlice_is_floor_division :
  SLICE_WIDTH = 1048576 →
  (∀ itemId, 0 ≤ itemId < 2 ^ 64 →
             GetSlice itemId = itemId `div` SLICE_WIDTH)
  ∧ GetSlice 0 = 0
  ∧ GetSlice 1048575 = 0
  ∧ GetSlice 1048576 = 1.
Proof.
  intros Hwidth. unfold GetSlice. rewrite Hwidth.
  split; [|by vm_compute].
  intros itemId [Hlo Hhi]. unfold int_of_uint64.
  assert (0 ≤ itemId `div` 1048576 < 2 ^ 44) as [Hq0 Hq1].
  { split; [by apply Z.div_pos|].
    apply Z.div_lt_upper_bound; [done|].
    by replace (1048576 * 2 ^ 44) with (2 ^ 64). }
  rewrite Z.mod_small; [lia|].
  assert (2 ^ 44 < 2 ^ 63) by done. assert (2 ^ 64 = 2 * 2 ^ 63) by done.
  lia.
Qed.

(** *** What a computation does to the heap, by its structure *)

Section respects.
Variable R : World → World → Prop.
Hypothesis R_refl : ∀ w, R w w.
Hypothesis R_trans : ∀ w1 w2 w3, R w1 w2 → R w2 w3 → R w1 w3.

Lemma respects_ret {A} (a : A) : respects R (ret a).
Proof. intros w r w' [= _ <-]. apply R_refl. Qed.

Lemma respects_panic {A} : respects R (@panic _ A).
Proof. by intros w r w'. Qed.

Lemma respects_bind {A B} (m : M A) (k : A → M B) :
  respects R m → (∀ a, respects R (k a)) → respects R (bind m k).
Proof.
  intros Hm Hk w r w'. unfold bind.
  destruct (m w) as [a w1|] eqn:Hrun; [|done].
  intros Hrun'. eapply R_trans; [by eapply Hm|by eapply Hk].
Qed.

Lemma respects_load {A} (store : World → list A) p : respects R (load store p).
Proof.
  intros w r w'. unfold load. destruct p as [a|]; [|done].
  destruct (store w !! a); [|done]. intros [= _ <-]. apply R_refl.
Qed.

Lemma respects_range_find {A B} (l : list A) (body : A → M (option B)) :
  (∀ x, respects R (body x)) → respects R (range_find l body).
Proof.
  intros Hbody. induction l as [|x l IH]; simpl; [apply respects_ret|].
  apply respects_bind; [done|]. intros [v|]; [apply respects_ret|done].
Qed.

Lemma respects_range_do {A} (l : list A) (body : A → M unit) :
  (∀ x, respects R (body x)) → respects R (range_do l body).
Proof.
  intros Hbody. induction l as [|x l IH]; simpl; [apply respects_ret|].
  by apply respects_bind.
Qed.

Lemma respects_alloc {A} (store : World → list A) set (v : A) :
  (∀ w, R w (set (store w ++ [v]) w)) → respects R (alloc store set v).
Proof. intros Hset w r w' [= _ <-]. apply Hset. Qed.

Lemma respects_store_at {A} (store : World → list A) set p (v : A) :
  (∀ l w, R w (set l w)) → respects R (store_at store set p v).
Proof.
  intros Hset w r w'. unfold store_at. destruct p as [a|]; [|done].
  destruct (store w !! a); [|done]. intros Heq. inversion Heq; subst.
  apply Hset.
Qed.

End respects.

(** the structure of a computation, taken apart as far as it goes; [leaf]
    settles the allocations and the writes *)
Ltac respects_steps Hrefl Htrans leaf :=
  repeat first
    [ apply (respects_ret _ Hrefl)
    | apply respects_panic
    | apply (respects_load _ Hrefl)
    | apply (respects_range_find _ Hrefl Htrans); intros ?
    | apply (respects_range_do _ Hrefl Htrans); intros ?
    | leaf
    | apply (respects_bind _ Htrans); [|intros ?]
    | match goal with
      | |- respects _ (match ?x with _ => _ end) => destruct x
      end ].

Lemma eq_trans_world (w1 w2 w3 : World) : w1 = w2 → w2 = w3 → w1 = w3.
Proof. congruence. Qed.

Ltac reads_steps :=
  respects_steps (@eq_refl World) eq_trans_world fail.

(** *** The lookups only read *)

Lemma reads_getFrame d name : respects eq (getFrame d name).
Proof. unfold getFrame. reads_steps. Qed.

Lemma reads_getSlice d i : respects eq (getSlice d i).
Proof. unfold getSlice. reads_steps. Qed.

Lemma reads_GetFrameSliceIntersect d frame slice :
  respects eq (GetFrameSliceIntersect d frame slice).
Proof. unfold GetFrameSliceIntersect. reads_steps. Qed.

Lemma reads_GetFragment self i : respects eq (GetFragment self i).
Proof. unfold GetFragment. reads_steps. Qed.

Lemma reads_getFragment d frame slice i :
  respects eq (getFragment d frame slice i).
Proof.
  unfold getFragment.
  apply (respects_bind _ eq_trans_world);
    [apply reads_GetFrameSliceIntersect|intros r].
  destruct (r.2); [reads_steps|apply reads_GetFragment].
Qed.

Lemma reads_getDatabase c name : respects eq (getDatabase c name).
Proof. unfold getDatabase. reads_steps. Qed.

Lemma reads_GetFragmentForBitmap d slice bitmap :
  respects eq (GetFragmentForBitmap d slice bitmap).
Proof.
  unfold GetFragmentForBitmap.
  apply (respects_bind _ eq_trans_world); [apply reads_getFrame|intros r].
  destruct (r.2); [reads_steps|].
  apply (respects_bind _ eq_trans_world);
    [apply reads_GetFrameSliceIntersect|intros r'].
  destruct (r'.2); [reads_steps|].
  apply (respects_bind _ eq_trans_world);
    [apply (respects_load _ (@eq_refl World))|intros fs].
  destruct (fsi_hashring fs); [|apply respects_panic].
  destruct (Get _ _).2; [reads_steps|apply reads_GetFragment].
Qed.

Lemma reads_GetFragmentForFrameSlice d frame slice :
  respects eq (GetFragmentForFrameSlice d frame slice).
Proof.
  unfold GetFragmentForFrameSlice.
  apply (respects_bind _ eq_trans_world);
    [apply reads_GetFrameSliceIntersect|intros r'].
  destruct (r'.2); [reads_steps|].
  apply (respects_bind _ eq_trans_world);
    [apply (respects_load _ (@eq_refl World))|intros fs].
  destruct (fsi_hashring fs); [|apply respects_panic].
  destruct (Get _ _).2; [reads_steps|apply reads_GetFragment].
Qed.

(** *** Every call but SetProcess keeps the fragments as they are *)

Lemma keeps_fragments_refl w : keeps_fragments w w.
Proof. unfold keeps_fragments. done. Qed.

Lemma keeps_fragments_trans w1 w2 w3 :
  keeps_fragments w1 w2 → keeps_fragments w2 w3 → keeps_fragments w1 w3.
Proof. unfold keeps_fragments. by intros ? ?; etrans. Qed.

Ltac keeps_leaf :=
  first
    [ apply respects_alloc; intros ?; unfold keeps_fragments; simpl;
      first [ done | by apply prefix_app_r ]
    | apply respects_store_at; intros ? ?; unfold keeps_fragments; simpl;
      done ].

Ltac keeps_steps :=
  respects_steps keeps_fragments_refl keeps_fragments_trans keeps_leaf.

Lemma keeps_fragments_request (req : Request) :
  respects keeps_fragments (run_request req).
Proof.
  destruct req; simpl;
    unfold NewProcess, Process_Id, Host, SetHost, PortTcp, SetPortTcp,
      PortHttp, SetPortHttp, NewCluster, GetDatabases, GetOrCreateDatabase,
      GetFrameSliceIntersects, NumSlices, GetOrCreateFrame, Slice_Id,
      GetOrCreateSlice, GetFragments, GetId, GetProcess, GetProcessId,
      GetLocation, GetOrCreateFragment, GetFragmentForBitmap,
      GetFragmentForFrameSlice, GetSliceForProfile, addDatabase, getDatabase,
      addFrame, getFrame, addSlice, getSlice, addFragment, getFragment,
      AddFragment, GetFragment, AddFrameSliceIntersect,
      GetFrameSliceIntersect, store_Cluster, store_Database, store_FSI,
      store_Process;
    keeps_steps.
Qed.

(** *** Fragments and their process *)

Lemma range_find_Some {A B} (l : list A) (body : A → M (option B)) w v w' :
  (∀ x, respects eq (body x)) →
  range_find l body w = Ret (Some v) w' →
  ∃ x, x ∈ l ∧ body x w = Ret (Some v) w.
Proof.
  intros Hreads. induction l as [|x l IH]; simpl; [done|].
  unfold bind at 1. destruct (body x w) as [[v0|] w1|] eqn:Hbody; [| |done].
  - pose proof (Hreads _ _ _ _ Hbody) as ->. intros [= -> _].
    exists x. split; [left|done].
  - pose proof (Hreads _ _ _ _ Hbody) as ->. intros Hrest.
    destruct (IH Hrest) as (y & Hy & Hrun). exists y. split; [by right|done].
Qed.

Lemma GetFragment_found self i w p w' :
  GetFragment self i w = Ret (p, None) w' →
  is_Some (deref (fragment_store w) p).
Proof.
  unfold GetFragment. unfold bind at 1.
  destruct (load_FSI self w) as [fs w1|] eqn:Hload; [|done].
  pose proof (respects_load _ (@eq_refl World) _ _ _ _ _ Hload) as <-.
  unfold bind at 1.
  destruct (range_find _ _ w) as [[found|] w1|] eqn:Hfind; [| |done].
  - intros [= -> _].
    apply range_find_Some in Hfind as (x & _ & Hbody); [|intros ?; reads_steps].
    revert Hbody. unfold bind, load_Fragment, load.
    destruct x as [j|]; [|done]. simpl.
    destruct (fragment_store w !! j) eqn:Hj; [|done].
    destruct (decide _); [|done]. intros [= <-]. simpl. by rewrite Hj.
  - done.
Qed.

Lemma AddFragment_fragment_store self fragment :
  respects (λ w w', fragment_store w' = fragment_store w)
    (AddFragment self fragment).
Proof.
  unfold AddFragment, store_FSI.
  respects_steps (λ w : World, @eq_refl _ (fragment_store w))
    (λ (w1 w2 w3 : World) (H12 : fragment_store w2 = fragment_store w1)
       (H23 : fragment_store w3 = fragment_store w2), eq_trans H23 H12)
    ltac:(apply respects_store_at; intros ? ?; done).
Qed.

Lemma GetOrCreateFragment_fresh d frame slice i w p w' :
  GetOrCreateFragment d frame slice i w = Ret (Some p) w' →
  fragment_store w !! p = None →
  p = length (fragment_store w)
  ∧ fragment_store w'
    = fragment_store w ++ [{| fragment_id := i; fragment_process := None |}].
Proof.
  unfold GetOrCreateFragment. unfold bind at 1.
  destruct (getFragment d frame slice i w) as [[q [e|]] w1|] eqn:Hget;
    [| |done]; pose proof (reads_getFragment _ _ _ _ _ _ _ Hget) as <-; simpl.
  - clear Hget. unfold addFragment. unfold bind at 1.
    destruct (GetFrameSliceIntersect d frame slice w) as [[q' [e'|]] w1|]
      eqn:Hfsi; [done| |done].
    pose proof (reads_GetFrameSliceIntersect _ _ _ _ _ _ Hfsi) as <-. simpl.
    unfold bind at 1. unfold alloc at 1. unfold bind at 1.
    destruct (AddFragment _ _ _) as [[] w2|] eqn:Hadd; [|done].
    apply AddFragment_fragment_store in Hadd. simpl in Hadd.
    intros [= -> ->] _. by rewrite Hadd.
  - intros [= -> _] Hnone. exfalso. revert Hget. unfold getFragment.
    unfold bind at 1.
    destruct (GetFrameSliceIntersect d frame slice w) as [[q' [e'|]] w1|]
      eqn:Hfsi; [done| |done].
    pose proof (reads_GetFrameSliceIntersect _ _ _ _ _ _ Hfsi) as <-. simpl.
    intros Hfound%GetFragment_found. simpl in Hfound. rewrite Hnone in Hfound.
    by destruct Hfound.
Qed.

(** C9. A Fragment whose Process is nil makes GetProcessId and GetLocation
    panic on the nil dereference; a Fragment that GetOrCreateFragment has
    just created is in that state; SetProcess with a live Process makes
    both calls return; and every other call of the package keeps each
    existing Fragment, its nil Process included, as it is. *)
Theorem unassigned_process_panics :
  (∀ w f fr,
     fragment_store w !! f = Some fr → fragment_process fr = None →
     GetProcessId (Some f) w = Panic ∧ GetLocation (Some f) w = Panic)
  ∧ (∀ w d frame slice i f w',
       GetOrCreateFragment d frame slice i w = Ret (Some f) w' →
       fragment_store w !! f = None →
       fragment_store w' !! f
       = Some {| fragment_id := i; fragment_process := None |}
       ∧ GetProcessId (Some f) w' = Panic
       ∧ GetLocation (Some f) w' = Panic)
  ∧ (∀ w f fr p pr,
       fragment_store w !! f = Some fr → process_store w !! p = Some pr →
       ∃ w',
         SetProcess (Some f) (Some p) w = Ret () w'
         ∧ GetProcessId (Some f) w' = Ret (process_id pr) w'
         ∧ GetLocation (Some f) w'
           = Ret {| ProcessId := process_id pr;
                    FragmentId := fragment_id fr |} w')
  ∧ (∀ req w w' f fr,
       run_request req w = Ret () w' →
       fragment_store w !! f = Some fr →
       fragment_store w' !! f = Some fr).
Proof.
  assert (∀ w f fr,
            fragment_store w !! f = Some fr → fragment_process fr = None →
            GetProcessId (Some f) w = Panic ∧ GetLocation (Some f) w = Panic)
    as Hnil.
  { intros w f fr Hf Hnone.
    unfold GetProcessId, GetLocation, load_Fragment.
    rewrite !(bind_Ret _ _ _ _ _ (load_Some fragment_store _ _ _ Hf)).
    by rewrite Hnone. }
  split_and!.
  - exact Hnil.
  - intros w d frame slice i f w' Hrun Hfresh.
    destruct (GetOrCreateFragment_fresh _ _ _ _ _ _ _ Hrun Hfresh)
      as [-> Hstore].
    assert (fragment_store w' !! length (fragment_store w)
            = Some {| fragment_id := i; fragment_process := None |}) as Hf
      by (rewrite Hstore; apply lookup_snoc_here).
    split; [done|]. by apply (Hnil _ _ _ Hf).
  - intros w f fr p pr Hf Hp. pose proof (lookup_lt_Some _ _ _ Hf) as Hlt.
    eexists. split.
    { unfold SetProcess, load_Fragment.
      rewrite (bind_Ret _ _ _ _ _ (load_Some fragment_store _ _ _ Hf)).
      unfold store_Fragment, store_at. by rewrite Hf. }
    unfold GetProcessId, GetLocation, load_Fragment, load_Process, bind, load.
    simpl. rewrite list_lookup_insert_eq by done. simpl. by rewrite Hp.
  - intros req w w' f fr Hrun Hf.
    apply keeps_fragments_request in Hrun.
    by apply (prefix_lookup_Some _ _ _ _ Hf).
Qed.

(** *** The ring mirrors the fragment set *)

Lemma AddFragment_run q fs c p fr w :
  fsi_store w !! q = Some fs → fsi_hashring fs = Some c →
  deref (fragment_store w) p = Some fr →
  AddFragment (Some q) p w
  = Ret () (set_fsi_store (<[q := added_fragment fs c p fr]> (fsi_store w)) w).
Proof.
  intros Hfs Hring Hfr. pose proof (lookup_lt_Some _ _ _ Hfs) as Hlt.
  destruct p as [j|]; [|done]. simpl in Hfr.
  unfold AddFragment, load_FSI, store_FSI, load_Fragment, store_at, load, bind.
  simpl.
  repeat (first [ rewrite Hfs | rewrite Hfr | rewrite Hring
                | rewrite list_lookup_insert_eq by done
                | rewrite list_insert_insert_eq ]; simpl).
  done.
Qed.

Lemma AddFragment_loop q (frs : list ptr) : ∀ w fs c,
  fsi_store w !! q = Some fs → fsi_hashring fs = Some c →
  Forall (λ p, is_Some (deref (fragment_store w) p)) frs →
  ∃ w' fs' c',
    range_do frs (AddFragment (Some q)) w = Ret () w'
    ∧ fragment_store w' = fragment_store w
    ∧ fsi_store w' !! q = Some fs'
    ∧ fsi_fragments fs' = fsi_fragments fs ++ frs
    ∧ fsi_hashring fs' = Some c'
    ∧ members c' = members c ∪ list_to_set (fragment_hexes w frs)
    ∧ NumberOfReplicas c' = NumberOfReplicas c.
Proof.
  induction frs as [|p frs IH]; intros w fs c Hfs Hring Hlive.
  - exists w, fs, c. simpl. rewrite app_nil_r.
    split_and!; try done. by rewrite (right_id_L ∅ (∪)).
  - apply Forall_cons in Hlive as [[fr Hfr] Hlive].
    pose proof (lookup_lt_Some _ _ _ Hfs) as Hlt. simpl.
    rewrite (bind_Ret _ _ _ _ _ (AddFragment_run _ _ _ _ _ _ Hfs Hring Hfr)).
    edestruct (IH (set_fsi_store (<[q:=added_fragment fs c p fr]> (fsi_store w))
                     w) (added_fragment fs c p fr))
      as (w' & fs' & c' & Hrun & Hstore & Hfs' & Hfrs & Hring' & Hmem & Hn).
    { simpl. by apply list_lookup_insert_eq. }
    { done. }
    { done. }
    exists w', fs', c'. split_and!; try done.
    + rewrite Hfrs. simpl. by rewrite <- app_assoc.
    + rewrite Hmem, Hfr. simpl. unfold fragment_hexes. simpl.
      by rewrite (assoc_L (∪)), (comm_L (∪) _ (members c)).
Qed.

Lemma AddFragment_loop_keeps q (frs : list ptr) : ∀ w fs c,
  fsi_store w !! q = Some fs → fsi_hashring fs = Some c →
  Forall (λ p, is_Some (deref (fragment_store w) p)) frs →
  ∃ w' fs',
    range_do frs (AddFragment (Some q)) w = Ret () w'
    ∧ fsi_store w' !! q = Some fs'
    ∧ fsi_frame fs' = fsi_frame fs ∧ fsi_slice fs' = fsi_slice fs.
Proof.
  induction frs as [|p frs IH]; intros w fs c Hfs Hring Hlive.
  - by exists w, fs.
  - apply Forall_cons in Hlive as [[fr Hfr] Hlive].
    pose proof (lookup_lt_Some _ _ _ Hfs) as Hlt. simpl.
    rewrite (bind_Ret _ _ _ _ _ (AddFragment_run _ _ _ _ _ _ Hfs Hring Hfr)).
    edestruct (IH (set_fsi_store (<[q:=added_fragment fs c p fr]> (fsi_store w))
                     w) (added_fragment fs c p fr))
      as (w' & fs' & Hrun & Hfs' & Hframe & Hslice).
    { simpl. by apply list_lookup_insert_eq. }
    { done. }
    { done. }
    by exists w', fs'.
Qed.

(** C5. Ring membership mirrors the fragment set: on any live Database,
    AddFrameSliceIntersect returns a new FSI; any sequence of AddFragment
    calls on that FSI, with live fragments, runs to its end; the FSI then
    joins the given frame and slice, its fragment list is the fragments
    added, in order, the ring's member set is exactly the set of their
    hex-encoded identifiers, one per fragment added, and the ring has the
    16 virtual positions per member that AddFrameSliceIntersect gave it. *)
Theorem ring_mirrors_fragment_set (w : World) (a : nat) (db : Database)
    (frame slice : ptr) (frs : list ptr) :
  database_store w !! a = Some db →
  Forall (λ p, is_Some (deref (fragment_store w) p)) frs →
  ∃ q w0 w' fs c,
    AddFrameSliceIntersect (Some a) frame slice w = Ret (Some q) w0
    ∧ range_do frs (AddFragment (Some q)) w0 = Ret () w'
    ∧ fsi_store w' !! q = Some fs
    ∧ fsi_frame fs = frame ∧ fsi_slice fs = slice
    ∧ fsi_fragments fs = frs
    ∧ fsi_hashring fs = Some c
    ∧ members c = list_to_set (fragment_hexes w' frs)
    ∧ length (fragment_hexes w' frs) = length frs
    ∧ NumberOfReplicas c = 16.
Proof.
  intros Hdb Hlive.
  pose proof (AddFrameSliceIntersect_run a db frame slice w Hdb) as Hnew.
  set (w0 := with_fsis a db [(frame, slice)] w) in *.
  assert (fsi_store w0 !! length (fsi_store w) = Some (fresh_fsi frame slice))
    as Hfs by (by exact (lookup_snoc_here _ _)).
  assert (fragment_store w0 = fragment_store w) as Hfrs0 by done.
  clearbody w0. rewrite <- Hfrs0 in Hlive.
  destruct (AddFragment_loop (length (fsi_store w)) frs w0 _ _ Hfs eq_refl
              Hlive)
    as (w' & fs' & c' & Hrun & Hstore & Hfs' & Hfrs & Hring' & Hmem & Hn).
  destruct (AddFragment_loop_keeps (length (fsi_store w)) frs w0 _ _ Hfs
              eq_refl Hlive)
    as (w1 & fs1 & Hrun1 & Hfs1 & Hframe & Hslice).
  rewrite Hrun in Hrun1. injection Hrun1 as <-.
  rewrite Hfs' in Hfs1. injection Hfs1 as <-.
  exists (length (fsi_store w)), w0, w', fs', c'.
  split; [done|]. split; [done|]. split; [done|].
  split; [done|]. split; [done|]. split; [done|]. split; [done|].
  split; [|split; [|done]].
  - rewrite Hmem. unfold fragment_hexes. rewrite Hstore. simpl.
    by rewrite (left_id_L ∅ (∪)).
  - unfold fragment_hexes. rewrite Hstore. clear -Hlive.
    induction Hlive as [|p l [fr Hfr] _ IH]; simpl; [done|].
    rewrite Hfr. simpl. by f_equal.
Qed.

(** *** A ring with one member *)

Lemma foldl_positions_values elt (l : list Z) : ∀ m : gmap Z string,
  (∀ k v, m !! k = Some v → v = elt) →
  ∀ k v,
    foldl (λ acc i, <[hashKey (eltKey elt i) := elt]> acc) m l !! k = Some v →
    v = elt.
Proof.
  induction l as [|i l IH]; intros m Hm; simpl; [done|].
  apply IH. intros k v. rewrite lookup_insert_Some.
  intros [[_ <-]|[_ Hk]]; [done|by eapply Hm].
Qed.

Lemma foldl_positions_non_empty elt (l : list Z) : ∀ m : gmap Z string,
  l ≠ [] ∨ m ≠ ∅ →
  foldl (λ acc i, <[hashKey (eltKey elt i) := elt]> acc) m l ≠ ∅.
Proof.
  induction l as [|i l IH]; intros m Hor; simpl.
  - by destruct Hor.
  - apply IH. right. apply insert_non_empty.
Qed.

Lemma first_after_le key (hs : list Z) : (first_after key hs ≤ length hs)%nat.
Proof.
  induction hs as [|h hs IH]; simpl; [lia|].
  destruct (decide (key < h)); lia.
Qed.

Lemma search_lt c key :
  sortedHashes c ≠ [] → (search c key < length (sortedHashes c))%nat.
Proof.
  intros Hne. unfold search.
  pose proof (first_after_le key (sortedHashes c)).
  destruct (decide _); [|lia].
  destruct (sortedHashes c); [done|simpl; lia].
Qed.

(** a ring all of whose positions belong to [elt] resolves every key to it *)
Lemma Get_single_owner c elt key :
  (∀ k v, circle c !! k = Some v → v = elt) →
  circle c ≠ ∅ →
  sortedHashes c = updateSortedHashes (circle c) →
  Get key c = (elt, None).
Proof.
  intros Hvals Hne Hsorted. unfold Get.
  rewrite decide_False by (by apply map_size_non_empty_iff).
  assert (sortedHashes c ≠ []) as Hhs.
  { rewrite Hsorted. unfold updateSortedHashes. intros Hnil.
    apply map_choose in Hne as (k & v & Hkv).
    apply elem_of_map_to_list in Hkv.
    apply (list_elem_of_fmap_2 fst) in Hkv.
    rewrite <- (merge_sort_Permutation Z.le) in Hkv.
    change (map fst (map_to_list (circle c)))
      with (fst <$> map_to_list (circle c)) in Hnil.
    rewrite Hnil in Hkv. by apply elem_of_nil in Hkv. }
  destruct (lookup_lt_is_Some_2 _ _ (search_lt c (hashKey key) Hhs))
    as [h Hh].
  rewrite Hh. simpl.
  assert (h ∈ sortedHashes c) as Hin by (by eapply list_elem_of_lookup_2).
  rewrite Hsorted in Hin. unfold updateSortedHashes in Hin.
  rewrite merge_sort_Permutation in Hin.
  apply list_elem_of_fmap in Hin as ([k v] & -> & Hkv).
  apply elem_of_map_to_list in Hkv. simpl. rewrite Hkv. simpl.
  f_equal. by eapply Hvals.
Qed.

Lemma Get_sole_member elt key :
  Get key (Add elt (set_NumberOfReplicas 16 New)) = (elt, None).
Proof.
  apply Get_single_owner; simpl; [| |done].
  - unfold add_positions. apply foldl_positions_values.
    intros k v. by rewrite lookup_empty.
  - unfold add_positions. apply foldl_positions_non_empty. by left.
Qed.

(** *** Creating a fragment and routing to it *)

Lemma GetFragment_run q fs i w :
  fsi_store w !! q = Some fs →
  Forall (λ p, is_Some (deref (fragment_store w) p)) (fsi_fragments fs) →
  GetFragment (Some q) i w
  = Ret (match first_some (fragment_hit w i) (fsi_fragments fs) with
         | Some found => found
         | None => (None, Some FragmentDoesNotExistError)
         end) w.
Proof.
  intros Hfs Hval. unfold GetFragment, load_FSI.
  rewrite (bind_Ret _ _ _ _ _ (load_Some fsi_store _ _ _ Hfs)).
  erewrite bind_Ret; last first.
  { apply (range_find_reads _ _ (fragment_hit w i)).
    intros p Hp. rewrite Forall_forall in Hval.
    destruct (Hval p Hp) as [fr Hfr]. unfold fragment_hit. rewrite Hfr.
    destruct p as [j|]; [|done]. unfold load_Fragment.
    rewrite (bind_Ret _ _ _ _ _ (load_Some fragment_store _ _ _ Hfr)).
    by destruct (decide (fragment_id fr = i)). }
  by destruct (first_some _ _).
Qed.

Lemma GetOrCreateFragment_creates a db frame slice i q fs c w :
  database_store w !! a = Some db →
  Forall (λ q, is_Some (deref (fsi_store w) q)) (frame_slice_intersects db) →
  first_some (fsi_hit w frame slice) (frame_slice_intersects db)
  = Some (Some q, None) →
  fsi_store w !! q = Some fs → fsi_hashring fs = Some c →
  Forall (λ p, is_Some (deref (fragment_store w) p)) (fsi_fragments fs) →
  first_some (fragment_hit w i) (fsi_fragments fs) = None →
  GetOrCreateFragment (Some a) frame slice i w
  = Ret (Some (length (fragment_store w))) (after_addFragment q fs c i w).
Proof.
  intros Hdb Hlive Hhit Hfs Hring Hfrs Hmiss.
  unfold GetOrCreateFragment, getFragment.
  unfold bind at 1. unfold bind at 1.
  rewrite (GetFrameSliceIntersect_run _ _ _ _ _ Hdb Hlive), Hhit. simpl.
  rewrite (GetFragment_run _ _ _ _ Hfs Hfrs), Hmiss. simpl.
  unfold addFragment. unfold bind at 1.
  rewrite (GetFrameSliceIntersect_run _ _ _ _ _ Hdb Hlive), Hhit. simpl.
  unfold bind at 1. unfold alloc at 1. unfold bind at 1.
  erewrite AddFragment_run; [done|exact Hfs|exact Hring|].
  simpl. apply lookup_snoc_here.
Qed.

Lemma after_addSlice_database a db i w :
  database_store w !! a = Some db →
  database_store (after_addSlice a db i w) !! a
  = Some {| Name := Name db;
            frames := frames db;
            slices := slices db ++ [Some (length (slice_store w))];
            frame_slice_intersects :=
              frame_slice_intersects db
              ++ (Some <$> seq (length (fsi_store w)) (length (frames db))) |}.
Proof.
  intros Hdb. pose proof (lookup_lt_Some _ _ _ Hdb) as Hlt.
  unfold after_addSlice, with_fsis. simpl.
  rewrite list_insert_insert_eq, list_lookup_insert_eq by done.
  by rewrite length_fmap.
Qed.

Lemma after_addSlice_fsi_store a db i w :
  fsi_store (after_addSlice a db i w)
  = fsi_store w
    ++ ((λ frame, fresh_fsi frame (Some (length (slice_store w))))
          <$> frames db).
Proof.
  unfold after_addSlice, with_fsis. simpl.
  by rewrite <- list_fmap_compose.
Qed.

Lemma default_frame_is_valid d :
  config_arrays !! "supported_frames"%string = None →
  IsValidFrame d "default" = true
  ∧ IsValidFrame d "other" = false.
Proof.
  intros Hcfg. unfold IsValidFrame, GetStringArrayDefault. rewrite Hcfg.
  split; by vm_compute.
Qed.

(** C4. Single-fragment routing: on a newly created Database, with the
    default configuration and an identifier that survives the hex encoding
    and decoding, the calls GetOrCreateFrame("default"), GetOrCreateSlice(0)
    and GetOrCreateFragment(frame, slice, fragId1) followed by
    GetFragmentForBitmap(slice, bitmap) for any bitmap of frame type
    "default" (item id 42 among them) all return, and the lookup returns,
    without error, the very Fragment the third call created, whose id is
    fragId1. *)
Theorem single_fragment_routing (w : World) (a : nat) (name : string)
    (fragId1 : SUUID) (bitmap : Bitmap) :
  database_store w !! a = Some (new_database name) →
  config_arrays !! "supported_frames"%string = None →
  Hex_to_SUUID (SUUID_to_Hex fragId1) = fragId1 →
  FrameType bitmap = "default"%string →
  ∃ fragment w',
    single_fragment_scenario (Some a) fragId1 bitmap w
    = Ret (Some fragment, (Some fragment, None)) w'
    ∧ fragment_store w' !! fragment
      = Some {| fragment_id := fragId1; fragment_process := None |}.
Proof.
  intros Hdb Hcfg Hhex Hft.
  destruct (default_frame_is_valid (Some a) Hcfg) as [Hvalid _].
  unfold single_fragment_scenario.
  (* the frame *)
  set (nf := length (frame_store w)).
  set (w1 := after_addFrame a (new_database name) "default" w).
  assert (GetOrCreateFrame (Some a) "default" w = Ret (Some nf) w1) as Hrun1.
  { unfold GetOrCreateFrame.
    rewrite (bind_Ret _ _ _ _ _
               (getFrame_run _ _ "default" _ Hdb (Forall_nil_2 _))).
    rewrite Hvalid. simpl. by apply addFrame_run. }
  assert (database_store w1 !! a
          = Some {| Name := name; frames := [Some nf]; slices := [];
                    frame_slice_intersects := [] |}) as Hdb1
    by exact (after_addFrame_database _ _ "default" _ Hdb).
  assert (frame_store w1 = frame_store w ++ [{| frame_name := "default" |}])
    as Hframes1 by done.
  clearbody w1.
  (* the slice *)
  set (ns := length (slice_store w1)).
  set (nq := length (fsi_store w1)).
  set (w2 := after_addSlice a
               {| Name := name; frames := [Some nf]; slices := [];
                  frame_slice_intersects := [] |} 0 w1).
  assert (GetOrCreateSlice (Some a) 0 w1 = Ret (Some ns) w2) as Hrun2.
  { unfold GetOrCreateSlice.
    rewrite (bind_Ret _ _ _ _ _
               (getSlice_run _ _ 0 _ Hdb1 (Forall_nil_2 _))).
    simpl. by apply addSlice_run. }
  assert (database_store w2 !! a
          = Some {| Name := name; frames := [Some nf]; slices := [Some ns];
                    frame_slice_intersects := [Some nq] |}) as Hdb2
    by exact (after_addSlice_database _ _ 0 _ Hdb1).
  assert (fsi_store w2 = fsi_store w1 ++ [fresh_fsi (Some nf) (Some ns)])
    as Hfsis2
    by exact (after_addSlice_fsi_store a
                {| Name := name; frames := [Some nf]; slices := [];
                   frame_slice_intersects := [] |} 0 w1).
  assert (frame_store w2 = frame_store w1) as Hframes2 by done.
  clearbody w2.
  assert (fsi_store w2 !! nq = Some (fresh_fsi (Some nf) (Some ns))) as Hfs2.
  { rewrite Hfsis2. apply lookup_snoc_here. }
  (* the fragment *)
  set (ng := length (fragment_store w2)).
  set (w3 := after_addFragment nq (fresh_fsi (Some nf) (Some ns))
               (set_NumberOfReplicas 16 New) fragId1 w2).
  assert (GetOrCreateFragment (Some a) (Some nf) (Some ns) fragId1 w2
          = Ret (Some ng) w3) as Hrun3.
  { eapply GetOrCreateFragment_creates;
      [exact Hdb2| | |exact Hfs2|done|by apply Forall_nil_2|done].
    - simpl. apply Forall_singleton. simpl. by rewrite Hfs2.
    - simpl. unfold fsi_hit. simpl. rewrite Hfs2. simpl.
      by rewrite ?decide_True. }
  pose proof (lookup_lt_Some _ _ _ Hfs2) as Hlt.
  assert (database_store w3 !! a
          = Some {| Name := name; frames := [Some nf]; slices := [Some ns];
                    frame_slice_intersects := [Some nq] |}) as Hdb3
    by exact Hdb2.
  assert (frame_store w3 !! nf = Some {| frame_name := "default" |})
    as Hframe3.
  { change (frame_store w3) with (frame_store w2).
    rewrite Hframes2, Hframes1. apply lookup_snoc_here. }
  assert (fsi_store w3 !! nq
          = Some (added_fragment (fresh_fsi (Some nf) (Some ns))
                    (set_NumberOfReplicas 16 New) (Some ng)
                    {| fragment_id := fragId1; fragment_process := None |}))
    as Hfs3.
  { unfold w3, after_addFragment. simpl. by apply list_lookup_insert_eq. }
  assert (fragment_store w3 !! ng
          = Some {| fragment_id := fragId1; fragment_process := None |})
    as Hfrag3.
  { unfold w3, after_addFragment. simpl. apply lookup_snoc_here. }
  clearbody w3.
  (* the lookup *)
  assert (GetFragmentForBitmap (Some a) (Some ns) bitmap w3
          = Ret (Some ng, None) w3) as Hrun4.
  { unfold GetFragmentForBitmap. rewrite Hft.
    erewrite bind_Ret; last first.
    { apply (getFrame_run _ _ _ _ Hdb3). simpl.
      apply Forall_singleton. simpl. by rewrite Hframe3. }
    rewrite Hvalid. simpl. unfold frame_hit. simpl. rewrite Hframe3. simpl.
    rewrite ?decide_True by done. simpl.
    erewrite bind_Ret; last first.
    { apply (GetFrameSliceIntersect_run _ _ _ _ _ Hdb3). simpl.
      apply Forall_singleton. simpl. by rewrite Hfs3. }
    simpl. unfold fsi_hit. simpl. rewrite Hfs3. simpl.
    rewrite ?decide_True by done. simpl.
    unfold load_FSI. rewrite (bind_Ret _ _ _ _ _ (load_Some fsi_store _ _ _ Hfs3)).
    simpl. rewrite Get_sole_member. simpl. rewrite Hhex.
    erewrite GetFragment_run; [|exact Hfs3|].
    - simpl. unfold fragment_hit. simpl. rewrite Hfrag3. simpl.
      by rewrite ?decide_True.
    - simpl. apply Forall_singleton. simpl. by rewrite Hfrag3. }
  exists ng, w3. split; [|done].
  rewrite (bind_Ret _ _ _ _ _ Hrun1), (bind_Ret _ _ _ _ _ Hrun2),
    (bind_Ret _ _ _ _ _ Hrun3), (bind_Ret _ _ _ _ _ Hrun4).
  done.
Qed.

(** *** Routing reads the heap and returns *)

Lemma first_some_fsi_hit_elem w frame slice (l : list ptr) r :
  first_some (fsi_hit w frame slice) l = Some r →
  ∃ q, r = (q, None) ∧ q ∈ l.
Proof.
  induction l as [|q l IH]; simpl; [done|].
  destruct (fsi_hit w frame slice q) as [r'|] eqn:Hhit.
  - intros [= <-]. exists q. split; [|left]. unfold fsi_hit in Hhit.
    destruct (deref (fsi_store w) q); [|done].
    destruct (decide _); [|done]. by inversion Hhit.
  - intros (q' & ? & ?)%IH. exists q'. split; [done|by right].
Qed.

Lemma GetFragmentForBitmap_returns a w slice bitmap :
  routing_wf a w →
  ∃ r, GetFragmentForBitmap (Some a) slice bitmap w = Ret r w.
Proof.
  intros (db & Hdb & Hframes & _ & Hfsis). unfold GetFragmentForBitmap.
  rewrite (bind_Ret _ _ _ _ _ (getFrame_run _ _ _ _ Hdb Hframes)).
  destruct (if negb _ then _ else _) as [frame [e|]]; simpl.
  { unfold load_Database.
    rewrite (bind_Ret _ _ _ _ _ (load_Some database_store _ _ _ Hdb)).
    by eexists. }
  assert (Forall (λ q, is_Some (deref (fsi_store w) q))
            (frame_slice_intersects db)) as Hlive.
  { eapply Forall_impl; [exact Hfsis|]. intros q (fs & -> & _). by eexists. }
  rewrite (bind_Ret _ _ _ _ _
             (GetFrameSliceIntersect_run _ _ _ _ _ Hdb Hlive)).
  destruct (first_some _ _) as [r|] eqn:Hhit; simpl; [|by eexists].
  apply first_some_fsi_hit_elem in Hhit as (q & -> & Hq). simpl.
  rewrite Forall_forall in Hfsis.
  destruct (Hfsis q Hq) as (fs & Hfs & [c Hring] & Hfrs).
  destruct q as [j|]; [|done]. simpl in Hfs.
  unfold load_FSI. rewrite (bind_Ret _ _ _ _ _ (load_Some fsi_store _ _ _ Hfs)).
  rewrite Hring.
  destruct (Get (pretty (Id bitmap)) c) as [member [e|]]; simpl;
    [by eexists|].
  rewrite (GetFragment_run _ _ _ _ Hfs Hfrs). by eexists.
Qed.

(** *** Every database built by the get-or-create calls can be routed on *)

Lemma fsi_live_extend w w' ext q :
  fsi_store w' = fsi_store w ++ ext →
  fragment_store w `prefix_of` fragment_store w' →
  fsi_live w q → fsi_live w' q.
Proof.
  intros Hst [k Hfr] (fs & Hfs & Hring & Hfrs).
  exists fs. split_and!; [|done|].
  - rewrite Hst. by rewrite deref_app by (by eexists).
  - eapply Forall_impl; [exact Hfrs|]. intros p Hp. rewrite Hfr.
    by apply deref_app_valid.
Qed.

Lemma fsi_live_fresh w' (S : list FrameSliceIntersect) (prs : list (ptr * ptr)) :
  fsi_store w' = S ++ ((λ pr, fresh_fsi pr.1 pr.2) <$> prs) →
  Forall (fsi_live w') (Some <$> seq (length S) (length prs)).
Proof.
  intros Hst. apply Forall_forall. intros q Hq.
  apply list_elem_of_fmap in Hq as (j & -> & Hj).
  apply elem_of_seq in Hj as [Hlo Hhi].
  destruct (lookup_lt_is_Some_2 prs (j - length S)) as [pr Hpr]; [lia|].
  exists (fresh_fsi pr.1 pr.2). split_and!.
  - simpl. rewrite Hst, lookup_app_r by lia.
    by rewrite list_lookup_fmap, Hpr.
  - by eexists.
  - by apply Forall_nil_2.
Qed.

Lemma routing_wf_new a name w :
  database_store w !! a = Some (new_database name) → routing_wf a w.
Proof.
  intros Hdb. exists (new_database name).
  split_and!; [done|by apply Forall_nil_2..].
Qed.

Lemma routing_wf_addFrame a db name w :
  database_store w !! a = Some db →
  routing_wf a w → routing_wf a (after_addFrame a db name w).
Proof.
  intros Hdb (db0 & Hdb0 & Hfr & Hsl & Hfsis).
  assert (db0 = db) as -> by congruence.
  eexists. split; [by apply after_addFrame_database|]. simpl. split_and!.
  - apply Forall_app. split.
    + eapply Forall_impl; [exact Hfr|]. intros p. apply deref_app_valid.
    + apply Forall_singleton. simpl. rewrite lookup_snoc_here. by eexists.
  - done.
  - apply Forall_app. split.
    + eapply Forall_impl; [exact Hfsis|]. intros q.
      eapply fsi_live_extend; [apply after_addFrame_fsi_store|done].
    + rewrite <- (length_fmap
                    (λ slice : ptr, (Some (length (frame_store w)), slice))
                    (slices db)).
      by apply fsi_live_fresh.
Qed.

Lemma routing_wf_addSlice a db i w :
  database_store w !! a = Some db →
  routing_wf a w → routing_wf a (after_addSlice a db i w).
Proof.
  intros Hdb (db0 & Hdb0 & Hfr & Hsl & Hfsis).
  assert (db0 = db) as -> by congruence.
  eexists. split; [by apply after_addSlice_database|]. simpl. split_and!.
  - done.
  - apply Forall_app. split.
    + eapply Forall_impl; [exact Hsl|]. intros p. apply deref_app_valid.
    + apply Forall_singleton. simpl. rewrite lookup_snoc_here. by eexists.
  - apply Forall_app. split.
    + eapply Forall_impl; [exact Hfsis|]. intros q.
      eapply fsi_live_extend; [apply after_addSlice_fsi_store|done].
    + rewrite <- (length_fmap
                    (λ frame : ptr, (frame, Some (length (slice_store w))))
                    (frames db)).
      by apply fsi_live_fresh.
Qed.

Lemma first_some_fragment_hit_shape w i (l : list ptr) r :
  first_some (fragment_hit w i) l = Some r → r.2 = None.
Proof.
  induction l as [|p l IH]; simpl; [done|].
  destruct (fragment_hit w i p) as [r'|] eqn:Hhit; [|done].
  intros [= <-]. unfold fragment_hit in Hhit.
  destruct (deref (fragment_store w) p); [|done].
  destruct (decide _); [|done]. by inversion Hhit.
Qed.

Lemma routing_wf_addFragment a q fs c i w :
  fsi_store w !! q = Some fs →
  Forall (λ p, is_Some (deref (fragment_store w) p)) (fsi_fragments fs) →
  routing_wf a w → routing_wf a (after_addFragment q fs c i w).
Proof.
  intros Hfs Hfrs (db & Hdb & Hfr & Hsl & Hfsis).
  pose proof (lookup_lt_Some _ _ _ Hfs) as Hlt.
  exists db. split_and!; [done..|].
  eapply Forall_impl; [exact Hfsis|].
  intros q' (fs' & Hfs' & Hring' & Hfrs').
  destruct q' as [j|]; [|done]. simpl in Hfs'.
  destruct (decide (j = q)) as [->|Hne].
  - eexists. split_and!.
    + simpl. by apply list_lookup_insert_eq.
    + by eexists.
    + simpl. apply Forall_app. split.
      * eapply Forall_impl; [exact Hfrs|]. intros p. apply deref_app_valid.
      * apply Forall_singleton. simpl. rewrite lookup_snoc_here. by eexists.
  - exists fs'. split_and!; [|done|].
    + simpl. by rewrite list_lookup_insert_ne.
    + eapply Forall_impl; [exact Hfrs'|]. intros p. apply deref_app_valid.
Qed.

Lemma pair_of_addFragment q fs c i w q' :
  fsi_store w !! q = Some fs →
  pair_of (after_addFragment q fs c i w) q' = pair_of w q'.
Proof.
  intros Hfs. pose proof (lookup_lt_Some _ _ _ Hfs) as Hlt.
  unfold pair_of. destruct q' as [j|]; [|done]. simpl.
  destruct (decide (j = q)) as [->|Hne].
  - by rewrite list_lookup_insert_eq, Hfs.
  - by rewrite list_lookup_insert_ne.
Qed.

Lemma db_inv_addFragment a q fs c i w :
  fsi_store w !! q = Some fs →
  db_inv a w → db_inv a (after_addFragment q fs c i w).
Proof.
  intros Hfs (db & ps & Hdb & Hfr & Hsl & Hnf & Hns & Hpairs & Hnd & Hmem).
  exists db, ps. split_and!; try done.
  rewrite <- Hpairs. apply list_fmap_ext. intros ? q' _.
  by apply pair_of_addFragment.
Qed.

(** the two invariants together *)
Lemma GetOrCreateFragment_inv a frame slice i w :
  db_inv a w → routing_wf a w →
  ∃ p w',
    GetOrCreateFragment (Some a) frame slice i w = Ret p w'
    ∧ db_inv a w' ∧ routing_wf a w'.
Proof.
  intros Hinv Hwf.
  destruct Hwf as (db & Hdb & Hfr & Hsl & Hfsis) eqn:Hwf'. clear Hwf'.
  assert (Forall (λ q, is_Some (deref (fsi_store w) q))
            (frame_slice_intersects db)) as Hlive.
  { eapply Forall_impl; [exact Hfsis|]. intros q (fs & -> & _). by eexists. }
  destruct (first_some (fsi_hit w frame slice) (frame_slice_intersects db))
    as [r|] eqn:Hhit.
  - pose proof Hhit as Hhit'.
    apply first_some_fsi_hit_elem in Hhit' as (q & -> & Hq).
    rewrite Forall_forall in Hfsis.
    destruct (Hfsis q Hq) as (fs & Hfs & [c Hring] & Hfrs).
    destruct q as [j|]; [|done]. simpl in Hfs.
    destruct (first_some (fragment_hit w i) (fsi_fragments fs))
      as [found|] eqn:Hfound.
    + exists found.1, w. split; [|done].
      unfold GetOrCreateFragment, getFragment.
      unfold bind at 1. unfold bind at 1.
      rewrite (GetFrameSliceIntersect_run _ _ _ _ _ Hdb Hlive), Hhit. simpl.
      rewrite (GetFragment_run _ _ _ _ Hfs Hfrs), Hfound.
      by rewrite (first_some_fragment_hit_shape _ _ _ _ Hfound).
    + eexists _, _. split.
      { by eapply GetOrCreateFragment_creates. }
      split; [by apply db_inv_addFragment|].
      apply routing_wf_addFragment; [done..|].
      exists db. split_and!; try done. by apply Forall_forall.
  - exists None, w. split; [|split; [done|by exists db]].
    unfold GetOrCreateFragment, getFragment.
    unfold bind at 1. unfold bind at 1.
    rewrite (GetFrameSliceIntersect_run _ _ _ _ _ Hdb Hlive), Hhit. simpl.
    unfold addFragment. unfold bind at 1.
    by rewrite (GetFrameSliceIntersect_run _ _ _ _ _ Hdb Hlive), Hhit.
Qed.

Lemma GetOrCreateFrame_wf a name w :
  db_inv a w → routing_wf a w →
  ∃ p w',
    GetOrCreateFrame (Some a) name w = Ret p w'
    ∧ db_inv a w' ∧ routing_wf a w'.
Proof.
  intros Hinv Hwf.
  destruct Hwf as (db & Hdb & Hfr & Hrest) eqn:Hwf'. clear Hwf'.
  unfold GetOrCreateFrame.
  rewrite (bind_Ret _ _ _ _ _ (getFrame_run _ _ name _ Hdb Hfr)).
  destruct (if negb _ then _ else _) as [p [e|]]; simpl.
  - rewrite (addFrame_run _ _ _ _ Hdb). eexists _, _. split; [done|].
    split; [by apply db_inv_addFrame|by apply routing_wf_addFrame].
  - by eexists _, _.
Qed.

Lemma GetOrCreateSlice_wf a i w :
  db_inv a w → routing_wf a w →
  ∃ p w',
    GetOrCreateSlice (Some a) i w = Ret p w'
    ∧ db_inv a w' ∧ routing_wf a w'.
Proof.
  intros Hinv Hwf.
  destruct Hwf as (db & Hdb & Hfr & Hsl & Hrest) eqn:Hwf'. clear Hwf'.
  unfold GetOrCreateSlice.
  rewrite (bind_Ret _ _ _ _ _ (getSlice_run _ _ i _ Hdb Hsl)).
  destruct (match first_some _ _ with Some _ => _ | None => _ end)
    as [p [e|]]; simpl.
  - rewrite (addSlice_run _ _ _ _ Hdb). eexists _, _. split; [done|].
    split; [by apply db_inv_addSlice|by apply routing_wf_addSlice].
  - by eexists _, _.
Qed.

(** whatever frames, slices and fragments are registered in a new database,
    the calls return and leave a database that has its cross product of
    FSIs and can be routed on *)
Lemma run_builds_inv a (bs : list Build) : ∀ w,
  db_inv a w → routing_wf a w →
  ∃ w', run_builds (Some a) bs w = Ret () w' ∧ db_inv a w' ∧ routing_wf a w'.
Proof.
  unfold run_builds.
  induction bs as [|b bs IH]; intros w Hinv Hwf; simpl; [by exists w|].
  assert (∃ p w1, run_build (Some a) b w = Ret p w1
                  ∧ db_inv a w1 ∧ routing_wf a w1)
    as (p & w1 & Hrun & Hinv1 & Hwf1).
  { destruct b; simpl;
      [ by apply GetOrCreateFrame_wf | by apply GetOrCreateSlice_wf
      | by apply GetOrCreateFragment_inv ]. }
  unfold bind at 1. unfold bind at 1. rewrite Hrun. unfold ret at 1.
  by apply IH.
Qed.

Lemma built_database_routes a name (bs : list Build) w slice bitmap :
  database_store w !! a = Some (new_database name) →
  ∃ w' r,
    run_builds (Some a) bs w = Ret () w'
    ∧ GetFragmentForBitmap (Some a) slice bitmap w' = Ret r w'.
Proof.
  intros Hnew.
  destruct (run_builds_inv a bs w (db_inv_new _ _ _ Hnew)
              (routing_wf_new _ _ _ Hnew)) as (w' & Hrun & _ & Hwf).
  destruct (GetFragmentForBitmap_returns a w' slice bitmap Hwf) as [r Hr].
  by exists w', r.
Qed.

(** C6. Deterministic routing: GetFragmentForBitmap only reads.  On the heap
    left by any calls that built up a Database, it returns, the heap (the
    rings in it included) is then the one it started from, and a second
    call with the same slice and a bitmap of the same id and frame type,
    whatever its filter, returns the same fragment and the same error.  On
    any heap at all, a call that returns has changed nothing and is
    repeated with the same result. *)
Theorem deterministic_routing (w0 : World) (a : nat) (name : string)
    (bs : list Build) (slice : ptr) (bitmap : Bitmap) :
  database_store w0 !! a = Some (new_database name) →
  (∃ w r,
     run_builds (Some a) bs w0 = Ret () w
     ∧ GetFragmentForBitmap (Some a) slice bitmap w = Ret r w
     ∧ ∀ bitmap',
         Id bitmap' = Id bitmap → FrameType bitmap' = FrameType bitmap →
         GetFragmentForBitmap (Some a) slice bitmap' w = Ret r w)
  ∧ (∀ w d r w',
       GetFragmentForBitmap d slice bitmap w = Ret r w' →
       w' = w
       ∧ ∀ bitmap',
           Id bitmap' = Id bitmap → FrameType bitmap' = FrameType bitmap →
           GetFragmentForBitmap d slice bitmap' w' = Ret r w').
Proof.
  intros Hnew.
  assert (∀ w d r w',
            GetFragmentForBitmap d slice bitmap w = Ret r w' →
            w' = w
            ∧ ∀ bitmap',
                Id bitmap' = Id bitmap → FrameType bitmap' = FrameType bitmap →
                GetFragmentForBitmap d slice bitmap' w' = Ret r w') as Hreads.
  { intros w d r w' Hrun.
    pose proof (reads_GetFragmentForBitmap _ _ _ _ _ _ Hrun) as <-.
    split; [done|]. intros bitmap' Hid Hft.
    rewrite <- Hrun. unfold GetFragmentForBitmap. by rewrite Hid, Hft. }
  split; [|done].
  destruct (built_database_routes a name bs w0 slice bitmap Hnew)
    as (w & r & Hrun & Hroute).
  exists w, r. split; [done|]. split; [done|].
  by apply (Hreads w (Some a) r w).
Qed.


(** *** Searches by key *)

Lemma first_some_app {A R} (g : A → option R) (l k : list A) :
  first_some g (l ++ k)
  = match first_some g l with
    | Some r => Some r
    | None => first_some g k
    end.
Proof.
  induction l as [|x l IH]; simpl; [done|]. by destruct (g x).
Qed.

Lemma first_some_ext {A R} (g g' : A → option R) (l : list A) :
  (∀ x, x ∈ l → g x = g' x) → first_some g l = first_some g' l.
Proof.
  induction l as [|x l IH]; intros Hext; simpl; [done|].
  rewrite (Hext x) by left. destruct (g' x); [done|].
  apply IH. intros y Hy. apply Hext. by right.
Qed.

Lemma key_hit_None {A K} `{EqDecision K} (store : list A) (key : A → K) k
    (l : list ptr) (ks : list K) :
  (λ p, key <$> deref store p) <$> l = Some <$> ks →
  first_some (key_hit store key k) l = None ↔ k ∉ ks.
Proof.
  revert ks. induction l as [|p l IH]; intros [|k0 ks] Heq; try done.
  - simpl. split; [intros _; apply not_elem_of_nil|done].
  - rewrite !fmap_cons in Heq. injection Heq as Hp Hl.
    simpl. unfold key_hit at 1.
    destruct (deref store p) as [x|]; simpl in Hp; [|done].
    injection Hp as <-. rewrite not_elem_of_cons.
    destruct (decide (key x = k)) as [->|Hne].
    + split; [done|]. by intros [? _].
    + rewrite (IH ks Hl). split; [by split|by intros [_ ?]].
Qed.

Lemma key_hit_Some {A K} `{EqDecision K} (store : list A) (key : A → K) k
    (l : list ptr) r :
  first_some (key_hit store key k) l = Some r →
  ∃ p, r = (p, None) ∧ p ∈ l ∧ key <$> deref store p = Some k.
Proof.
  induction l as [|p l IH]; simpl; [done|].
  destruct (key_hit store key k p) as [r'|] eqn:Hhit.
  - intros [= <-]. exists p. unfold key_hit in Hhit.
    destruct (deref store p) as [x|]; [|done].
    destruct (decide _) as [<-|]; [|done]. inversion Hhit; subst.
    split; [done|]. split; [left|done].
  - intros (p' & ? & ? & ?)%IH. exists p'. split_and!; [done|by right|done].
Qed.

Lemma key_hit_app {A K} `{EqDecision K} (store ext : list A) (key : A → K)
    k p :
  is_Some (deref store p) →
  key_hit (store ++ ext) key k p = key_hit store key k p.
Proof. intros Hp. unfold key_hit. by rewrite deref_app. Qed.

Lemma keys_live {A K} (store : list A) (key : A → K) (l : list ptr)
    (ks : list K) :
  (λ p, key <$> deref store p) <$> l = Some <$> ks →
  Forall (λ p, is_Some (deref store p)) l.
Proof.
  intros Heq. apply Forall_forall. intros p Hp.
  apply (list_elem_of_fmap_2 (λ p, key <$> deref store p)) in Hp.
  rewrite Heq in Hp. apply list_elem_of_fmap in Hp as (k & Hk & _).
  destruct (deref store p); [by eexists|done].
Qed.

Lemma keys_app {A K} (store ext : list A) (key : A → K) (l : list ptr)
    (ks : list K) :
  (λ p, key <$> deref store p) <$> l = Some <$> ks →
  (λ p, key <$> deref (store ++ ext) p) <$> l = Some <$> ks.
Proof.
  intros Heq. rewrite <- Heq. apply list_fmap_ext. intros i p Hp.
  pose proof (keys_live _ _ _ _ Heq) as Hlive.
  rewrite Forall_forall in Hlive.
  rewrite deref_app; [done|]. apply Hlive. by eapply list_elem_of_lookup_2.
Qed.

(** *** What a request registers *)

Lemma GetOrCreateSlice_registered a i w names ids :
  registered a w names ids →
  ∃ p w',
    GetOrCreateSlice (Some a) i w = Ret p w'
    ∧ registered a w' names (register_slice ids i)
    ∧ getSlice (Some a) i w' = Ret (p, None) w'
    ∧ slice_id <$> deref (slice_store w') p = Some i
    ∧ (i ∈ ids → w' = w).
Proof.
  intros (db & Hdb & Hnames & Hids).
  pose proof (keys_live _ _ _ _ Hids) as Hlive.
  pose proof (getSlice_run _ _ i _ Hdb Hlive) as Hget.
  change (slice_hit w i) with (key_hit (slice_store w) slice_id i) in Hget.
  pose proof (key_hit_None (slice_store w) slice_id i _ _ Hids) as Hnone.
  unfold GetOrCreateSlice. rewrite (bind_Ret _ _ _ _ _ Hget).
  unfold register_slice.
  destruct (first_some _ (slices db)) as [r|] eqn:Hfirst.
  - destruct (key_hit_Some _ _ _ _ _ Hfirst) as (p & -> & Hp & Hkey).
    assert (i ∈ ids) as Hin.
    { destruct (decide (i ∈ ids)) as [|Hnot]; [done|].
      by apply Hnone in Hnot. }
    rewrite bool_decide_eq_true_2 by done. simpl.
    exists p, w. split_and!; try done. by exists db.
  - assert (i ∉ ids) as Hnot by (by apply Hnone).
    rewrite bool_decide_eq_false_2 by done. simpl.
    rewrite (addSlice_run _ _ _ _ Hdb).
    pose proof (after_addSlice_database _ _ i _ Hdb) as Hdb'.
    assert (Forall (λ p, is_Some (deref (slice_store w ++ [{| slice_id := i |}])
                                    p))
              (slices db ++ [Some (length (slice_store w))])) as Hlive'.
    { apply Forall_app. split.
      - eapply Forall_impl; [exact Hlive|]. intros p. apply deref_app_valid.
      - apply Forall_singleton. simpl. rewrite lookup_snoc_here.
        by eexists. }
    eexists _, _. split; [done|]. split_and!.
    + eexists. split; [exact Hdb'|]. split; [exact Hnames|].
      unfold slice_ids. simpl. rewrite !fmap_app. f_equal.
      * by apply keys_app.
      * simpl. by rewrite lookup_snoc_here.
    + rewrite (getSlice_run _ _ i _ Hdb' Hlive'). simpl.
      change (slice_hit (after_addSlice a db i w) i)
        with (key_hit (slice_store w ++ [{| slice_id := i |}]) slice_id i).
      rewrite first_some_app.
      rewrite (first_some_ext _ (key_hit (slice_store w) slice_id i)); last first.
      { intros p Hp. apply key_hit_app. rewrite Forall_forall in Hlive.
        by apply Hlive. }
      rewrite Hfirst. simpl. unfold key_hit. simpl.
      rewrite lookup_snoc_here. simpl. by rewrite decide_True.
    + simpl. by rewrite lookup_snoc_here.
    + done.
Qed.

Lemma GetOrCreateFrame_registered a name w names ids :
  registered a w names ids →
  ∃ p w',
    GetOrCreateFrame (Some a) name w = Ret p w'
    ∧ registered a w' (register_frame names name) ids
    ∧ frame_name <$> deref (frame_store w') p = Some name
    ∧ (IsValidFrame None name = true →
       getFrame (Some a) name w' = Ret (p, None) w')
    ∧ (IsValidFrame None name = true → name ∈ names → w' = w).
Proof.
  intros (db & Hdb & Hnames & Hids).
  pose proof (keys_live _ _ _ _ Hnames) as Hlive.
  pose proof (getFrame_run _ _ name _ Hdb Hlive) as Hget.
  change (frame_hit w name) with (key_hit (frame_store w) frame_name name)
    in Hget.
  change (IsValidFrame (Some a) name) with (IsValidFrame None name) in Hget.
  pose proof (key_hit_None (frame_store w) frame_name name _ _ Hnames)
    as Hnone.
  unfold GetOrCreateFrame. rewrite (bind_Ret _ _ _ _ _ Hget).
  unfold register_frame.
  assert (∃ p w',
            addFrame (Some a) name w = Ret p w'
            ∧ registered a w' (names ++ [name]) ids
            ∧ frame_name <$> deref (frame_store w') p = Some name
            ∧ (first_some (key_hit (frame_store w) frame_name name) (frames db)
               = None →
               IsValidFrame None name = true →
               getFrame (Some a) name w' = Ret (p, None) w'))
    as (pn & wn & Hadd & Hregn & Hnamen & Hgetn).
  { rewrite (addFrame_run _ _ _ _ Hdb).
    pose proof (after_addFrame_database _ _ name _ Hdb) as Hdb'.
    assert (Forall (λ p, is_Some (deref (frame_store w
                                           ++ [{| frame_name := name |}]) p))
              (frames db ++ [Some (length (frame_store w))])) as Hlive'.
    { apply Forall_app. split.
      - eapply Forall_impl; [exact Hlive|]. intros p. apply deref_app_valid.
      - apply Forall_singleton. simpl. rewrite lookup_snoc_here.
        by eexists. }
    eexists _, _. split; [done|]. split_and!.
    - eexists. split; [exact Hdb'|]. split; [|exact Hids].
      unfold frame_names. simpl. rewrite !fmap_app. f_equal.
      + by apply keys_app.
      + simpl. by rewrite lookup_snoc_here.
    - simpl. by rewrite lookup_snoc_here.
    - intros Hfirst Hvalid.
      rewrite (getFrame_run _ _ name _ Hdb' Hlive').
      change (IsValidFrame (Some a) name) with (IsValidFrame None name).
      rewrite Hvalid. simpl.
      change (frame_hit (after_addFrame a db name w) name)
        with (key_hit (frame_store w ++ [{| frame_name := name |}])
                frame_name name).
      rewrite first_some_app.
      rewrite (first_some_ext _ (key_hit (frame_store w) frame_name name));
        last first.
      { intros p Hp. apply key_hit_app. rewrite Forall_forall in Hlive.
        by apply Hlive. }
      rewrite Hfirst. simpl. unfold key_hit. simpl.
      rewrite lookup_snoc_here. simpl. by rewrite decide_True. }
  destruct (IsValidFrame None name) eqn:Hvalid; simpl.
  - destruct (first_some _ (frames db)) as [r|] eqn:Hfirst.
    + destruct (key_hit_Some _ _ _ _ _ Hfirst) as (p & -> & Hp & Hkey).
      assert (name ∈ names) as Hin.
      { destruct (decide (name ∈ names)) as [|Hnot]; [done|].
        by apply Hnone in Hnot. }
      rewrite bool_decide_eq_true_2 by done. simpl.
      exists p, w. split_and!.
      * done.
      * by exists db.
      * done.
      * intros _. by rewrite Hget.
      * done.
    + assert (name ∉ names) as Hnot by (by apply Hnone).
      rewrite bool_decide_eq_false_2 by done. simpl.
      exists pn, wn. split_and!.
      * done.
      * done.
      * done.
      * intros _. by apply Hgetn.
      * by intros _ Hin.
  - exists pn, wn. split_and!; try done.
Qed.

Lemma same_registry_refl w : same_registry w w.
Proof. by split_and!. Qed.

Lemma same_registry_trans w1 w2 w3 :
  same_registry w1 w2 → same_registry w2 w3 → same_registry w1 w3.
Proof.
  intros (? & ? & ?) (? & ? & ?). split_and!; by etrans.
Qed.

Lemma GetOrCreateFragment_same_registry d frame slice i :
  respects same_registry (GetOrCreateFragment d frame slice i).
Proof.
  unfold GetOrCreateFragment, addFragment, getFragment, AddFragment,
    GetFragment, GetFrameSliceIntersect, store_FSI.
  respects_steps same_registry_refl same_registry_trans
    ltac:(first [ apply respects_alloc; intros ?; by split_and!
                | apply respects_store_at; intros ? ?; by split_and! ]).
Qed.

Lemma registered_same_registry a w w' names ids :
  same_registry w w' → registered a w names ids → registered a w' names ids.
Proof.
  intros (Hd & Hf & Hs) (db & Hdb & Hnames & Hids). exists db.
  unfold frame_names, slice_ids. by rewrite Hd, Hf, Hs.
Qed.

Lemma registered_new a name w :
  database_store w !! a = Some (new_database name) → registered a w [] [].
Proof. intros Hdb. by exists (new_database name). Qed.

(** the three invariants of a database under construction, together *)
Lemma run_builds_registered a (bs : list Build) : ∀ w names ids,
  db_inv a w → routing_wf a w → registered a w names ids →
  ∃ w',
    run_builds (Some a) bs w = Ret () w'
    ∧ db_inv a w' ∧ routing_wf a w'
    ∧ registered a w' (foldl build_frames names bs)
        (foldl build_slices ids bs).
Proof.
  unfold run_builds.
  induction bs as [|b bs IH]; intros w names ids Hinv Hwf Hreg; simpl;
    [by exists w|].
  assert (∃ p w1, run_build (Some a) b w = Ret p w1
                  ∧ db_inv a w1 ∧ routing_wf a w1
                  ∧ registered a w1 (build_frames names b)
                      (build_slices ids b))
    as (p & w1 & Hrun & Hinv1 & Hwf1 & Hreg1).
  { destruct b as [name|i|frame slice i]; simpl.
    - destruct (GetOrCreateFrame_wf a name w Hinv Hwf)
        as (p & w1 & Hrun & ? & ?).
      destruct (GetOrCreateFrame_registered a name w _ _ Hreg)
        as (p' & w1' & Hrun' & ? & _).
      rewrite Hrun in Hrun'. injection Hrun' as <- <-. by exists p, w1.
    - destruct (GetOrCreateSlice_wf a i w Hinv Hwf)
        as (p & w1 & Hrun & ? & ?).
      destruct (GetOrCreateSlice_registered a i w _ _ Hreg)
        as (p' & w1' & Hrun' & ? & _).
      rewrite Hrun in Hrun'. injection Hrun' as <- <-. by exists p, w1.
    - destruct (GetOrCreateFragment_inv a frame slice i w Hinv Hwf)
        as (p & w1 & Hrun & ? & ?).
      exists p, w1. split_and!; try done.
      eapply registered_same_registry; [|exact Hreg].
      by eapply GetOrCreateFragment_same_registry. }
  unfold bind at 1. unfold bind at 1. rewrite Hrun. unfold ret at 1.
  by apply IH.
Qed.

Lemma built_database a name (bs : list Build) w :
  database_store w !! a = Some (new_database name) →
  ∃ w',
    run_builds (Some a) bs w = Ret () w'
    ∧ db_inv a w' ∧ routing_wf a w'
    ∧ registered a w' (foldl build_frames [] bs) (foldl build_slices [] bs).
Proof.
  intros Hnew.
  apply run_builds_registered;
    [by eapply db_inv_new|by eapply routing_wf_new|by eapply registered_new].
Qed.

(** *** The lists of registered names and ids *)

Lemma elem_of_register_slice ids i j :
  j ∈ register_slice ids i ↔ j ∈ ids ∨ j = i.
Proof.
  unfold register_slice. case_bool_decide as Hin.
  - split; [by left|]. by intros [?| ->].
  - by rewrite elem_of_app, list_elem_of_singleton.
Qed.

Lemma NoDup_register_slice ids i : NoDup ids → NoDup (register_slice ids i).
Proof.
  intros Hnd. unfold register_slice. case_bool_decide as Hin; [done|].
  apply NoDup_app. split_and!; [done| |apply NoDup_singleton].
  intros j Hj ->%list_elem_of_singleton. done.
Qed.

Lemma elem_of_build_slices (bs : list Build) : ∀ ids j,
  j ∈ foldl build_slices ids bs ↔ j ∈ ids ∨ BuildSlice j ∈ bs.
Proof.
  induction bs as [|b bs IH]; intros ids j; simpl.
  - split; [by left|]. intros [?|?%elem_of_nil]; done.
  - rewrite IH, elem_of_cons. destruct b as [name|i|frame slice i]; simpl.
    + split; [intros [?|?]; auto|]. intros [?|[?|?]]; [auto|done|auto].
    + rewrite elem_of_register_slice.
      split; [intros [[?| ->]|?]; auto|].
      intros [?|[[= ->]|?]]; auto.
    + split; [intros [?|?]; auto|]. intros [?|[?|?]]; [auto|done|auto].
Qed.

Lemma NoDup_build_slices (bs : list Build) : ∀ ids,
  NoDup ids → NoDup (foldl build_slices ids bs).
Proof.
  induction bs as [|b bs IH]; intros ids Hnd; simpl; [done|].
  apply IH. destruct b; simpl; [done|by apply NoDup_register_slice|done].
Qed.

Lemma elem_of_register_frame names name n :
  n ∈ register_frame names name ↔ n ∈ names ∨ n = name.
Proof.
  unfold register_frame.
  destruct (IsValidFrame None name && bool_decide (name ∈ names)) eqn:Hc.
  - apply andb_true_iff in Hc as [_ Hin%bool_decide_eq_true].
    split; [by left|]. by intros [?| ->].
  - by rewrite elem_of_app, list_elem_of_singleton.
Qed.

Lemma NoDup_valid_register_frame names name :
  NoDup (filter (λ n, IsValidFrame None n = true) names) →
  NoDup (filter (λ n, IsValidFrame None n = true) (register_frame names name)).
Proof.
  intros Hnd. unfold register_frame.
  destruct (IsValidFrame None name) eqn:Hvalid; simpl.
  - case_bool_decide as Hin; [done|].
    rewrite filter_app, filter_cons_True, filter_nil by done.
    apply NoDup_app. split_and!; [done| |apply NoDup_singleton].
    intros n [_ Hn]%list_elem_of_filter ->%list_elem_of_singleton. done.
  - rewrite filter_app, filter_cons_False, filter_nil, app_nil_r; [done|].
    by rewrite Hvalid.
Qed.

Lemma elem_of_build_frames (bs : list Build) : ∀ names n,
  n ∈ foldl build_frames names bs ↔ n ∈ names ∨ BuildFrame n ∈ bs.
Proof.
  induction bs as [|b bs IH]; intros names n; simpl.
  - split; [by left|]. intros [?|?%elem_of_nil]; done.
  - rewrite IH, elem_of_cons. destruct b as [name|i|frame slice i]; simpl.
    + rewrite elem_of_register_frame.
      split; [intros [[?| ->]|?]; auto|].
      intros [?|[[= ->]|?]]; auto.
    + split; [intros [?|?]; auto|]. intros [?|[?|?]]; [auto|done|auto].
    + split; [intros [?|?]; auto|]. intros [?|[?|?]]; [auto|done|auto].
Qed.

Lemma NoDup_valid_build_frames (bs : list Build) : ∀ names,
  NoDup (filter (λ n, IsValidFrame None n = true) names) →
  NoDup (filter (λ n, IsValidFrame None n = true)
           (foldl build_frames names bs)).
Proof.
  induction bs as [|b bs IH]; intros names Hnd; simpl; [done|].
  apply IH. destruct b; simpl; [by apply NoDup_valid_register_frame|done..].
Qed.

(** *** Registered frames and slices *)

(** X1. The slices of a Database are the distinct requested ids: after any
    calls of GetOrCreateFrame, GetOrCreateSlice and GetOrCreateFragment on a
    new Database, its slice list holds, in the order of the first requests,
    one slice per id that GetOrCreateSlice was called with, and no two
    slices of one id. *)
Theorem built_slices_are_the_requested_ids (w : World) (a : nat)
    (name : string) (bs : list Build) :
  database_store w !! a = Some (new_database name) →
  ∃ w' db',
    run_builds (Some a) bs w = Ret () w'
    ∧ database_store w' !! a = Some db'
    ∧ slice_ids w' db' = Some <$> foldl build_slices [] bs
    ∧ NoDup (foldl build_slices [] bs)
    ∧ ∀ i, i ∈ foldl build_slices [] bs ↔ BuildSlice i ∈ bs.
Proof.
  intros Hnew.
  destruct (built_database a name bs w Hnew)
    as (w' & Hrun & _ & _ & db' & Hdb' & _ & Hids).
  exists w', db'. split_and!; try done.
  - apply NoDup_build_slices, NoDup_nil_2.
  - intros i. rewrite elem_of_build_slices. split; [|by right].
    by intros [?%elem_of_nil|?].
Qed.

(** X2. The frames of a Database are the requested names, those of the
    allow-list once: after any calls on a new Database its frame list holds
    exactly the names GetOrCreateFrame was called with, and a name of the
    allow-list is the name of one frame only. *)
Theorem built_frames_are_the_requested_names (w : World) (a : nat)
    (name : string) (bs : list Build) :
  database_store w !! a = Some (new_database name) →
  ∃ w' db',
    run_builds (Some a) bs w = Ret () w'
    ∧ database_store w' !! a = Some db'
    ∧ frame_names w' db' = Some <$> foldl build_frames [] bs
    ∧ NoDup (filter (λ n, IsValidFrame None n = true)
               (foldl build_frames [] bs))
    ∧ ∀ n, n ∈ foldl build_frames [] bs ↔ BuildFrame n ∈ bs.
Proof.
  intros Hnew.
  destruct (built_database a name bs w Hnew)
    as (w' & Hrun & _ & _ & db' & Hdb' & Hnames & _).
  exists w', db'. split_and!; try done.
  - apply NoDup_valid_build_frames. rewrite filter_nil. apply NoDup_nil_2.
  - intros n. rewrite elem_of_build_frames. split; [|by right].
    by intros [?%elem_of_nil|?].
Qed.

(** X3. NumSlices counts the distinct requested slice ids: on a Database
    built by any calls it changes nothing and returns the number of
    distinct ids GetOrCreateSlice was called with, and it returns 0 with
    the error "Database is empty" when there was no such call. *)
Theorem NumSlices_counts_requested_ids (w : World) (a : nat) (name : string)
    (bs : list Build) :
  database_store w !! a = Some (new_database name) →
  let ids := foldl build_slices [] bs in
  ∃ w',
    run_builds (Some a) bs w = Ret () w'
    ∧ NumSlices (Some a) w'
      = Ret (if decide (ids = []) then (0, Some EmptyDatabase)
             else (Z.of_nat (length ids), None)) w'
    ∧ (ids = [] ↔ ∀ i, BuildSlice i ∉ bs).
Proof.
  intros Hnew ids.
  destruct (built_database a name bs w Hnew)
    as (w' & Hrun & _ & _ & db' & Hdb' & _ & Hids).
  exists w'. split; [done|]. split.
  - unfold NumSlices, load_Database.
    rewrite (bind_Ret _ _ _ _ _ (load_Some database_store _ _ _ Hdb')).
    assert (length (slices db') = length ids) as ->.
    { unfold slice_ids in Hids. fold ids in Hids.
      apply (f_equal length) in Hids. by rewrite !length_fmap in Hids. }
    destruct ids as [|i ids']; [done|].
    rewrite decide_False by (simpl; lia). by rewrite decide_False.
  - split.
    + intros Hnil i Hi.
      assert (i ∈ ids) as Hin by (apply elem_of_build_slices; by right).
      rewrite Hnil in Hin. by apply elem_of_nil in Hin.
    + intros Hnone. destruct ids as [|i ids'] eqn:Hids'; [done|]. exfalso.
      assert (i ∈ foldl build_slices [] bs) as Hin
        by (fold ids; rewrite Hids'; left).
      apply elem_of_build_slices in Hin as [?%elem_of_nil|Hin]; [done|].
      by apply (Hnone i).
Qed.

(** X4. GetOrCreateSlice is idempotent: on a Database built by any calls it
    returns a slice of the requested id, and a second call with that id
    returns the same slice and changes nothing. *)
Theorem GetOrCreateSlice_is_idempotent (w : World) (a : nat) (name : string)
    (bs : list Build) (i : Z) :
  database_store w !! a = Some (new_database name) →
  ∃ w1 p w2,
    run_builds (Some a) bs w = Ret () w1
    ∧ GetOrCreateSlice (Some a) i w1 = Ret p w2
    ∧ slice_id <$> deref (slice_store w2) p = Some i
    ∧ GetOrCreateSlice (Some a) i w2 = Ret p w2.
Proof.
  intros Hnew.
  destruct (built_database a name bs w Hnew) as (w1 & Hrun & _ & _ & Hreg).
  destruct (GetOrCreateSlice_registered a i w1 _ _ Hreg)
    as (p & w2 & Hcall & _ & Hget & Hid & _).
  exists w1, p, w2. split_and!; try done.
  unfold GetOrCreateSlice. by rewrite (bind_Ret _ _ _ _ _ Hget).
Qed.

(** X5. GetOrCreateFrame is idempotent on the names of the allow-list: on a
    Database built by any calls it returns a frame of the requested name,
    and a second call with that name returns the same frame and changes
    nothing. *)
Theorem GetOrCreateFrame_is_idempotent_on_valid_names (w : World) (a : nat)
    (name : string) (bs : list Build) (n : string) :
  database_store w !! a = Some (new_database name) →
  IsValidFrame None n = true →
  ∃ w1 p w2,
    run_builds (Some a) bs w = Ret () w1
    ∧ GetOrCreateFrame (Some a) n w1 = Ret p w2
    ∧ frame_name <$> deref (frame_store w2) p = Some n
    ∧ GetOrCreateFrame (Some a) n w2 = Ret p w2.
Proof.
  intros Hnew Hvalid.
  destruct (built_database a name bs w Hnew) as (w1 & Hrun & _ & _ & Hreg).
  destruct (GetOrCreateFrame_registered a n w1 _ _ Hreg)
    as (p & w2 & Hcall & _ & Hname & Hget & _).
  exists w1, p, w2. split_and!; try done.
  unfold GetOrCreateFrame. by rewrite (bind_Ret _ _ _ _ _ (Hget Hvalid)).
Qed.

(** X6. GetSliceForProfile finds the slices that were requested: on a Database
    built by any calls it changes nothing; when GetOrCreateSlice was called
    with the slice id of the profile it returns, without error, a slice of
    that id, and otherwise it returns no slice and the error
    SliceDoesNotExist. *)
Theorem GetSliceForProfile_finds_requested_slices (w : World) (a : nat)
    (name : string) (bs : list Build) (profile_id : Z) :
  database_store w !! a = Some (new_database name) →
  ∃ w' r,
    run_builds (Some a) bs w = Ret () w'
    ∧ GetSliceForProfile (Some a) profile_id w' = Ret r w'
    ∧ (BuildSlice (GetSlice profile_id) ∈ bs →
       r.2 = None
       ∧ slice_id <$> deref (slice_store w') r.1 = Some (GetSlice profile_id))
    ∧ (BuildSlice (GetSlice profile_id) ∉ bs →
       r = (None, Some SliceDoesNotExistError)).
Proof.
  intros Hnew.
  destruct (built_database a name bs w Hnew)
    as (w' & Hrun & _ & _ & db' & Hdb' & _ & Hids).
  pose proof (keys_live _ _ _ _ Hids) as Hlive.
  pose proof (getSlice_run _ _ (GetSlice profile_id) _ Hdb' Hlive) as Hget.
  change (slice_hit w' (GetSlice profile_id))
    with (key_hit (slice_store w') slice_id (GetSlice profile_id)) in Hget.
  pose proof (key_hit_None (slice_store w') slice_id (GetSlice profile_id)
                _ _ Hids) as Hnone.
  assert (GetSlice profile_id ∈ foldl build_slices [] bs
          ↔ BuildSlice (GetSlice profile_id) ∈ bs) as Hreq.
  { rewrite elem_of_build_slices. split; [|by right].
    by intros [?%elem_of_nil|?]. }
  eexists w', _. split; [done|]. split; [exact Hget|].
  destruct (first_some _ (slices db')) as [r|] eqn:Hfirst.
  - destruct (key_hit_Some _ _ _ _ _ Hfirst) as (p & -> & _ & Hkey).
    split; [done|]. intros Hnot. exfalso.
    rewrite <- Hreq in Hnot. by apply Hnone in Hnot.
  - split; [|done]. intros Hin. exfalso.
    apply Hreq in Hin. by apply (proj1 Hnone).
Qed.

(** *** The allow-list and the slice of an item *)

(** X7. stringInSlice is list membership, and IsValidFrame holds exactly of
    the names in the configured list of supported frames, or in the list
    ["default"] when none is configured. *)
Theorem IsValidFrame_is_membership (d : ptr) (name : string) :
  (∀ a l, stringInSlice a l = true ↔ a ∈ l)
  ∧ (IsValidFrame d name = true
     ↔ name ∈ default ["default"%string]
                (config_arrays !! "supported_frames"%string)).
Proof.
  assert (∀ a l, stringInSlice a l = true ↔ a ∈ l) as Hin.
  { intros a l. induction l as [|b l IH]; simpl.
    - split; [done|by intros ?%elem_of_nil].
    - rewrite elem_of_cons. destruct (decide (b = a)) as [->|Hne].
      + split; auto.
      + rewrite IH. split; [auto|]. by intros [->|?]. }
  split; [done|]. unfold IsValidFrame, GetStringArrayDefault. apply Hin.
Qed.

(** X8. GetSlice cuts the item ids into consecutive ranges of SLICE_WIDTH
    ids: for a width of at least 2 and a 64-bit unsigned id, the slice
    index is not negative, the id lies in the range of its slice, and a
    larger id never has a smaller slice. *)
Theorem GetSlice_ranges (profile_id profile_id' : Z) :
  2 ≤ SLICE_WIDTH →
  0 ≤ profile_id ≤ profile_id' → profile_id' < 2 ^ 64 →
  0 ≤ GetSlice profile_id
  ∧ SLICE_WIDTH * GetSlice profile_id ≤ profile_id
    < SLICE_WIDTH * (GetSlice profile_id + 1)
  ∧ GetSlice profile_id ≤ GetSlice profile_id'.
Proof.
  intros Hwidth [Hlo Hle] Hhi.
  assert (∀ p, 0 ≤ p < 2 ^ 64 → GetSlice p = p `div` SLICE_WIDTH) as Hdiv.
  { intros p [Hp0 Hp1]. unfold GetSlice, int_of_uint64.
    assert (0 ≤ p `div` SLICE_WIDTH < 2 ^ 63) as [Hq0 Hq1].
    { split; [apply Z.div_pos; lia|].
      apply Z.div_lt_upper_bound; [lia|].
      assert (2 ^ 64 = 2 * 2 ^ 63) as Hpow by done.
      assert (0 < 2 ^ 63) as Hpos by done.
      assert (2 * 2 ^ 63 ≤ SLICE_WIDTH * 2 ^ 63)
        by (apply Z.mul_le_mono_nonneg_r; lia).
      lia. }
    rewrite Z.mod_small; [lia|].
    assert (2 ^ 64 = 2 * 2 ^ 63) by done. lia. }
  rewrite !Hdiv by lia.
  split; [apply Z.div_pos; lia|]. split.
  - assert (0 < SLICE_WIDTH) as Hpos by lia.
    pose proof (Z.mul_div_le profile_id SLICE_WIDTH Hpos).
    pose proof (Z.mul_succ_div_gt profile_id SLICE_WIDTH Hpos).
    lia.
  - apply Z.div_le_mono; lia.
Qed.

(** *** Pairs without an FSI, and fragments asked for twice *)

Lemma fsi_hit_None w frame slice (l : list ptr) (ps : list (ptr * ptr)) :
  pair_of w <$> l = Some <$> ps →
  (frame, slice) ∉ ps →
  first_some (fsi_hit w frame slice) l = None.
Proof.
  revert ps. induction l as [|q l IH]; intros [|pr ps] Heq Hnot; try done.
  rewrite !fmap_cons in Heq. injection Heq as Hq Hl.
  apply not_elem_of_cons in Hnot as [Hne Hnot].
  simpl. unfold fsi_hit at 1. unfold pair_of in Hq.
  destruct (deref (fsi_store w) q) as [fs|]; [|done].
  injection Hq as <-.
  destruct (decide _) as [[<- <-]|]; [done|]. by eapply IH.
Qed.

Lemma fsi_hit_addFragment q fs c i w frame slice q' :
  fsi_store w !! q = Some fs →
  fsi_hit (after_addFragment q fs c i w) frame slice q'
  = fsi_hit w frame slice q'.
Proof.
  intros Hfs. pose proof (lookup_lt_Some _ _ _ Hfs) as Hlt.
  unfold fsi_hit. destruct q' as [j|]; [|done]. simpl.
  destruct (decide (j = q)) as [->|Hne].
  - by rewrite list_lookup_insert_eq, Hfs.
  - by rewrite list_lookup_insert_ne.
Qed.

(** what GetOrCreateFragment returns and leaves *)
Lemma GetOrCreateFragment_step a db frame slice i w :
  db_inv a w → routing_wf a w → database_store w !! a = Some db →
  ∃ p w',
    GetOrCreateFragment (Some a) frame slice i w = Ret p w'
    ∧ (frame ∈ frames db ∧ slice ∈ slices db →
       fragment_id <$> deref (fragment_store w') p = Some i
       ∧ getFragment (Some a) frame slice i w' = Ret (p, None) w')
    ∧ (¬ (frame ∈ frames db ∧ slice ∈ slices db) → p = None ∧ w' = w)
    ∧ (w' = w
       ∨ ∃ j fs c,
           Some j ∈ frame_slice_intersects db
           ∧ fsi_store w !! j = Some fs
           ∧ fsi_hashring fs = Some c
           ∧ first_some (key_hit (fragment_store w) fragment_id i)
               (fsi_fragments fs) = None
           ∧ w' = after_addFragment j fs c i w).
Proof.
  intros Hinv Hwf Hdb.
  pose proof Hinv as (db0 & ps & Hdb0 & _ & _ & _ & _ & Hpairs & _ & Hmem).
  assert (db0 = db) as -> by congruence. clear Hdb0.
  pose proof Hwf as (db0 & Hdb0 & _ & _ & Hfsis).
  assert (db0 = db) as -> by congruence. clear Hdb0.
  assert (Forall (λ q, is_Some (deref (fsi_store w) q))
            (frame_slice_intersects db)) as Hlive
    by (by eapply pair_of_valid).
  destruct (decide (frame ∈ frames db ∧ slice ∈ slices db)) as [Hin|Hout].
  - assert ((frame, slice) ∈ ps) as Hps by (by apply Hmem).
    apply (list_elem_of_fmap_2 Some) in Hps. rewrite <- Hpairs in Hps.
    apply list_elem_of_fmap in Hps as (q0 & Hq0 & Hq0in).
    destruct (first_some_fsi_hit w frame slice _ q0 Hq0in (eq_sym Hq0))
      as (q & Hhit & Hq & _).
    rewrite Forall_forall in Hfsis.
    destruct (Hfsis q Hq) as (fs & Hfs & [c Hring] & Hfrs).
    destruct q as [j|]; [|done]. simpl in Hfs.
    pose proof (GetFragment_run _ _ i _ Hfs Hfrs) as Hgetf.
    change (fragment_hit w i)
      with (key_hit (fragment_store w) fragment_id i) in Hgetf.
    destruct (first_some (key_hit (fragment_store w) fragment_id i)
                (fsi_fragments fs)) as [found|] eqn:Hfound.
    + destruct (key_hit_Some _ _ _ _ _ Hfound) as (p & -> & Hp & Hid).
      assert (getFragment (Some a) frame slice i w = Ret (p, None) w)
        as Hget.
      { unfold getFragment.
        rewrite (bind_Ret _ _ _ _ _
                   (GetFrameSliceIntersect_run _ _ _ _ _ Hdb Hlive)).
        by rewrite Hhit. }
      exists p, w. split_and!; [|done|done|by left].
      unfold GetOrCreateFragment. by rewrite (bind_Ret _ _ _ _ _ Hget).
    + pose proof (lookup_lt_Some _ _ _ Hfs) as Hlt.
      eexists _, _.
      split; [by eapply GetOrCreateFragment_creates|].
      split; [intros _|split; [done|right; by exists j, fs, c]].
      split; [simpl; by rewrite lookup_snoc_here|].
      unfold getFragment.
      erewrite bind_Ret; last first.
      { apply (GetFrameSliceIntersect_run a db frame slice
                 (after_addFragment j fs c i w) Hdb).
        eapply Forall_impl; [exact Hlive|]. intros [j'|] [fs' Hfs']; [|done].
        simpl in *. apply lookup_lt_is_Some.
        rewrite length_insert. by eapply lookup_lt_Some. }
      rewrite (first_some_ext _ (fsi_hit w frame slice))
        by (intros; by apply fsi_hit_addFragment).
      rewrite Hhit. simpl.
      rewrite (GetFragment_run j
                 (added_fragment fs c (Some (length (fragment_store w)))
                    {| fragment_id := i; fragment_process := None |})
                 i (after_addFragment j fs c i w)); last first.
      { simpl. apply Forall_app. split.
        - eapply Forall_impl; [exact Hfrs|]. intros p. apply deref_app_valid.
        - apply Forall_singleton. simpl. rewrite lookup_snoc_here.
          by eexists. }
      { simpl. by apply list_lookup_insert_eq. }
      simpl.
      change (fragment_hit (after_addFragment j fs c i w) i)
        with (key_hit (fragment_store w
                         ++ [{| fragment_id := i; fragment_process := None |}])
                fragment_id i).
      rewrite first_some_app.
      rewrite (first_some_ext _ (key_hit (fragment_store w) fragment_id i));
        last first.
      { intros p Hp. apply key_hit_app. rewrite Forall_forall in Hfrs.
        by apply Hfrs. }
      rewrite Hfound. simpl. unfold key_hit. simpl.
      rewrite lookup_snoc_here. simpl. by rewrite decide_True.
  - assert ((frame, slice) ∉ ps) as Hps by (by rewrite Hmem).
    pose proof (fsi_hit_None _ _ _ _ _ Hpairs Hps) as Hnone.
    exists None, w. split; [|split; [done|split; [done|by left]]].
    unfold GetOrCreateFragment, getFragment.
    unfold bind at 1. unfold bind at 1.
    rewrite (GetFrameSliceIntersect_run _ _ _ _ _ Hdb Hlive), Hnone. simpl.
    unfold addFragment. unfold bind at 1.
    by rewrite (GetFrameSliceIntersect_run _ _ _ _ _ Hdb Hlive), Hnone.
Qed.

(** X9. GetFrameSliceIntersect succeeds exactly on the pairs of the
    Database: on a Database built by any calls it changes nothing; for a
    frame and a slice that are both in the Database it returns, without
    error, an FSI of the Database that joins them, and for any other two
    pointers it returns no FSI and the error FrameSliceIntersectDoesNotExist. *)
Theorem GetFrameSliceIntersect_exactly_on_pairs (w : World) (a : nat)
    (name : string) (bs : list Build) (frame slice : ptr) :
  database_store w !! a = Some (new_database name) →
  ∃ w' db' r,
    run_builds (Some a) bs w = Ret () w'
    ∧ database_store w' !! a = Some db'
    ∧ GetFrameSliceIntersect (Some a) frame slice w' = Ret r w'
    ∧ (frame ∈ frames db' ∧ slice ∈ slices db' →
       r.2 = None ∧ r.1 ∈ frame_slice_intersects db'
       ∧ pair_of w' r.1 = Some (frame, slice))
    ∧ (¬ (frame ∈ frames db' ∧ slice ∈ slices db') →
       r = (None, Some FrameSliceIntersectDoesNotExistError)).
Proof.
  intros Hnew.
  destruct (built_database a name bs w Hnew) as (w' & Hrun & Hinv & _ & _).
  pose proof Hinv as (db' & ps & Hdb' & _ & _ & _ & _ & Hpairs & _ & Hmem).
  pose proof (GetFrameSliceIntersect_run _ _ frame slice _ Hdb'
                (pair_of_valid _ _ _ Hpairs)) as Hget.
  eexists w', db', _. split; [done|]. split; [done|]. split; [exact Hget|].
  split.
  - intros [Hf Hs].
    destruct (db_inv_cross_product a w' db' frame slice Hinv Hdb' Hf Hs)
      as [(q & Hq & Hqin & Hpair) _].
    rewrite Hget in Hq. injection Hq as Hq. by rewrite Hq.
  - intros Hout. assert ((frame, slice) ∉ ps) as Hps by (by rewrite Hmem).
    by rewrite (fsi_hit_None _ _ _ _ _ Hpairs Hps).
Qed.

(** X10. GetOrCreateFragment is idempotent and answers nil off the pairs: on a
    Database built by any calls, for a frame and a slice of the Database it
    returns a fragment of the requested id; for any other two pointers it
    returns nil, with no error, and changes nothing; in both cases a second
    call with the same arguments returns the same pointer and changes
    nothing. *)
Theorem GetOrCreateFragment_is_idempotent (w : World) (a : nat)
    (name : string) (bs : list Build) (frame slice : ptr) (i : SUUID) :
  database_store w !! a = Some (new_database name) →
  ∃ w1 db1 p w2,
    run_builds (Some a) bs w = Ret () w1
    ∧ database_store w1 !! a = Some db1
    ∧ GetOrCreateFragment (Some a) frame slice i w1 = Ret p w2
    ∧ GetOrCreateFragment (Some a) frame slice i w2 = Ret p w2
    ∧ (frame ∈ frames db1 ∧ slice ∈ slices db1 →
       fragment_id <$> deref (fragment_store w2) p = Some i)
    ∧ (¬ (frame ∈ frames db1 ∧ slice ∈ slices db1) → p = None ∧ w2 = w1).
Proof.
  intros Hnew.
  destruct (built_database a name bs w Hnew) as (w1 & Hrun & Hinv & Hwf & _).
  pose proof Hwf as (db1 & Hdb1 & _).
  destruct (GetOrCreateFragment_step a db1 frame slice i w1 Hinv Hwf Hdb1)
    as (p & w2 & Hcall & Hin & Hout & _).
  exists w1, db1, p, w2. split_and!; try done.
  - destruct (decide (frame ∈ frames db1 ∧ slice ∈ slices db1)) as [Hyes|Hno].
    + destruct (Hin Hyes) as [_ Hget]. unfold GetOrCreateFragment.
      by rewrite (bind_Ret _ _ _ _ _ Hget).
    + by destruct (Hout Hno) as [_ ->].
  - intros Hyes. by destruct (Hin Hyes).
Qed.

(** *** The rings of a database under construction *)

Lemma foldl_positions_pred (Q : string → Prop) elt (l : list Z) :
  ∀ m : gmap Z string,
    (∀ k v, m !! k = Some v → Q v) → Q elt →
    ∀ k v,
      foldl (λ acc i, <[hashKey (eltKey elt i) := elt]> acc) m l !! k = Some v →
      Q v.
Proof.
  induction l as [|i l IH]; intros m Hm Helt; simpl; [done|].
  apply IH; [|done]. intros k v. rewrite lookup_insert_Some.
  intros [[_ <-]|[_ Hk]]; [done|by eapply Hm].
Qed.

Lemma Get_position c key :
  circle c ≠ ∅ →
  sortedHashes c = updateSortedHashes (circle c) →
  ∃ h v, circle c !! h = Some v ∧ Get key c = (v, None).
Proof.
  intros Hne Hsorted. unfold Get.
  rewrite decide_False by (by apply map_size_non_empty_iff).
  assert (sortedHashes c ≠ []) as Hhs.
  { rewrite Hsorted. unfold updateSortedHashes. intros Hnil.
    apply map_choose in Hne as (k & v & Hkv).
    apply elem_of_map_to_list in Hkv.
    apply (list_elem_of_fmap_2 fst) in Hkv.
    rewrite <- (merge_sort_Permutation Z.le) in Hkv.
    change (map fst (map_to_list (circle c)))
      with (fst <$> map_to_list (circle c)) in Hnil.
    rewrite Hnil in Hkv. by apply elem_of_nil in Hkv. }
  destruct (lookup_lt_is_Some_2 _ _ (search_lt c (hashKey key) Hhs))
    as [h Hh].
  rewrite Hh. simpl.
  assert (h ∈ sortedHashes c) as Hin by (by eapply list_elem_of_lookup_2).
  rewrite Hsorted in Hin. unfold updateSortedHashes in Hin.
  rewrite merge_sort_Permutation in Hin.
  apply list_elem_of_fmap in Hin as ([k v] & -> & Hkv).
  apply elem_of_map_to_list in Hkv. simpl. rewrite Hkv. simpl.
  by exists k, v.
Qed.

Lemma Get_empty c key :
  circle c = ∅ → Get key c = (EmptyString, Some ErrEmptyCircle).
Proof.
  intros Hempty. unfold Get. rewrite Hempty.
  by rewrite decide_True by apply map_size_empty.
Qed.

Lemma fsi_routes_extend P w w' ext q :
  fsi_store w' = fsi_store w ++ ext →
  fragment_store w' = fragment_store w →
  fsi_routes P w q → fsi_routes P w' q.
Proof.
  intros Hst Hfr (fs & c & ids & Hfs & Hrest).
  exists fs, c, ids. split.
  - rewrite Hst. by rewrite deref_app by (by eexists).
  - unfold fragment_ids in *. by rewrite Hfr.
Qed.

Lemma fsi_routes_fresh P w' (S : list FrameSliceIntersect)
    (prs : list (ptr * ptr)) :
  fsi_store w' = S ++ ((λ pr, fresh_fsi pr.1 pr.2) <$> prs) →
  Forall (fsi_routes P w') (Some <$> seq (length S) (length prs)).
Proof.
  intros Hst. apply Forall_forall. intros q Hq.
  apply list_elem_of_fmap in Hq as (j & -> & Hj).
  apply elem_of_seq in Hj as [Hlo Hhi].
  destruct (lookup_lt_is_Some_2 prs (j - length S)) as [pr Hpr]; [lia|].
  exists (fresh_fsi pr.1 pr.2), (set_NumberOfReplicas 16 New), [].
  split_and!.
  - simpl. rewrite Hst, lookup_app_r by lia.
    by rewrite list_lookup_fmap, Hpr.
  - done.
  - done.
  - apply NoDup_nil_2.
  - by apply Forall_nil_2.
  - done.
  - done.
  - simpl. unfold updateSortedHashes. by rewrite map_to_list_empty.
  - intros k v. simpl. by rewrite lookup_empty.
  - done.
Qed.

Lemma routes_new P a name w :
  database_store w !! a = Some (new_database name) → routes P a w.
Proof.
  intros Hdb. exists (new_database name). split; [done|]. by apply Forall_nil_2.
Qed.

Lemma routes_addFrame P a db name w :
  database_store w !! a = Some db →
  routes P a w → routes P a (after_addFrame a db name w).
Proof.
  intros Hdb (db0 & Hdb0 & Hfsis). assert (db0 = db) as -> by congruence.
  eexists. split; [by apply after_addFrame_database|]. simpl.
  apply Forall_app. split.
  - eapply Forall_impl; [exact Hfsis|]. intros q.
    eapply fsi_routes_extend; [apply after_addFrame_fsi_store|done].
  - rewrite <- (length_fmap
                  (λ slice : ptr, (Some (length (frame_store w)), slice))
                  (slices db)).
    by apply fsi_routes_fresh.
Qed.

Lemma routes_addSlice P a db i w :
  database_store w !! a = Some db →
  routes P a w → routes P a (after_addSlice a db i w).
Proof.
  intros Hdb (db0 & Hdb0 & Hfsis). assert (db0 = db) as -> by congruence.
  eexists. split; [by apply after_addSlice_database|]. simpl.
  apply Forall_app. split.
  - eapply Forall_impl; [exact Hfsis|]. intros q.
    eapply fsi_routes_extend; [apply after_addSlice_fsi_store|done].
  - rewrite <- (length_fmap
                  (λ frame : ptr, (frame, Some (length (slice_store w))))
                  (frames db)).
    by apply fsi_routes_fresh.
Qed.

Lemma routes_addFragment (P : SUUID → Prop) a q fs c i w :
  fsi_store w !! q = Some fs → fsi_hashring fs = Some c →
  first_some (key_hit (fragment_store w) fragment_id i) (fsi_fragments fs)
  = None →
  P i →
  routes P a w → routes P a (after_addFragment q fs c i w).
Proof.
  intros Hfs Hring Hmiss HP (db & Hdb & Hfsis).
  pose proof (lookup_lt_Some _ _ _ Hfs) as Hlt.
  exists db. split; [done|].
  eapply Forall_impl; [exact Hfsis|].
  intros q' (fs' & c' & ids & Hfs' & Hring' & Hids & Hnd & HPs & Hn & Hmembers
             & Hsorted & Hvals & Hne).
  destruct q' as [j|]; [|done]. simpl in Hfs'.
  destruct (decide (j = q)) as [->|Hneq].
  - assert (fs' = fs) as -> by congruence.
    assert (c' = c) as -> by congruence.
    assert (i ∉ ids) as Hnot.
    { by apply (key_hit_None (fragment_store w) fragment_id i _ _ Hids). }
    eexists _, _, (ids ++ [i]). split_and!.
    + simpl. by apply list_lookup_insert_eq.
    + done.
    + unfold fragment_ids. simpl. rewrite !fmap_app. f_equal.
      * by apply keys_app.
      * simpl. by rewrite lookup_snoc_here.
    + apply NoDup_app. split_and!; [done| |apply NoDup_singleton].
      intros i' Hi' ->%list_elem_of_singleton. done.
    + apply Forall_app. split; [done|by apply Forall_singleton].
    + done.
    + simpl. rewrite Hmembers, fmap_app, list_to_set_app_L. simpl.
      by rewrite (right_id_L ∅ (∪)), (comm_L (∪)).
    + done.
    + simpl. unfold add_positions. apply foldl_positions_pred.
      * intros k v Hkv. rewrite fmap_app, elem_of_app. left.
        by eapply Hvals.
      * rewrite fmap_app, elem_of_app. right. simpl. left.
    + intros _. simpl. unfold add_positions.
      apply foldl_positions_non_empty. left. by rewrite Hn.
  - exists fs', c', ids. split_and!; try done.
    + simpl. by rewrite list_lookup_insert_ne.
    + unfold fragment_ids. by apply keys_app.
Qed.

Lemma GetOrCreateFrame_shape a db name w :
  database_store w !! a = Some db →
  Forall (λ p, is_Some (deref (frame_store w) p)) (frames db) →
  ∃ p w',
    GetOrCreateFrame (Some a) name w = Ret p w'
    ∧ (w' = w ∨ w' = after_addFrame a db name w).
Proof.
  intros Hdb Hlive. unfold GetOrCreateFrame.
  rewrite (bind_Ret _ _ _ _ _ (getFrame_run _ _ name _ Hdb Hlive)).
  destruct (if negb _ then _ else _) as [p [e|]]; simpl.
  - rewrite (addFrame_run _ _ _ _ Hdb). eexists _, _. split; [done|by right].
  - eexists _, _. split; [done|by left].
Qed.

Lemma GetOrCreateSlice_shape a db i w :
  database_store w !! a = Some db →
  Forall (λ p, is_Some (deref (slice_store w) p)) (slices db) →
  ∃ p w',
    GetOrCreateSlice (Some a) i w = Ret p w'
    ∧ (w' = w ∨ w' = after_addSlice a db i w).
Proof.
  intros Hdb Hlive. unfold GetOrCreateSlice.
  rewrite (bind_Ret _ _ _ _ _ (getSlice_run _ _ i _ Hdb Hlive)).
  destruct (match first_some _ _ with Some _ => _ | None => _ end)
    as [p [e|]]; simpl.
  - rewrite (addSlice_run _ _ _ _ Hdb). eexists _, _. split; [done|by right].
  - eexists _, _. split; [done|by left].
Qed.

Lemma run_build_routes (P : SUUID → Prop) a b w p w' :
  db_inv a w → routing_wf a w → routes P a w → build_in P b →
  run_build (Some a) b w = Ret p w' → routes P a w'.
Proof.
  intros Hinv Hwf Hroutes HP Hrun.
  pose proof Hwf as (db & Hdb & Hfr & Hsl & _).
  destruct b as [name|i|frame slice i]; simpl in Hrun.
  - destruct (GetOrCreateFrame_shape a db name w Hdb Hfr)
      as (p' & w'' & Hrun' & Hshape).
    rewrite Hrun in Hrun'. injection Hrun' as <- <-.
    destruct Hshape as [->| ->]; [done|by apply routes_addFrame].
  - destruct (GetOrCreateSlice_shape a db i w Hdb Hsl)
      as (p' & w'' & Hrun' & Hshape).
    rewrite Hrun in Hrun'. injection Hrun' as <- <-.
    destruct Hshape as [->| ->]; [done|by apply routes_addSlice].
  - destruct (GetOrCreateFragment_step a db frame slice i w Hinv Hwf Hdb)
      as (p' & w'' & Hrun' & _ & _ & Hshape).
    rewrite Hrun in Hrun'. injection Hrun' as <- <-.
    destruct Hshape as [->|(j & fs & c & _ & Hfs & Hring & Hmiss & ->)];
      [done|by apply routes_addFragment].
Qed.

Lemma run_builds_routes (P : SUUID → Prop) a (bs : list Build) : ∀ w,
  db_inv a w → routing_wf a w → routes P a w → Forall (build_in P) bs →
  ∃ w',
    run_builds (Some a) bs w = Ret () w'
    ∧ db_inv a w' ∧ routing_wf a w' ∧ routes P a w'.
Proof.
  unfold run_builds.
  induction bs as [|b bs IH]; intros w Hinv Hwf Hroutes HP; simpl;
    [by exists w|].
  apply Forall_cons in HP as [Hb HP].
  assert (∃ p w1, run_build (Some a) b w = Ret p w1
                  ∧ db_inv a w1 ∧ routing_wf a w1)
    as (p & w1 & Hrun & Hinv1 & Hwf1).
  { destruct b; simpl;
      [ by apply GetOrCreateFrame_wf | by apply GetOrCreateSlice_wf
      | by apply GetOrCreateFragment_inv ]. }
  pose proof (run_build_routes P a b w p w1 Hinv Hwf Hroutes Hb Hrun)
    as Hroutes1.
  unfold bind at 1. unfold bind at 1. rewrite Hrun. unfold ret at 1.
  by apply IH.
Qed.

Lemma built_routes (P : SUUID → Prop) a name (bs : list Build) w :
  database_store w !! a = Some (new_database name) →
  Forall (build_in P) bs →
  ∃ w',
    run_builds (Some a) bs w = Ret () w'
    ∧ db_inv a w' ∧ routing_wf a w' ∧ routes P a w'.
Proof.
  intros Hnew HP.
  apply run_builds_routes;
    [by eapply db_inv_new|by eapply routing_wf_new|by eapply routes_new|done].
Qed.

(** *** Where routing lands *)

Lemma fsi_hit_pair w frame slice (l : list ptr) r :
  first_some (fsi_hit w frame slice) l = Some r →
  ∃ q, r = (q, None) ∧ q ∈ l ∧ pair_of w q = Some (frame, slice).
Proof.
  induction l as [|q l IH]; simpl; [done|].
  destruct (fsi_hit w frame slice q) as [r'|] eqn:Hhit.
  - intros [= <-]. exists q. unfold fsi_hit in Hhit. unfold pair_of.
    destruct (deref (fsi_store w) q); [|done].
    destruct (decide _) as [[<- <-]|]; [|done]. inversion Hhit; subst.
    split; [done|]. split; [left|done].
  - intros (q' & ? & ? & ?)%IH. exists q'. split_and!; [done|by right|done].
Qed.

(** routing within one FSI: an error on an empty ring, a fragment of the FSI
    otherwise *)
Lemma route_in_fsi (P : SUUID → Prop) w j fs c key :
  (∀ i, P i → round_trip i) →
  fsi_routes P w (Some j) →
  fsi_store w !! j = Some fs → fsi_hashring fs = Some c →
  (fsi_fragments fs = [] → Get key c = (EmptyString, Some ErrEmptyCircle))
  ∧ (fsi_fragments fs ≠ [] →
     (Get key c).2 = None
     ∧ ∃ p,
         GetFragment (Some j) (Hex_to_SUUID (Get key c).1) w = Ret (p, None) w
         ∧ p ∈ fsi_fragments fs
         ∧ is_Some (deref (fragment_store w) p)).
Proof.
  intros Hround (fs' & c' & ids & Hfs' & Hring' & Hids & Hnd & HPs & Hn
                 & Hmembers & Hsorted & Hvals & Hne) Hfs Hring.
  simpl in Hfs'. assert (fs' = fs) as -> by congruence.
  assert (c' = c) as -> by congruence.
  unfold fragment_ids in Hids. split.
  - intros Hnil. rewrite Hnil in Hids. destruct ids as [|i ids]; [|done].
    apply Get_empty. apply map_empty. intros k.
    destruct (circle c !! k) as [v|] eqn:Hk; [|done].
    by apply Hvals, elem_of_nil in Hk.
  - intros Hsome.
    assert (ids ≠ []) as Hids' by (intros ->; by destruct (fsi_fragments fs)).
    destruct (Get_position c key (Hne Hids') Hsorted) as (h & v & Hh & Hget).
    rewrite Hget. simpl. split; [done|].
    apply Hvals, list_elem_of_fmap in Hh as (i & -> & Hi).
    rewrite Forall_forall in HPs. rewrite (Hround i (HPs i Hi)).
    pose proof (keys_live _ _ _ _ Hids) as Hlive.
    rewrite (GetFragment_run _ _ i _ Hfs Hlive).
    change (fragment_hit w i) with (key_hit (fragment_store w) fragment_id i).
    destruct (first_some _ (fsi_fragments fs)) as [r|] eqn:Hfirst.
    + destruct (key_hit_Some _ _ _ _ _ Hfirst) as (p & -> & Hp & Hid).
      exists p. split_and!; [done..|].
      destruct (deref (fragment_store w) p); [by eexists|done].
    + by apply (key_hit_None _ _ _ _ _ Hids) in Hfirst.
Qed.

(** X11. Routing lands on a fragment of the partition: on a Database built by
    any calls whose fragment ids survive the hex encoding and decoding,
    GetFragmentForBitmap changes nothing and either returns, without error,
    a live fragment of an FSI of the Database on the given slice, or
    returns nil with an error, which is never FragmentDoesNotExist: the
    ring never names a fragment the FSI does not hold. *)
Theorem routing_lands_on_a_fragment (w : World) (a : nat) (name : string)
    (bs : list Build) (slice : ptr) (bitmap : Bitmap) :
  database_store w !! a = Some (new_database name) →
  Forall (build_in round_trip) bs →
  ∃ w' db' r,
    run_builds (Some a) bs w = Ret () w'
    ∧ database_store w' !! a = Some db'
    ∧ GetFragmentForBitmap (Some a) slice bitmap w' = Ret r w'
    ∧ match r.2 with
      | None =>
          ∃ q fs,
            q ∈ frame_slice_intersects db'
            ∧ deref (fsi_store w') q = Some fs
            ∧ fsi_slice fs = slice
            ∧ r.1 ∈ fsi_fragments fs
            ∧ is_Some (deref (fragment_store w') r.1)
      | Some e => r.1 = None ∧ e ≠ FragmentDoesNotExistError
      end.
Proof.
  intros Hnew Hround.
  destruct (built_routes round_trip a name bs w Hnew Hround)
    as (w' & Hrun & Hinv & Hwf & Hroutes).
  pose proof Hwf as (db' & Hdb' & Hfr & _ & _).
  pose proof Hroutes as (db0 & Hdb0 & Hfsis).
  assert (db0 = db') as -> by congruence. clear Hdb0.
  pose proof Hinv as (db0 & ps & Hdb0 & _ & _ & _ & _ & Hpairs & _).
  assert (db0 = db') as -> by congruence. clear Hdb0.
  exists w', db'. unfold GetFragmentForBitmap.
  rewrite (bind_Ret _ _ _ _ _ (getFrame_run _ _ _ _ Hdb' Hfr)).
  change (frame_hit w' (FrameType bitmap))
    with (key_hit (frame_store w') frame_name (FrameType bitmap)).
  pose proof (load_Some database_store _ _ _ Hdb') as Hname.
  destruct (negb (IsValidFrame (Some a) (FrameType bitmap))); simpl.
  { unfold load_Database. rewrite (bind_Ret _ _ _ _ _ Hname). by eexists. }
  destruct (first_some _ (frames db')) as [found|] eqn:Hfound; simpl;
    [|unfold load_Database; rewrite (bind_Ret _ _ _ _ _ Hname); by eexists].
  destruct (key_hit_Some _ _ _ _ _ Hfound) as (frame & -> & _ & _). simpl.
  rewrite (bind_Ret _ _ _ _ _
             (GetFrameSliceIntersect_run _ _ frame slice _ Hdb'
                (pair_of_valid _ _ _ Hpairs))).
  destruct (first_some _ (frame_slice_intersects db')) as [hit|] eqn:Hhit;
    simpl; [|by eexists].
  destruct (fsi_hit_pair _ _ _ _ _ Hhit) as (q & -> & Hq & Hpair). simpl.
  rewrite Forall_forall in Hfsis. pose proof (Hfsis q Hq) as Hq'.
  destruct q as [j|]; [|by destruct Hq' as (? & ? & ? & ? & _)].
  pose proof Hq' as (fs & c & ids & Hfs & Hring & _). simpl in Hfs.
  unfold load_FSI. rewrite (bind_Ret _ _ _ _ _ (load_Some fsi_store _ _ _ Hfs)).
  rewrite Hring.
  destruct (route_in_fsi round_trip w' j fs c (pretty (Id bitmap))
              (λ i Hi, Hi) Hq' Hfs Hring) as [Hempty Hfull].
  destruct (decide (fsi_fragments fs = [])) as [Hnil|Hsome].
  - rewrite (Hempty Hnil). simpl. by eexists.
  - destruct (Hfull Hsome) as (Hok & p & Hget & Hp & Hlive).
    rewrite Hok, Hget. eexists.
    split; [done|]. split; [done|]. split; [done|]. simpl.
    exists (Some j), fs. split_and!; try done.
    unfold pair_of in Hpair. simpl in Hpair. rewrite Hfs in Hpair.
    by injection Hpair.
Qed.

(** X12. GetFragmentForFrameSlice on a pair of the Database: on a Database
    built by any calls whose fragment ids survive the hex encoding and
    decoding it changes nothing; off the pairs of the Database it returns
    the error FrameSliceIntersectDoesNotExist; on a pair without fragments
    it returns the ring's error; on a pair with fragments it returns one of
    them without error, so on a pair with a single fragment it returns that
    fragment. *)
Theorem GetFragmentForFrameSlice_lands_on_the_pair (w : World) (a : nat)
    (name : string) (bs : list Build) (frame slice : ptr) :
  database_store w !! a = Some (new_database name) →
  Forall (build_in round_trip) bs →
  ∃ w' db' r,
    run_builds (Some a) bs w = Ret () w'
    ∧ database_store w' !! a = Some db'
    ∧ GetFragmentForFrameSlice (Some a) frame slice w' = Ret r w'
    ∧ (¬ (frame ∈ frames db' ∧ slice ∈ slices db') →
       r = (None, Some FrameSliceIntersectDoesNotExistError))
    ∧ (frame ∈ frames db' ∧ slice ∈ slices db' →
       ∃ q fs,
         q ∈ frame_slice_intersects db'
         ∧ deref (fsi_store w') q = Some fs
         ∧ pair_of w' q = Some (frame, slice)
         ∧ (fsi_fragments fs = [] → r = (None, Some ErrEmptyCircle))
         ∧ (fsi_fragments fs ≠ [] → r.2 = None ∧ r.1 ∈ fsi_fragments fs)
         ∧ (∀ p, fsi_fragments fs = [p] → r = (p, None))).
Proof.
  intros Hnew Hround.
  destruct (built_routes round_trip a name bs w Hnew Hround)
    as (w' & Hrun & Hinv & Hwf & Hroutes).
  pose proof Hroutes as (db' & Hdb' & Hfsis).
  pose proof Hinv as (db0 & ps & Hdb0 & _ & _ & _ & _ & Hpairs & _ & Hmem).
  assert (db0 = db') as -> by congruence. clear Hdb0.
  exists w', db'. unfold GetFragmentForFrameSlice.
  rewrite (bind_Ret _ _ _ _ _
             (GetFrameSliceIntersect_run _ _ frame slice _ Hdb'
                (pair_of_valid _ _ _ Hpairs))).
  destruct (decide (frame ∈ frames db' ∧ slice ∈ slices db')) as [Hin|Hout].
  - destruct Hin as [Hf Hs].
    destruct (db_inv_cross_product a w' db' frame slice Hinv Hdb' Hf Hs)
      as [(q & Hq & Hqin & Hpair) _].
    rewrite (GetFrameSliceIntersect_run _ _ frame slice _ Hdb'
               (pair_of_valid _ _ _ Hpairs)) in Hq.
    injection Hq as Hq. rewrite Hq. simpl.
    rewrite Forall_forall in Hfsis. pose proof (Hfsis q Hqin) as Hq'.
    destruct q as [j|]; [|by destruct Hq' as (? & ? & ? & ? & _)].
    pose proof Hq' as (fs & c & ids & Hfs & Hring & _). simpl in Hfs.
    unfold load_FSI.
    rewrite (bind_Ret _ _ _ _ _ (load_Some fsi_store _ _ _ Hfs)).
    rewrite Hring.
    destruct (route_in_fsi round_trip w' j fs c "0"
                (λ i Hi, Hi) Hq' Hfs Hring) as [Hempty Hfull].
    destruct (decide (fsi_fragments fs = [])) as [Hnil|Hsome].
    + rewrite (Hempty Hnil). simpl. eexists.
      split; [done|]. split; [done|]. split; [done|]. split; [by intros []|].
      intros _. exists (Some j), fs. split_and!; try done.
      intros p Hp. by rewrite Hp in Hnil.
    + destruct (Hfull Hsome) as (Hok & p & Hget & Hp & Hlive).
      rewrite Hok, Hget. eexists.
      split; [done|]. split; [done|]. split; [done|]. split; [by intros []|].
      intros _. exists (Some j), fs. split_and!; try done.
      intros p' Hp'. rewrite Hp' in Hp.
      by apply list_elem_of_singleton in Hp as ->.
  - assert ((frame, slice) ∉ ps) as Hps by (by rewrite Hmem).
    rewrite (fsi_hit_None _ _ _ _ _ Hpairs Hps). simpl. eexists.
    split; [done|]. split; [done|]. split; [done|]. split; [done|].
    by intros.
Qed.

(** X13. Every FSI keeps its fragments and its ring in step: on a Database built
    by any calls, each FSI of the Database holds live fragments of pairwise
    distinct ids, each of them an id GetOrCreateFragment was called with,
    the member set of its ring is the set of their hex-encoded ids, and
    the ring has 16 virtual positions per member. *)
Theorem every_fsi_mirrors_its_fragments (w : World) (a : nat) (name : string)
    (bs : list Build) :
  database_store w !! a = Some (new_database name) →
  ∃ w' db',
    run_builds (Some a) bs w = Ret () w'
    ∧ database_store w' !! a = Some db'
    ∧ ∀ q, q ∈ frame_slice_intersects db' →
        ∃ fs c ids,
          deref (fsi_store w') q = Some fs
          ∧ fsi_hashring fs = Some c
          ∧ fragment_ids w' fs = Some <$> ids
          ∧ NoDup ids
          ∧ (∀ i, i ∈ ids → ∃ frame slice, BuildFragment frame slice i ∈ bs)
          ∧ members c = list_to_set (SUUID_to_Hex <$> ids)
          ∧ NumberOfReplicas c = 16.
Proof.
  intros Hnew.
  set (P := λ i : SUUID, ∃ frame slice, BuildFragment frame slice i ∈ bs).
  assert (Forall (build_in P) bs) as HP.
  { apply Forall_forall. intros [?|?|frame slice i] Hb; simpl; [done..|].
    by exists frame, slice. }
  destruct (built_routes P a name bs w Hnew HP)
    as (w' & Hrun & _ & _ & db' & Hdb' & Hfsis).
  exists w', db'. split; [done|]. split; [done|].
  intros q Hq. rewrite Forall_forall in Hfsis.
  destruct (Hfsis q Hq) as (fs & c & ids & Hfs & Hring & Hids & Hnd & HPs
                            & Hn & Hmembers & _).
  exists fs, c, ids. split_and!; try done.
  intros i Hi. rewrite Forall_forall in HPs. by apply HPs.
Qed.

(** *** Processes *)

(** X14. The setters of a Process change one field each: after SetHost,
    SetPortTcp and SetPortHttp on a live Process the three getters return
    the values set, Id returns the identifier the Process had (and panics as
    before when that pointer is nil), every other Process is as it was, and
    no other store has changed. *)
Theorem configure_process_sets_each_field (w : World) (p : nat) (pr : Process)
    (host : string) (tcp http : Z) :
  process_store w !! p = Some pr →
  ∃ w',
    configure_process (Some p) host tcp http w = Ret () w'
    ∧ Host (Some p) w' = Ret host w'
    ∧ PortTcp (Some p) w' = Ret tcp w'
    ∧ PortHttp (Some p) w' = Ret http w'
    ∧ Process_Id (Some p) w'
      = match process_id pr with
        | Some id => Ret id w'
        | None => Panic
        end
    ∧ (∀ p', p' ≠ p → process_store w' !! p' = process_store w !! p')
    ∧ w' = set_process_store (process_store w') w.
Proof.
  intros Hp. pose proof (lookup_lt_Some _ _ _ Hp) as Hlt.
  exists (set_process_store
            (<[p := {| process_id := process_id pr; process_host := host;
                       process_port_tcp := tcp;
                       process_port_http := http |}]> (process_store w)) w).
  split_and!.
  - unfold configure_process, SetHost, SetPortTcp, SetPortHttp, load_Process,
      store_Process, store_at, load, bind. simpl.
    repeat (first [ rewrite Hp
                  | rewrite list_lookup_insert_eq
                      by (rewrite ?length_insert; done)
                  | rewrite list_insert_insert_eq ]; simpl).
    done.
  - unfold Host, load_Process, load, bind. simpl.
    by rewrite list_lookup_insert_eq.
  - unfold PortTcp, load_Process, load, bind. simpl.
    by rewrite list_lookup_insert_eq.
  - unfold PortHttp, load_Process, load, bind. simpl.
    by rewrite list_lookup_insert_eq.
  - unfold Process_Id, load_Process, load, bind. simpl.
    rewrite list_lookup_insert_eq by done. simpl.
    by destruct (process_id pr).
  - intros p' Hne. simpl. by rewrite list_lookup_insert_ne.
  - done.
Qed.

(** *** The registry of a cluster *)

Lemma GetOrCreateDatabase_registry c name w :
  is_Some (cluster_store w !! c) →
  ∃ p w',
    GetOrCreateDatabase (Some c) name w = Ret p w'
    ∧ is_Some (cluster_store w' !! c)
    ∧ match registry w c !! name with
      | Some p0 => p = p0 ∧ w' = w
      | None =>
          p = Some (length (database_store w))
          ∧ registry w' c = <[name := p]> (registry w c)
          ∧ database_store w' = database_store w ++ [new_database name]
      end.
Proof.
  intros [cl Hcl]. pose proof (lookup_lt_Some _ _ _ Hcl) as Hlt.
  unfold registry. rewrite Hcl.
  unfold GetOrCreateDatabase, getDatabase, load_Cluster.
  unfold bind at 1. rewrite (bind_Ret _ _ _ _ _ (load_Some _ _ _ _ Hcl)).
  destruct (default ∅ (databases cl) !! name) as [p0|] eqn:Hlook.
  - exists p0, w. split; [done|]. split; [by eexists|done].
  - unfold ret at 1. simpl.
    unfold addDatabase, alloc, store_Cluster, store_at, load_Cluster, load,
      bind, ret, panic. simpl. rewrite Hcl.
    destruct (databases cl) as [m0|] eqn:Hm; simpl;
      repeat (first [ rewrite Hcl | rewrite Hm
                    | rewrite list_lookup_insert_eq by done
                    | rewrite list_insert_insert_eq ]; simpl);
      eexists _, _; (split; [done|]); simpl;
      rewrite list_lookup_insert_eq by done; (split; [by eexists|done]).
Qed.

(** X15. The registry only grows, by new empty Databases: after one
    GetOrCreateDatabase call per name of a list, the registered names are
    those registered before and those of the list, every entry that was
    there is unchanged, every other entry points to a Database allocated by
    these calls that is empty and has the name it is registered under, the
    Databases that existed are as they were, and GetDatabases returns this
    registry. *)
Theorem registry_only_grows (w : World) (c : nat) (names : list string) :
  is_Some (cluster_store w !! c) →
  ∃ w',
    run_databases (Some c) names w = Ret () w'
    ∧ dom (registry w' c) = dom (registry w c) ∪ list_to_set names
    ∧ registry w c ⊆ registry w' c
    ∧ database_store w `prefix_of` database_store w'
    ∧ (∀ n p, registry w' c !! n = Some p →
              registry w c !! n = Some p
              ∨ ∃ j, p = Some j
                     ∧ (length (database_store w) ≤ j)%nat
                     ∧ database_store w' !! j = Some (new_database n))
    ∧ ∃ m, GetDatabases (Some c) w' = Ret m w'
           ∧ default ∅ m = registry w' c.
Proof.
  unfold run_databases. revert w.
  induction names as [|name names IH]; intros w Hc.
  - exists w. simpl. split; [done|].
    split; [by rewrite (right_id_L ∅ (∪))|]. split; [done|].
    split; [done|]. split; [by left|].
    destruct Hc as [cl Hcl]. unfold GetDatabases, load_Cluster, registry.
    rewrite (bind_Ret _ _ _ _ _ (load_Some _ _ _ _ Hcl)), Hcl.
    by eexists.
  - destruct (GetOrCreateDatabase_registry c name w Hc)
      as (p & w1 & Hrun & Hc1 & Hstep).
    destruct (IH w1 Hc1) as (w' & Hrest & Hdom & Hsub & Hpre & Hnew & Hget).
    exists w'. simpl. unfold bind at 1. unfold bind at 1. rewrite Hrun.
    unfold ret at 1. split; [done|].
    destruct (registry w c !! name) as [p0|] eqn:Hlook.
    + destruct Hstep as [-> ->]. split_and!; try done.
      rewrite Hdom. apply (elem_of_dom_2 (registry w c)) in Hlook.
      apply set_eq. intros x.
      rewrite !elem_of_union, elem_of_singleton.
      split; [tauto|]. intros [?|[->|?]]; auto.
    + destruct Hstep as (-> & Hreg1 & Hdb1). split_and!; try done.
      * rewrite Hdom, Hreg1, dom_insert_L. apply set_eq. intros x.
        rewrite !elem_of_union, elem_of_singleton. tauto.
      * etrans; [|exact Hsub]. rewrite Hreg1. by apply insert_subseteq.
      * etrans; [|exact Hpre]. rewrite Hdb1. by apply prefix_app_r.
      * intros n q Hq. destruct (Hnew n q Hq) as [Hold|(j & -> & Hj & Hdbj)].
        -- rewrite Hreg1 in Hold. apply lookup_insert_Some in Hold
             as [[<- <-]|[_ Hold]]; [|by left].
           right. eexists. split; [done|]. split; [done|].
           apply (prefix_lookup_Some (database_store w1)); [|done].
           rewrite Hdb1. apply lookup_snoc_here.
        -- right. exists j. split; [done|]. split; [|done].
           rewrite Hdb1, length_app in Hj. lia.
Qed.

(** *** Adding an FSI by hand *)

(** X16. AddFrameSliceIntersect never looks for an FSI of the pair: on a
    Database whose FSIs are live it always allocates a new FSI, without
    fragments and with a ring of 16 positions per member, and appends it,
    so the number of FSIs of the Database that join the given frame and
    slice grows by one, even when there was one, and the number for every
    other pair stays. *)
Theorem AddFrameSliceIntersect_never_checks (w : World) (a : nat)
    (db : Database) (frame slice : ptr) :
  database_store w !! a = Some db →
  Forall (λ q, is_Some (deref (fsi_store w) q)) (frame_slice_intersects db) →
  ∃ w' db',
    AddFrameSliceIntersect (Some a) frame slice w
    = Ret (Some (length (fsi_store w))) w'
    ∧ database_store w' !! a = Some db'
    ∧ frame_slice_intersects db'
      = frame_slice_intersects db ++ [Some (length (fsi_store w))]
    ∧ fsi_store w' = fsi_store w ++ [fresh_fsi frame slice]
    ∧ ∀ f s,
        fsi_count w' db' f s
        = (fsi_count w db f s
           + (if decide ((f, s) = (frame, slice)) then 1 else 0))%nat.
Proof.
  intros Hdb Hlive. pose proof (lookup_lt_Some _ _ _ Hdb) as Hlt.
  eexists _, _. split; [by apply AddFrameSliceIntersect_run|].
  split; [simpl; by apply list_lookup_insert_eq|].
  split; [done|]. split; [done|].
  intros f s. unfold fsi_count. simpl.
  rewrite List.filter_app, length_app. f_equal.
  - f_equal. apply List.filter_ext_in. intros q Hq%list_elem_of_In.
    rewrite Forall_forall in Hlive. unfold pair_of. simpl.
    by rewrite deref_app by auto.
  - simpl. unfold pair_of. simpl. rewrite lookup_snoc_here. simpl.
    destruct (decide ((f, s) = (frame, slice))) as [[= -> ->]|Hne].
    + by rewrite bool_decide_eq_true_2.
    + rewrite bool_decide_eq_false_2; [done|]. by intros [= <- <-].
Qed.

End proofs.

(** * Closed examples on the sample instance *)

Section examples.
#[local] Existing Instance sample_externals.

(** C1. What the code does where the claim expects a failure: with the default
    allow-list, on a new Database, the lookup of "other" answers
    InvalidFrame, yet GetOrCreateFrame("other") returns a Frame: it has
    allocated a Frame named "other" and put it into the Database. *)
Theorem GetOrCreateFrame_other_is_created :
  IsValidFrame (Some 0%nat) "other" = false
  ∧ getFrame (Some 0%nat) "other" sample_world
    = Ret (None, Some InvalidFrameError) sample_world
  ∧ ∃ w',
      GetOrCreateFrame (Some 0%nat) "other" sample_world = Ret (Some 0%nat) w'
      ∧ frame_store w' = [{| frame_name := "other" |}]
      ∧ frames <$> database_store w' !! 0%nat = Some [Some 0%nat].
Proof.
  split; [reflexivity|]. split; [reflexivity|].
  eexists. split; [reflexivity|]. split; reflexivity.
Qed.

Lemma cross_product_invariant_witness :
  database_store sample_world !! 0%nat = Some (new_database "d")
  ∧ ∃ w' db',
      run_calls (Some 0%nat) sample_calls sample_world = Ret () w'
      ∧ database_store w' !! 0%nat = Some db'
      ∧ ∀ frame slice,
          frame ∈ frames db' → slice ∈ slices db' →
          (∃ q, GetFrameSliceIntersect (Some 0%nat) frame slice w'
                = Ret (q, None) w'
                ∧ q ∈ frame_slice_intersects db'
                ∧ pair_of w' q = Some (frame, slice))
          ∧ fsi_count w' db' frame slice = 1%nat.
Proof.
  split; [reflexivity|].
  apply (cross_product_invariant sample_world 0%nat "d" sample_calls).
  reflexivity.
Defined.

Lemma missing_frame_propagation_witness :
  database_store sample_built_world !! 0%nat = Some sample_database
  ∧ Forall (λ p, is_Some (deref (frame_store sample_built_world) p))
      (frames sample_database)
  ∧ (Some "other"%string ∉ frame_names sample_built_world sample_database)
  ∧ ∃ err,
      GetFragmentForBitmap (Some 0%nat) (Some 0%nat)
        {| Id := 42; FrameType := "other"; Filter := 0 |} sample_built_world
      = Ret (None, Some err) sample_built_world
      ∧ (err = FrameDoesNotExistError ∨ err = InvalidFrameError).
Proof.
  assert (Forall (λ p, is_Some (deref (frame_store sample_built_world) p))
            (frames sample_database)) as Hlive.
  { apply Forall_singleton. by eexists. }
  assert (Some "other"%string
          ∉ frame_names sample_built_world sample_database) as Hnot.
  { apply (bool_decide_unpack _). by vm_compute. }
  split; [reflexivity|]. split; [exact Hlive|]. split; [exact Hnot|].
  exact (missing_frame_propagation sample_built_world 0%nat sample_database
           (Some 0%nat) {| Id := 42; FrameType := "other"; Filter := 0 |}
           eq_refl Hlive Hnot).
Defined.

Lemma single_fragment_routing_witness :
  database_store sample_world !! 0%nat = Some (new_database "d")
  ∧ config_arrays !! "supported_frames"%string = None
  ∧ Hex_to_SUUID (SUUID_to_Hex (2748%N : @SUUID sample_externals)) = 2748%N
  ∧ FrameType sample_bitmap = "default"%string
  ∧ ∃ fragment w',
      single_fragment_scenario (Some 0%nat) (2748%N : @SUUID sample_externals) sample_bitmap
        sample_world
      = Ret (Some fragment, (Some fragment, None)) w'
      ∧ fragment_store w' !! fragment
        = Some {| fragment_id := 2748%N : @SUUID sample_externals; fragment_process := None |}.
Proof.
  split; [reflexivity|]. split; [reflexivity|]. split; [reflexivity|].
  split; [reflexivity|].
  exact (single_fragment_routing sample_world 0%nat "d"
           (2748%N : @SUUID sample_externals) sample_bitmap
           eq_refl eq_refl eq_refl eq_refl).
Defined.

Lemma ring_mirrors_fragment_set_witness :
  database_store sample_built_world !! 0%nat = Some sample_database
  ∧ Forall (λ p, is_Some (deref (fragment_store sample_built_world) p))
      [Some 0%nat; Some 1%nat]
  ∧ ∃ q w0 w' fs c,
      AddFrameSliceIntersect (Some 0%nat) (Some 0%nat) (Some 0%nat)
        sample_built_world = Ret (Some q) w0
      ∧ range_do [Some 0%nat; Some 1%nat] (AddFragment (Some q)) w0
        = Ret () w'
      ∧ fsi_store w' !! q = Some fs
      ∧ fsi_frame fs = Some 0%nat ∧ fsi_slice fs = Some 0%nat
      ∧ fsi_fragments fs = [Some 0%nat; Some 1%nat]
      ∧ fsi_hashring fs = Some c
      ∧ members c
        = list_to_set (fragment_hexes w' [Some 0%nat; Some 1%nat])
      ∧ length (fragment_hexes w' [Some 0%nat; Some 1%nat])
        = length [Some 0%nat; Some 1%nat]
      ∧ NumberOfReplicas c = 16.
Proof.
  assert (Forall (λ p, is_Some (deref (fragment_store sample_built_world) p))
            [Some 0%nat; Some 1%nat]) as Hlive.
  { repeat apply Forall_cons_2; [by eexists..|by apply Forall_nil_2]. }
  split; [reflexivity|]. split; [exact Hlive|].
  exact (ring_mirrors_fragment_set sample_built_world 0%nat sample_database
           (Some 0%nat) (Some 0%nat) [Some 0%nat; Some 1%nat] eq_refl Hlive).
Defined.

Lemma deterministic_routing_witness :
  database_store sample_world !! 0%nat = Some (new_database "d")
  ∧ ∃ w r,
      run_builds (Some 0%nat) sample_builds sample_world = Ret () w
      ∧ GetFragmentForBitmap (Some 0%nat) (Some 0%nat) sample_bitmap w
        = Ret r w
      ∧ ∀ bitmap',
          Id bitmap' = Id sample_bitmap →
          FrameType bitmap' = FrameType sample_bitmap →
          GetFragmentForBitmap (Some 0%nat) (Some 0%nat) bitmap' w = Ret r w.
Proof.
  split; [reflexivity|].
  exact (proj1 (deterministic_routing sample_world 0%nat "d" sample_builds
                  (Some 0%nat) sample_bitmap eq_refl)).
Defined.

Lemma GetOrCreateDatabase_get_or_create_witness :
  cluster_store sample_cluster_world !! 0%nat
  = Some {| databases := Some ∅ |}
  ∧ ∃ p w1 cl1,
      GetOrCreateDatabase (Some 0%nat) "x" sample_cluster_world = Ret p w1
      ∧ GetOrCreateDatabase (Some 0%nat) "x" w1 = Ret p w1
      ∧ cluster_store w1 !! 0%nat = Some cl1
      ∧ default ∅ (databases cl1) !! "x"%string = Some p
      ∧ (size (default ∅ (databases cl1)) ≤ 1)%nat.
Proof.
  split; [reflexivity|].
  exact (proj2 (proj2 (GetOrCreateDatabase_get_or_create sample_cluster_world
                         0%nat {| databases := Some ∅ |} "x" eq_refl))).
Defined.

Lemma GetSlice_is_floor_division_witness :
  SLICE_WIDTH = 1048576
  ∧ (∀ itemId, 0 ≤ itemId < 2 ^ 64 →
               GetSlice itemId = itemId `div` SLICE_WIDTH)
  ∧ GetSlice 0 = 0
  ∧ GetSlice 1048575 = 0
  ∧ GetSlice 1048576 = 1.
Proof.
  split; [reflexivity|].
  exact (GetSlice_is_floor_division eq_refl).
Defined.

Lemma unassigned_process_panics_witness :
  (fragment_store sample_built_world !! 1%nat
   = Some {| fragment_id := 51966%N : @SUUID sample_externals; fragment_process := None |}
   ∧ GetProcessId (Some 1%nat) sample_built_world = Panic
   ∧ GetLocation (Some 1%nat) sample_built_world = Panic)
  ∧ (process_store sample_built_world !! 0%nat
     = Some {| process_id := Some (7%N : @GUID sample_externals); process_host := "localhost";
               process_port_tcp := 12000; process_port_http := 15000 |}
     ∧ ∃ w',
         SetProcess (Some 1%nat) (Some 0%nat) sample_built_world = Ret () w'
         ∧ GetProcessId (Some 1%nat) w' = Ret (Some (7%N : @GUID sample_externals)) w'
         ∧ GetLocation (Some 1%nat) w'
           = Ret {| ProcessId := Some (7%N : @GUID sample_externals);
                    FragmentId := 51966%N : @SUUID sample_externals |} w')
  ∧ (fragment_store sample_built_world !! 2%nat = None
     ∧ ∃ w',
         GetOrCreateFragment (Some 0%nat) (Some 0%nat) (Some 0%nat)
           (777%N : @SUUID sample_externals) sample_built_world
         = Ret (Some 2%nat) w'
         ∧ fragment_store w' !! 2%nat
           = Some {| fragment_id := 777%N : @SUUID sample_externals;
                     fragment_process := None |}
         ∧ GetProcessId (Some 2%nat) w' = Panic
         ∧ GetLocation (Some 2%nat) w' = Panic).
Proof.
  destruct unassigned_process_panics as (Hnil & Hnew & Hset & _).
  split; [|split].
  - split; [reflexivity|].
    exact (Hnil sample_built_world 1%nat _ eq_refl eq_refl).
  - split; [reflexivity|].
    exact (Hset sample_built_world 1%nat _ 0%nat _ eq_refl eq_refl).
  - split; [reflexivity|]. eexists. split; [reflexivity|].
    exact (Hnew sample_built_world (Some 0%nat) (Some 0%nat) (Some 0%nat)
             (777%N : @SUUID sample_externals) 2%nat _ eq_refl eq_refl).
Defined.

Lemma invalid_frame_is_appended_twice_witness :
  database_store sample_built_world !! 0%nat = Some sample_database
  ∧ IsValidFrame (Some 0%nat) "other" = false
  ∧ ∃ w1 db1 w2 db2,
      getFrame (Some 0%nat) "other" sample_built_world
      = Ret (None, Some InvalidFrameError) sample_built_world
      ∧ GetOrCreateFrame (Some 0%nat) "other" sample_built_world
        = Ret (Some 1%nat) w1
      ∧ deref (frame_store sample_built_world) (Some 1%nat) = None
      ∧ database_store w1 !! 0%nat = Some db1
      ∧ frames db1 = [Some 0%nat; Some 1%nat]
      ∧ frame_slice_intersects db1 = [Some 0%nat; Some 1%nat]
      ∧ fsi_store w1
        = [fresh_fsi (Some 0%nat) (Some 0%nat);
           fresh_fsi (Some 1%nat) (Some 0%nat)]
      ∧ GetOrCreateFrame (Some 0%nat) "other" w1 = Ret (Some 2%nat) w2
      ∧ Some 1%nat ≠ Some 2%nat
      ∧ database_store w2 !! 0%nat = Some db2
      ∧ frames db2 = [Some 0%nat; Some 1%nat; Some 2%nat]
      ∧ frame_name <$> deref (frame_store w2) (Some 1%nat) = Some "other"%string
      ∧ frame_name <$> deref (frame_store w2) (Some 2%nat) = Some "other"%string.
Proof.
  split; [reflexivity|]. split; [reflexivity|].
  exact (invalid_frame_is_appended_twice sample_built_world 0%nat
           sample_database "other" eq_refl eq_refl).
Defined.


(** ** The further properties on the sample instance *)

Lemma built_slices_are_the_requested_ids_witness :
  database_store sample_world !! 0%nat = Some (new_database "d")
  ∧ ∃ w' db',
      run_builds (Some 0%nat) sample_builds sample_world = Ret () w'
      ∧ database_store w' !! 0%nat = Some db'
      ∧ slice_ids w' db' = Some <$> foldl build_slices [] sample_builds
      ∧ NoDup (foldl build_slices [] sample_builds)
      ∧ ∀ i, i ∈ foldl build_slices [] sample_builds
             ↔ BuildSlice i ∈ sample_builds.
Proof.
  split; [reflexivity|].
  exact (built_slices_are_the_requested_ids sample_world 0%nat "d"
           sample_builds eq_refl).
Defined.

Lemma built_frames_are_the_requested_names_witness :
  database_store sample_world !! 0%nat = Some (new_database "d")
  ∧ ∃ w' db',
      run_builds (Some 0%nat) sample_builds sample_world = Ret () w'
      ∧ database_store w' !! 0%nat = Some db'
      ∧ frame_names w' db' = Some <$> foldl build_frames [] sample_builds
      ∧ NoDup (filter (λ n, IsValidFrame None n = true)
                 (foldl build_frames [] sample_builds))
      ∧ ∀ n, n ∈ foldl build_frames [] sample_builds
             ↔ BuildFrame n ∈ sample_builds.
Proof.
  split; [reflexivity|].
  exact (built_frames_are_the_requested_names sample_world 0%nat "d"
           sample_builds eq_refl).
Defined.

Lemma NumSlices_counts_requested_ids_witness :
  database_store sample_world !! 0%nat = Some (new_database "d")
  ∧ ∃ w',
      run_builds (Some 0%nat) sample_builds sample_world = Ret () w'
      ∧ NumSlices (Some 0%nat) w'
        = Ret (if decide (foldl build_slices [] sample_builds = [])
               then (0, Some EmptyDatabase)
               else (Z.of_nat (length (foldl build_slices [] sample_builds)),
                     None)) w'
      ∧ (foldl build_slices [] sample_builds = []
         ↔ ∀ i, BuildSlice i ∉ sample_builds).
Proof.
  split; [reflexivity|].
  exact (NumSlices_counts_requested_ids sample_world 0%nat "d" sample_builds
           eq_refl).
Defined.

Lemma GetOrCreateSlice_is_idempotent_witness :
  database_store sample_world !! 0%nat = Some (new_database "d")
  ∧ ∃ w1 p w2,
      run_builds (Some 0%nat) sample_builds sample_world = Ret () w1
      ∧ GetOrCreateSlice (Some 0%nat) 7 w1 = Ret p w2
      ∧ slice_id <$> deref (slice_store w2) p = Some 7
      ∧ GetOrCreateSlice (Some 0%nat) 7 w2 = Ret p w2.
Proof.
  split; [reflexivity|].
  exact (GetOrCreateSlice_is_idempotent sample_world 0%nat "d" sample_builds
           7 eq_refl).
Defined.

Lemma GetOrCreateFrame_is_idempotent_on_valid_names_witness :
  database_store sample_world !! 0%nat = Some (new_database "d")
  ∧ IsValidFrame None "default" = true
  ∧ ∃ w1 p w2,
      run_builds (Some 0%nat) sample_builds sample_world = Ret () w1
      ∧ GetOrCreateFrame (Some 0%nat) "default" w1 = Ret p w2
      ∧ frame_name <$> deref (frame_store w2) p = Some "default"%string
      ∧ GetOrCreateFrame (Some 0%nat) "default" w2 = Ret p w2.
Proof.
  split; [reflexivity|]. split; [reflexivity|].
  exact (GetOrCreateFrame_is_idempotent_on_valid_names sample_world 0%nat "d"
           sample_builds "default" eq_refl eq_refl).
Defined.

Lemma GetSliceForProfile_finds_requested_slices_witness :
  database_store sample_world !! 0%nat = Some (new_database "d")
  ∧ ∃ w' r,
      run_builds (Some 0%nat) sample_builds sample_world = Ret () w'
      ∧ GetSliceForProfile (Some 0%nat) 1048575 w' = Ret r w'
      ∧ (BuildSlice (GetSlice 1048575) ∈ sample_builds →
         r.2 = None
         ∧ slice_id <$> deref (slice_store w') r.1 = Some (GetSlice 1048575))
      ∧ (BuildSlice (GetSlice 1048575) ∉ sample_builds →
         r = (None, Some SliceDoesNotExistError)).
Proof.
  split; [reflexivity|].
  exact (GetSliceForProfile_finds_requested_slices sample_world 0%nat "d"
           sample_builds 1048575 eq_refl).
Defined.

Lemma GetSlice_ranges_witness :
  2 ≤ SLICE_WIDTH
  ∧ 0 ≤ 1048575 ≤ 3145728
  ∧ 3145728 < 2 ^ 64
  ∧ 0 ≤ GetSlice 1048575
  ∧ SLICE_WIDTH * GetSlice 1048575 ≤ 1048575
    < SLICE_WIDTH * (GetSlice 1048575 + 1)
  ∧ GetSlice 1048575 ≤ GetSlice 3145728.
Proof.
  assert (2 ≤ @SLICE_WIDTH sample_externals) as Hwidth by (by simpl).
  assert (0 ≤ 1048575 ≤ 3145728) as Hids by lia.
  assert (3145728 < 2 ^ 64) as Hhi by done.
  split; [exact Hwidth|]. split; [exact Hids|]. split; [exact Hhi|].
  exact (GetSlice_ranges 1048575 3145728 Hwidth Hids Hhi).
Defined.

Lemma GetFrameSliceIntersect_exactly_on_pairs_witness :
  database_store sample_world !! 0%nat = Some (new_database "d")
  ∧ ∃ w' db' r,
      run_builds (Some 0%nat) sample_builds sample_world = Ret () w'
      ∧ database_store w' !! 0%nat = Some db'
      ∧ GetFrameSliceIntersect (Some 0%nat) (Some 0%nat) (Some 5%nat) w'
        = Ret r w'
      ∧ (Some 0%nat ∈ frames db' ∧ Some 5%nat ∈ slices db' →
         r.2 = None ∧ r.1 ∈ frame_slice_intersects db'
         ∧ pair_of w' r.1 = Some (Some 0%nat, Some 5%nat))
      ∧ (¬ (Some 0%nat ∈ frames db' ∧ Some 5%nat ∈ slices db') →
         r = (None, Some FrameSliceIntersectDoesNotExistError)).
Proof.
  split; [reflexivity|].
  exact (GetFrameSliceIntersect_exactly_on_pairs sample_world 0%nat "d"
           sample_builds (Some 0%nat) (Some 5%nat) eq_refl).
Defined.

Lemma GetOrCreateFragment_is_idempotent_witness :
  database_store sample_world !! 0%nat = Some (new_database "d")
  ∧ ∃ w1 db1 p w2,
      run_builds (Some 0%nat) sample_builds sample_world = Ret () w1
      ∧ database_store w1 !! 0%nat = Some db1
      ∧ GetOrCreateFragment (Some 0%nat) (Some 0%nat) (Some 0%nat)
          (777%N : @SUUID sample_externals) w1 = Ret p w2
      ∧ GetOrCreateFragment (Some 0%nat) (Some 0%nat) (Some 0%nat)
          (777%N : @SUUID sample_externals) w2 = Ret p w2
      ∧ (Some 0%nat ∈ frames db1 ∧ Some 0%nat ∈ slices db1 →
         fragment_id <$> deref (fragment_store w2) p
         = Some (777%N : @SUUID sample_externals))
      ∧ (¬ (Some 0%nat ∈ frames db1 ∧ Some 0%nat ∈ slices db1) →
         p = None ∧ w2 = w1).
Proof.
  split; [reflexivity|].
  exact (GetOrCreateFragment_is_idempotent sample_world 0%nat "d"
           sample_builds (Some 0%nat) (Some 0%nat)
           (777%N : @SUUID sample_externals) eq_refl).
Defined.

Lemma routing_lands_on_a_fragment_witness :
  database_store sample_world !! 0%nat = Some (new_database "d")
  ∧ Forall (build_in round_trip) sample_builds
  ∧ ∃ w' db' r,
      run_builds (Some 0%nat) sample_builds sample_world = Ret () w'
      ∧ database_store w' !! 0%nat = Some db'
      ∧ GetFragmentForBitmap (Some 0%nat) (Some 0%nat) sample_bitmap w'
        = Ret r w'
      ∧ match r.2 with
        | None =>
            ∃ q fs,
              q ∈ frame_slice_intersects db'
              ∧ deref (fsi_store w') q = Some fs
              ∧ fsi_slice fs = Some 0%nat
              ∧ r.1 ∈ fsi_fragments fs
              ∧ is_Some (deref (fragment_store w') r.1)
        | Some e => r.1 = None ∧ e ≠ FragmentDoesNotExistError
        end.
Proof.
  assert (Forall (build_in round_trip) sample_builds) as Hround.
  { repeat apply Forall_cons_2; try apply Forall_nil_2; simpl;
      try exact I; reflexivity. }
  split; [reflexivity|]. split; [exact Hround|].
  exact (routing_lands_on_a_fragment sample_world 0%nat "d" sample_builds
           (Some 0%nat) sample_bitmap eq_refl Hround).
Defined.

Lemma GetFragmentForFrameSlice_lands_on_the_pair_witness :
  database_store sample_world !! 0%nat = Some (new_database "d")
  ∧ Forall (build_in round_trip) sample_builds
  ∧ ∃ w' db' r,
      run_builds (Some 0%nat) sample_builds sample_world = Ret () w'
      ∧ database_store w' !! 0%nat = Some db'
      ∧ GetFragmentForFrameSlice (Some 0%nat) (Some 0%nat) (Some 0%nat) w'
        = Ret r w'
      ∧ (¬ (Some 0%nat ∈ frames db' ∧ Some 0%nat ∈ slices db') →
         r = (None, Some FrameSliceIntersectDoesNotExistError))
      ∧ (Some 0%nat ∈ frames db' ∧ Some 0%nat ∈ slices db' →
         ∃ q fs,
           q ∈ frame_slice_intersects db'
           ∧ deref (fsi_store w') q = Some fs
           ∧ pair_of w' q = Some (Some 0%nat, Some 0%nat)
           ∧ (fsi_fragments fs = [] → r = (None, Some ErrEmptyCircle))
           ∧ (fsi_fragments fs ≠ [] → r.2 = None ∧ r.1 ∈ fsi_fragments fs)
           ∧ (∀ p, fsi_fragments fs = [p] → r = (p, None))).
Proof.
  assert (Forall (build_in round_trip) sample_builds) as Hround.
  { repeat apply Forall_cons_2; try apply Forall_nil_2; simpl;
      try exact I; reflexivity. }
  split; [reflexivity|]. split; [exact Hround|].
  exact (GetFragmentForFrameSlice_lands_on_the_pair sample_world 0%nat "d"
           sample_builds (Some 0%nat) (Some 0%nat) eq_refl Hround).
Defined.

Lemma every_fsi_mirrors_its_fragments_witness :
  database_store sample_world !! 0%nat = Some (new_database "d")
  ∧ ∃ w' db',
      run_builds (Some 0%nat) sample_builds sample_world = Ret () w'
      ∧ database_store w' !! 0%nat = Some db'
      ∧ ∀ q, q ∈ frame_slice_intersects db' →
          ∃ fs c ids,
            deref (fsi_store w') q = Some fs
            ∧ fsi_hashring fs = Some c
            ∧ fragment_ids w' fs = Some <$> ids
            ∧ NoDup ids
            ∧ (∀ i, i ∈ ids →
                    ∃ frame slice, BuildFragment frame slice i ∈ sample_builds)
            ∧ members c = list_to_set (SUUID_to_Hex <$> ids)
            ∧ NumberOfReplicas c = 16.
Proof.
  split; [reflexivity|].
  exact (every_fsi_mirrors_its_fragments sample_world 0%nat "d" sample_builds
           eq_refl).
Defined.

Lemma configure_process_sets_each_field_witness :
  process_store sample_built_world !! 0%nat
  = Some {| process_id := Some (7%N : @GUID sample_externals);
            process_host := "localhost";
            process_port_tcp := 12000; process_port_http := 15000 |}
  ∧ ∃ w',
      configure_process (Some 0%nat) "10.0.0.1" 12001 15001 sample_built_world
      = Ret () w'
      ∧ Host (Some 0%nat) w' = Ret "10.0.0.1"%string w'
      ∧ PortTcp (Some 0%nat) w' = Ret 12001 w'
      ∧ PortHttp (Some 0%nat) w' = Ret 15001 w'
      ∧ Process_Id (Some 0%nat) w' = Ret (7%N : @GUID sample_externals) w'
      ∧ (∀ p', p' ≠ 0%nat →
               process_store w' !! p' = process_store sample_built_world !! p')
      ∧ w' = set_process_store (process_store w') sample_built_world.
Proof.
  split; [reflexivity|].
  exact (configure_process_sets_each_field sample_built_world 0%nat _
           "10.0.0.1" 12001 15001 eq_refl).
Defined.

Lemma registry_only_grows_witness :
  is_Some (cluster_store sample_cluster_world !! 0%nat)
  ∧ ∃ w',
      run_databases (Some 0%nat) ["x"; "y"; "x"]%string sample_cluster_world
      = Ret () w'
      ∧ dom (registry w' 0%nat)
        = dom (registry sample_cluster_world 0%nat)
          ∪ list_to_set ["x"; "y"; "x"]%string
      ∧ registry sample_cluster_world 0%nat ⊆ registry w' 0%nat
      ∧ database_store sample_cluster_world `prefix_of` database_store w'
      ∧ (∀ n p, registry w' 0%nat !! n = Some p →
                registry sample_cluster_world 0%nat !! n = Some p
                ∨ ∃ j, p = Some j
                       ∧ (length (database_store sample_cluster_world) ≤ j)%nat
                       ∧ database_store w' !! j = Some (new_database n))
      ∧ ∃ m, GetDatabases (Some 0%nat) w' = Ret m w'
             ∧ default ∅ m = registry w' 0%nat.
Proof.
  assert (is_Some (cluster_store sample_cluster_world !! 0%nat)) as Hc
    by (by eexists).
  split; [exact Hc|].
  exact (registry_only_grows sample_cluster_world 0%nat
           ["x"; "y"; "x"]%string Hc).
Defined.

Lemma AddFrameSliceIntersect_never_checks_witness :
  database_store sample_built_world !! 0%nat = Some sample_database
  ∧ Forall (λ q, is_Some (deref (fsi_store sample_built_world) q))
      (frame_slice_intersects sample_database)
  ∧ ∃ w' db',
      AddFrameSliceIntersect (Some 0%nat) (Some 0%nat) (Some 0%nat)
        sample_built_world
      = Ret (Some (length (fsi_store sample_built_world))) w'
      ∧ database_store w' !! 0%nat = Some db'
      ∧ frame_slice_intersects db'
        = frame_slice_intersects sample_database
          ++ [Some (length (fsi_store sample_built_world))]
      ∧ fsi_store w'
        = fsi_store sample_built_world
          ++ [fresh_fsi (Some 0%nat) (Some 0%nat)]
      ∧ ∀ f s,
          fsi_count w' db' f s
          = (fsi_count sample_built_world sample_database f s
             + (if decide ((f, s) = (Some 0%nat, Some 0%nat))
                then 1 else 0))%nat.
Proof.
  assert (Forall (λ q, is_Some (deref (fsi_store sample_built_world) q))
            (frame_slice_intersects sample_database)) as Hlive.
  { apply Forall_singleton. by eexists. }
  split; [reflexivity|]. split; [exact Hlive|].
  exact (AddFrameSliceIntersect_never_checks sample_built_world 0%nat
           sample_database (Some 0%nat) (Some 0%nat) eq_refl Hlive).
Defined.

End examples.
